(** * Blog test-data generator and its relationship verifier

  A shallow embedding of [infra/postgres/generate_test_data.py]
  (class [BlogDataGenerator] and [main]) and of
  [infra/postgres/verify_relationships.py] ([extract_uuids_from_sql]).

  Python strings are modelled as [string] (one [ascii] per character),
  [int] as [Z], [float] as the kernel's binary64 [float], a [datetime] as
  a number of microseconds ([Z]), lists as [list], the local [set]s as
  duplicate-free lists.  Everything the scripts read from outside the
  program (the operating system's entropy behind [uuid4], the [random]
  module, the wall clock, the Faker text provider) is a tape in the
  [World] the code runs in: a function from the number of the call to
  the value the call returns, with a cursor. *)

From Stdlib Require Import String Ascii List ZArith NArith Lia Bool.
From Stdlib Require Import Floats DecimalString DecimalPos DecimalZ.
Import ListNotations.

Local Open Scope string_scope.
Local Open Scope Z_scope.

(** ** Python string operations used by the scripts *)

Module PyStr.

Definition quote : ascii := "'"%char.
Definition newline : ascii := "010"%char.

Definition LF : string := String newline "".

(** [s.replace(old, new)] for a one-character [old]. *)
Fixpoint replace (old : ascii) (new : string) (s : string) : string :=
  match s with
  | "" => ""
  | String c t =>
      if Ascii.eqb c old then new ++ replace old new t
      else String c (replace old new t)
  end.

Definition lower_char (c : ascii) : ascii :=
  let n := nat_of_ascii c in
  if (Nat.leb 65 n && Nat.leb n 90)%bool then ascii_of_nat (n + 32) else c.

(** [s.lower()] on ASCII text: the letters [A] to [Z] are lowered, every
    other character, letters outside ASCII included, is left as it is. *)
Fixpoint lower (s : string) : string :=
  match s with
  | "" => ""
  | String c t => String (lower_char c) (lower t)
  end.

(** [str.upper()] is only applied to [str(bool)]. *)
Definition upper_char (c : ascii) : ascii :=
  let n := nat_of_ascii c in
  if (Nat.leb 97 n && Nat.leb n 122)%bool then ascii_of_nat (n - 32) else c.

Fixpoint upper (s : string) : string :=
  match s with
  | "" => ""
  | String c t => String (upper_char c) (upper t)
  end.

(** [sep.join(parts)]. *)
Definition join (sep : string) (parts : list string) : string :=
  String.concat sep parts.

(** [s.split(sep)] for a one-character [sep]: never the empty list. *)
Fixpoint split (sep : ascii) (s : string) : list string :=
  match s with
  | "" => [""]
  | String c t =>
      if Ascii.eqb c sep then "" :: split sep t
      else match split sep t with
           | [] => [String c ""]
           | p :: ps => String c p :: ps
           end
  end.

(** Whitespace as [str.strip()] and the pattern [\s] see it on ASCII. *)
Definition is_space (c : ascii) : bool :=
  let n := nat_of_ascii c in
  ((Nat.leb 9 n && Nat.leb n 13) || (Nat.leb 28 n && Nat.leb n 32))%bool.

Fixpoint lstrip (s : string) : string :=
  match s with
  | "" => ""
  | String c t => if is_space c then lstrip t else s
  end.

Fixpoint rev_string (acc s : string) : string :=
  match s with
  | "" => acc
  | String c t => rev_string (String c acc) t
  end.

Definition rstrip (s : string) : string :=
  rev_string "" (lstrip (rev_string "" s)).

Definition strip (s : string) : string := rstrip (lstrip s).

Definition startswith (p s : string) : bool := String.prefix p s.

(** [s[:n]]. *)
Definition take (n : nat) (s : string) : string := String.substring 0 n s.

(** [c in s]. *)
Fixpoint has_char (c : ascii) (s : string) : bool :=
  match s with
  | "" => false
  | String d t => (Ascii.eqb d c || has_char c t)%bool
  end.

(** [str(n)] for an [int]. *)
Definition of_Z (z : Z) : string := NilZero.string_of_int (Z.to_int z).

(** [str(len(l))]. *)
Definition of_nat (n : nat) : string := of_Z (Z.of_nat n).

(** [str(b)] for a [bool]. *)
Definition of_bool (b : bool) : string := if b then "True" else "False".

Fixpoint zeros (n : nat) : string :=
  match n with
  | O => ""
  | S k => String "0"%char (zeros k)
  end.

(** Zero padding on the left to [width] characters, as [%02d] does. *)
Definition zfill (width : nat) (s : string) : string :=
  zeros (width - String.length s) ++ s.

End PyStr.

(** ** [datetime] values and [strftime('%Y-%m-%d %H:%M:%S')]

  A naive [datetime] is the number of microseconds since
  1970-01-01 00:00:00 of the local calendar; [timedelta(days=d)] is
  [d] days of 86400 seconds.  The range check of [datetime] (years 1 to
  9999) is outside the model. *)

Module DateTime.

Definition datetime := Z.

Definition us_per_second : Z := 1000000.
Definition us_per_day : Z := 86400 * us_per_second.

(** [t - timedelta(days=d)]. *)
Definition minus_days (t : datetime) (d : Z) : datetime := t - d * us_per_day.

(** Year, month and day of a day number counted from 1970-01-01
    (proleptic Gregorian calendar). *)
Definition civil_from_days (day : Z) : Z * Z * Z :=
  let z := day + 719468 in
  let era := z / 146097 in
  let doe := z - era * 146097 in
  let yoe := (doe - doe / 1460 + doe / 36524 - doe / 146096) / 365 in
  let doy := doe - (365 * yoe + yoe / 4 - yoe / 100) in
  let mp := (5 * doy + 2) / 153 in
  let d := doy - (153 * mp + 2) / 5 + 1 in
  let m := if mp <? 10 then mp + 3 else mp - 9 in
  let y := yoe + era * 400 in
  (if m <=? 2 then y + 1 else y, m, d).

Definition two (z : Z) : string := PyStr.zfill 2 (PyStr.of_Z z).

(** [t.strftime('%Y-%m-%d %H:%M:%S')]: the C library prints the year
    of [%Y] without padding and the other fields on two digits. *)
Definition strftime (t : datetime) : string :=
  let secs := t / us_per_second in
  let '(y, m, d) := civil_from_days (secs / 86400) in
  let sod := secs mod 86400 in
  PyStr.of_Z y ++ "-" ++ two m ++ "-" ++ two d ++ " " ++
  two (sod / 3600) ++ ":" ++ two ((sod / 60) mod 60) ++ ":" ++ two (sod mod 60).

End DateTime.

(** ** [uuid.UUID] values *)

Module UUID.

(** A UUID is its 128-bit integer. *)
Definition uuid := N.

(** [UUID(bytes=os.urandom(16), version=4)]: the variant and version
    bits are forced, the other 122 bits are the random ones. *)
Definition of_random (raw : N) : uuid :=
  let i := N.modulo raw (2 ^ 128) in
  let i := N.ldiff i (N.shiftl 49152 48) in
  let i := N.lor i (N.shiftl 32768 48) in
  let i := N.ldiff i (N.shiftl 61440 64) in
  N.lor i (N.shiftl 4 76).

Definition hex_digit (d : N) : ascii :=
  if (d <? 10)%N then ascii_of_N (48 + d) else ascii_of_N (87 + d).

(** The [n] lowest hexadecimal digits of [x], most significant first. *)
Fixpoint hex_digits (n : nat) (x : N) : string :=
  match n with
  | O => ""
  | S k => hex_digits k (N.div x 16) ++ String (hex_digit (N.modulo x 16)) ""
  end.

(** [u.hex]: 32 lowercase hexadecimal digits. *)
Definition hex (u : uuid) : string := hex_digits 32 u.

(** [str(u)]: the 8-4-4-4-12 form. *)
Definition to_str (u : uuid) : string :=
  let h := hex u in
  String.substring 0 8 h ++ "-" ++ String.substring 8 4 h ++ "-" ++
  String.substring 12 4 h ++ "-" ++ String.substring 16 4 h ++ "-" ++
  String.substring 20 12 h.

End UUID.

(** ** The world the scripts run in *)

Module Env.

(** The successive results of one external call. *)
Record Tape (A : Type) : Type := mkTape { src : nat -> A; pos : nat }.
Arguments mkTape {A} src pos.
Arguments src {A} t n.
Arguments pos {A} t.

Definition peek {A} (t : Tape A) : A := src t (pos t).
Definition advance {A} (t : Tape A) : Tape A := mkTape (src t) (S (pos t)).

(** A [Faker] instance: what its providers return call after call, and
    the values [fake.unique] has handed out for [email]. *)
Record Faker : Type := mkFaker {
  user_names : Tape string;
  emails : Tape string;
  names : Tape string;
  paragraph_texts : Tape string;
  sentences : Tape (Z -> string);
  date_times : Tape DateTime.datetime;
  unique_seen : list string
}.

Record World : Type := mkWorld {
  entropy : Tape N;                  (* os.urandom, behind uuid4 *)
  rng : Tape nat;                    (* random: integer draws *)
  rng_unit : Tape float;             (* random: random() in [0, 1) *)
  clock : Tape DateTime.datetime;    (* datetime.now() *)
  faker_unseeded : Faker;            (* Faker() *)
  faker_seeded : Z -> Faker;         (* Faker() after seed_instance(seed) *)
  fake : Faker;                      (* self.fake *)
  stdout : string;
  stderr : string;
  files : list (string * string)     (* path, text written *)
}.

Definition set_entropy (t : Tape N) (w : World) : World :=
  mkWorld t (rng w) (rng_unit w) (clock w) (faker_unseeded w)
          (faker_seeded w) (fake w) (stdout w) (stderr w) (files w).
Definition set_rng (t : Tape nat) (w : World) : World :=
  mkWorld (entropy w) t (rng_unit w) (clock w) (faker_unseeded w)
          (faker_seeded w) (fake w) (stdout w) (stderr w) (files w).
Definition set_rng_unit (t : Tape float) (w : World) : World :=
  mkWorld (entropy w) (rng w) t (clock w) (faker_unseeded w)
          (faker_seeded w) (fake w) (stdout w) (stderr w) (files w).
Definition set_clock (t : Tape DateTime.datetime) (w : World) : World :=
  mkWorld (entropy w) (rng w) (rng_unit w) t (faker_unseeded w)
          (faker_seeded w) (fake w) (stdout w) (stderr w) (files w).
Definition set_fake (f : Faker) (w : World) : World :=
  mkWorld (entropy w) (rng w) (rng_unit w) (clock w) (faker_unseeded w)
          (faker_seeded w) f (stdout w) (stderr w) (files w).
Definition set_stdout (s : string) (w : World) : World :=
  mkWorld (entropy w) (rng w) (rng_unit w) (clock w) (faker_unseeded w)
          (faker_seeded w) (fake w) s (stderr w) (files w).
Definition set_stderr (s : string) (w : World) : World :=
  mkWorld (entropy w) (rng w) (rng_unit w) (clock w) (faker_unseeded w)
          (faker_seeded w) (fake w) (stdout w) s (files w).
Definition set_files (l : list (string * string)) (w : World) : World :=
  mkWorld (entropy w) (rng w) (rng_unit w) (clock w) (faker_unseeded w)
          (faker_seeded w) (fake w) (stdout w) (stderr w) l.

Definition set_user_names (t : Tape string) (f : Faker) : Faker :=
  mkFaker t (emails f) (names f) (paragraph_texts f) (sentences f)
          (date_times f) (unique_seen f).
Definition set_emails (t : Tape string) (f : Faker) : Faker :=
  mkFaker (user_names f) t (names f) (paragraph_texts f) (sentences f)
          (date_times f) (unique_seen f).
Definition set_names (t : Tape string) (f : Faker) : Faker :=
  mkFaker (user_names f) (emails f) t (paragraph_texts f) (sentences f)
          (date_times f) (unique_seen f).
Definition set_paragraph_texts (t : Tape string) (f : Faker) : Faker :=
  mkFaker (user_names f) (emails f) (names f) t (sentences f)
          (date_times f) (unique_seen f).
Definition set_sentences (t : Tape (Z -> string)) (f : Faker) : Faker :=
  mkFaker (user_names f) (emails f) (names f) (paragraph_texts f) t
          (date_times f) (unique_seen f).
Definition set_date_times (t : Tape DateTime.datetime) (f : Faker) : Faker :=
  mkFaker (user_names f) (emails f) (names f) (paragraph_texts f)
          (sentences f) t (unique_seen f).
Definition set_unique_seen (l : list string) (f : Faker) : Faker :=
  mkFaker (user_names f) (emails f) (names f) (paragraph_texts f)
          (sentences f) (date_times f) l.

(** Exceptions that leave the modelled code. *)
Inductive exn : Type :=
| IndexError            (* choice on an empty sequence *)
| ValueError            (* randint on an empty range *)
| UniquenessException   (* fake.unique found no fresh value *)
| SystemExit (code : Z) (* sys.exit(code) *)
| OutOfFuel.            (* the model's loop bound; see username_loop *)

Inductive result (A : Type) : Type :=
| Ok (a : A)
| Raise (e : exn).
Arguments Ok {A} a.
Arguments Raise {A} e.

(** A computation reads and updates the world and returns or raises;
    what it did to the world before raising stays done. *)
Definition M (A : Type) : Type := World -> result A * World.

Definition ret {A} (a : A) : M A := fun w => (Ok a, w).
Definition raise {A} (e : exn) : M A := fun w => (Raise e, w).
Definition bind {A B} (m : M A) (k : A -> M B) : M B :=
  fun w => match m w with
           | (Ok a, w') => k a w'
           | (Raise e, w') => (Raise e, w')
           end.

End Env.

Import Env.

Declare Scope py_scope.
Delimit Scope py_scope with py.
Notation "x <- m ;; k" := (bind m (fun x => k))
(at level 61, m at next level, right associativity) : py_scope.
Notation "m ;;; k" := (bind m (fun _ => k))
(at level 61, right associativity) : py_scope.
Local Open Scope py_scope.

(** ** The library calls of the scripts *)

Module Lib.

(** [uuid.uuid4()]. *)
Definition uuid4 : M UUID.uuid :=
  fun w => (Ok (UUID.of_random (peek (entropy w))),
            set_entropy (advance (entropy w)) w).

(** [random._randbelow(n)] for [n > 0]: an integer in [0, n). *)
Definition randbelow (n : nat) : M nat :=
  fun w => (Ok (Nat.modulo (peek (rng w)) n), set_rng (advance (rng w)) w).

(** [random.choice(seq)]. *)
Definition choice {A} (seq : list A) : M A :=
  match seq with
  | [] => raise IndexError
  | x :: _ => i <- randbelow (List.length seq) ;; ret (nth i seq x)
  end.

(** [random.randint(a, b)]: an integer in [a, b]. *)
Definition randint (a b : Z) : M Z :=
  if b <? a then raise ValueError
  else i <- randbelow (Z.to_nat (b - a + 1)) ;; ret (a + Z.of_nat i).

(** [random.random()]. *)
Definition random : M float :=
  fun w => (Ok (peek (rng_unit w)), set_rng_unit (advance (rng_unit w)) w).

(** [datetime.now()]. *)
Definition now : M DateTime.datetime :=
  fun w => (Ok (peek (clock w)), set_clock (advance (clock w)) w).

(** [self.fake.user_name()]. *)
Definition fake_user_name : M string :=
  fun w => let f := fake w in
           (Ok (peek (user_names f)),
            set_fake (set_user_names (advance (user_names f)) f) w).

(** [self.fake.email()]. *)
Definition fake_email : M string :=
  fun w => let f := fake w in
           (Ok (peek (emails f)),
            set_fake (set_emails (advance (emails f)) f) w).

(** [self.fake.name()]. *)
Definition fake_name : M string :=
  fun w => let f := fake w in
           (Ok (peek (names f)),
            set_fake (set_names (advance (names f)) f) w).

Definition fake_paragraph : M string :=
  fun w => let f := fake w in
           (Ok (peek (paragraph_texts f)),
            set_fake (set_paragraph_texts (advance (paragraph_texts f)) f) w).

Fixpoint fake_paragraphs_n (n : nat) : M (list string) :=
  match n with
  | O => ret []
  | S k => p <- fake_paragraph ;; ps <- fake_paragraphs_n k ;; ret (p :: ps)
  end.

(** [self.fake.paragraphs(nb=nb)]: a list of [nb] paragraphs. *)
Definition fake_paragraphs (nb : Z) : M (list string) :=
  fake_paragraphs_n (Z.to_nat nb).

(** [self.fake.sentence(nb_words=nb_words)]. *)
Definition fake_sentence (nb_words : Z) : M string :=
  fun w => let f := fake w in
           (Ok (peek (sentences f) nb_words),
            set_fake (set_sentences (advance (sentences f)) f) w).

(** [self.fake.date_time_between(start_date='-2y', end_date='now')]. *)
Definition fake_date_time_between : M DateTime.datetime :=
  fun w => let f := fake w in
           (Ok (peek (date_times f)),
            set_fake (set_date_times (advance (date_times f)) f) w).

Definition mem (s : string) (l : list string) : bool :=
  if in_dec string_dec s l then true else false.

(** [set.add]. *)
Definition set_add (s : string) (l : list string) : list string :=
  if mem s l then l else l ++ [s].

Definition remember_email (e : string) : M unit :=
  fun w => let f := fake w in
           (Ok tt, set_fake (set_unique_seen (set_add e (unique_seen f)) f) w).

Definition email_seen (e : string) : M bool :=
  fun w => (Ok (mem e (unique_seen (fake w))), w).

(** Faker's [UniqueProxy]: call the provider again while the value was
    handed out before; give up after [unique_attempts] rounds. *)
Definition unique_attempts : nat := 1000.

Fixpoint unique_email_loop (rounds : nat) (retval : option string) : M string :=
  match rounds with
  | O => raise UniquenessException
  | S k =>
      let again := e <- fake_email ;; unique_email_loop k (Some e) in
      match retval with
      | None => again
      | Some e =>
          dup <- email_seen e ;;
          if dup then again else remember_email e ;;; ret e
      end
  end.

(** [self.fake.unique.email()]. *)
Definition fake_unique_email : M string :=
  unique_email_loop unique_attempts None.

(** [print(s, file=sys.stderr)]. *)
Definition print_err (s : string) : M unit :=
  fun w => (Ok tt, set_stderr (stderr w ++ s ++ PyStr.LF) w).

(** [print(s)]. *)
Definition print (s : string) : M unit :=
  fun w => (Ok tt, set_stdout (stdout w ++ s ++ PyStr.LF) w).

(** [with open(path, 'w') as f: f.write(text)]. *)
Definition write_file (path text : string) : M unit :=
  fun w => (Ok tt, set_files ((path, text) :: files w) w).

(** [sys.exit(code)]. *)
Definition sys_exit {A} (code : Z) : M A := raise (SystemExit code).

End Lib.

Import Lib.

(** ** [generate_test_data.py]: class [BlogDataGenerator] *)

Module BlogDataGenerator.

(** The tuples the generator returns. *)
Record Author : Type := mkAuthor {
  au_uuid : string;
  au_username : string;
  au_email : string;
  au_created_at : string
}.

Record Article : Type := mkArticle {
  ar_uuid : string;
  ar_title : string;
  ar_content : string;
  ar_publish_date : string;
  ar_is_published : string;
  ar_author_id : string;
  ar_created_at : string
}.

Record Comment : Type := mkComment {
  co_uuid : string;
  co_article_id : string;
  co_author_name : string;
  co_author_email : string;
  co_content : string;
  co_comment_date : string;
  co_created_at : string
}.

(** [__init__(self, seed)]: [self.fake = Faker()], seeded when a seed is
    given. *)
Definition init (seed : option Z) : M unit :=
  fun w => match seed with
           | None => (Ok tt, set_fake (faker_unseeded w) w)
           | Some s => (Ok tt, set_fake (faker_seeded w s) w)
           end.

(** *** [generate_authors] *)

(** The [while username is None or username in usernames] loop.  Each
    round either leaves the loop or adds one to [attempts], and a round
    with [attempts > 100] leaves it, so 102 rounds of [fuel] are never
    used up (lemma [total_username_loop]). *)
Fixpoint username_loop (fuel : nat) (usernames : list string)
    (username : option string) (attempts : Z) {struct fuel} : M string :=
  let again : M string :=
    if attempts >? 100 then
      u <- uuid4 ;;
      ret ("user_" ++ PyStr.take 8 (UUID.hex u))
    else
      match fuel with
      | O => raise OutOfFuel
      | S fuel' =>
          n <- fake_user_name ;;
          username_loop fuel' usernames
            (Some (PyStr.replace " " "_" (PyStr.lower n))) (attempts + 1)
      end in
  match username with
  | None => again
  | Some u => if mem u usernames then again else ret u
  end.

Definition username_fuel : nat := 102.

(** The body of [for _ in range(count)], [n] rounds of it. *)
Fixpoint authors_loop (n : nat) (usernames : list string)
    (authors : list Author) : M (list Author) :=
  match n with
  | O => ret authors
  | S k =>
      username <- username_loop username_fuel usernames None 0 ;;
      let usernames := set_add username usernames in
      email <- fake_unique_email ;;
      u <- uuid4 ;;
      let uuid_str := UUID.to_str u in
      created_at <- fake_date_time_between ;;
      let created_at_str := DateTime.strftime created_at in
      authors_loop k usernames
        (authors ++ [mkAuthor uuid_str username email created_at_str])
  end.

Definition generate_authors (count : Z) : M (list Author) :=
  authors_loop (Z.to_nat count) [] [].

(** *** [generate_articles] *)

Definition topics : list string :=
  [ "Technology"; "Programming"; "Web Development"; "Data Science";
    "Machine Learning"; "DevOps"; "Cloud Computing"; "Security";
    "Mobile Development"; "Database Design"; "API Development";
    "Frontend"; "Backend"; "Full Stack"; "Software Architecture";
    "Testing"; "Agile"; "Open Source"; "Career"; "Tutorial" ].

Definition title_patterns (topic : string) : list string :=
  [ "Getting Started with " ++ topic;
    "Advanced " ++ topic ++ " Techniques";
    topic ++ " Best Practices";
    "Introduction to " ++ topic;
    topic ++ " Tutorial: A Complete Guide";
    "Understanding " ++ topic;
    topic ++ " Tips and Tricks";
    "Mastering " ++ topic;
    topic ++ " Fundamentals";
    "Exploring " ++ topic ].

Definition quoted (s : string) : string := "'" ++ s ++ "'".

(** The local variables of one round of the article loop, as they stand
    when the tuple is appended. *)
Record ArticleRound : Type := mkArticleRound {
  r_uuid_str : string;
  r_author_id : string;
  r_title : string;
  r_content : string;
  r_is_published : bool;
  r_days_ago : Z;
  r_created_now : DateTime.datetime;   (* the datetime.now() of created_at *)
  r_created_at : DateTime.datetime;
  (* publish_days_ago, the datetime.now() of publish_date, publish_date *)
  r_publish : option (Z * DateTime.datetime * DateTime.datetime);
  r_publish_date_str : string;
  r_created_at_str : string
}.

Definition article_round (author_ids : list string) (published_ratio : float)
    : M ArticleRound :=
  u <- uuid4 ;;
  let uuid_str := UUID.to_str u in
  author_id <- choice author_ids ;;
  topic <- choice topics ;;
  title <- choice (title_patterns topic) ;;
  num_paragraphs <- randint 3 8 ;;
  paragraphs <- fake_paragraphs num_paragraphs ;;
  let content := PyStr.join (PyStr.LF ++ PyStr.LF) paragraphs in
  let content := PyStr.replace PyStr.quote "''" content in
  x <- random ;;
  let is_published := PrimFloat.ltb x published_ratio in
  days_ago <- randint 0 365 ;;
  created_now <- now ;;
  let created_at := DateTime.minus_days created_now days_ago in
  publish <-
    (if is_published then
       publish_days_ago <- randint 0 days_ago ;;
       publish_now <- now ;;
       let publish_date := DateTime.minus_days publish_now publish_days_ago in
       ret (Some (publish_days_ago, publish_now, publish_date),
            quoted (DateTime.strftime publish_date))
     else
       ret (None, "NULL")) ;;
  let created_at_str := quoted (DateTime.strftime created_at) in
  ret (mkArticleRound uuid_str author_id title content is_published days_ago
         created_now created_at (fst publish) (snd publish) created_at_str).

(** The tuple appended to [articles]. *)
Definition article_tuple (r : ArticleRound) : Article :=
  mkArticle (r_uuid_str r)
            (PyStr.replace PyStr.quote "''" (r_title r))
            (r_content r)
            (r_publish_date_str r)
            (PyStr.upper (PyStr.of_bool (r_is_published r)))
            (r_author_id r)
            (r_created_at_str r).

(** The rounds of [for _ in range(count)], with their local variables. *)
Fixpoint articles_loop (n : nat) (author_ids : list string)
    (published_ratio : float) (rounds : list ArticleRound)
    : M (list ArticleRound) :=
  match n with
  | O => ret rounds
  | S k =>
      r <- article_round author_ids published_ratio ;;
      articles_loop k author_ids published_ratio (rounds ++ [r])
  end.

Definition generate_articles_rounds (count : Z) (author_ids : list string)
    (published_ratio : float) : M (list ArticleRound) :=
  articles_loop (Z.to_nat count) author_ids published_ratio [].

Definition generate_articles (count : Z) (author_ids : list string)
    (published_ratio : float) : M (list Article) :=
  rounds <- generate_articles_rounds count author_ids published_ratio ;;
  ret (map article_tuple rounds).

(** *** [generate_comments] *)

Definition comment_templates : list string :=
  [ "Great article! Very helpful.";
    "Thanks for sharing this.";
    "I found this really useful.";
    "Excellent explanation!";
    "This helped me understand the concept better.";
    "Nice write-up!";
    "I have a question about...";
    "Could you elaborate on...?";
    "I disagree with...";
    "This is exactly what I was looking for!";
    "Well written and informative.";
    "I'll definitely try this approach.";
    "Thanks for the detailed explanation.";
    "This cleared up my confusion.";
    "Great examples in this article." ].

(** The float [0.3]. *)
Definition template_ratio : float := 0x1.3333333333333p-2%float.

Definition comment_round (article_ids : list string) : M Comment :=
  u <- uuid4 ;;
  let uuid_str := UUID.to_str u in
  article_id <- choice article_ids ;;
  author_name <- fake_name ;;
  author_email <- fake_email ;;
  x <- random ;;
  content <-
    (if PrimFloat.ltb x template_ratio then choice comment_templates
     else nb_words <- randint 5 20 ;; fake_sentence nb_words) ;;
  let content := PyStr.replace PyStr.quote "''" content in
  days_ago <- randint 0 180 ;;
  comment_now <- now ;;
  let comment_date := DateTime.minus_days comment_now days_ago in
  let created_at := comment_date in
  let comment_date_str := quoted (DateTime.strftime comment_date) in
  let created_at_str := quoted (DateTime.strftime created_at) in
  ret (mkComment uuid_str article_id
         (PyStr.replace PyStr.quote "''" author_name)
         author_email content comment_date_str created_at_str).

Fixpoint comments_loop (n : nat) (article_ids : list string)
    (comments : list Comment) : M (list Comment) :=
  match n with
  | O => ret comments
  | S k =>
      c <- comment_round article_ids ;;
      comments_loop k article_ids (comments ++ [c])
  end.

Definition generate_comments (count : Z) (article_ids : list string)
    : M (list Comment) :=
  comments_loop (Z.to_nat count) article_ids [].

(** *** [generate_sql] *)

Definition author_value (a : Author) : string :=
  "('" ++ au_uuid a ++ "', '" ++ au_username a ++ "', '" ++ au_email a ++
  "', '" ++ au_created_at a ++ "')".

Definition article_value (a : Article) : string :=
  "('" ++ ar_uuid a ++ "', '" ++ ar_title a ++ "', '" ++ ar_content a ++
  "', " ++ ar_publish_date a ++ ", " ++ ar_is_published a ++ ", '" ++
  ar_author_id a ++ "', " ++ ar_created_at a ++ ", " ++ ar_created_at a ++ ")".

Definition comment_value (c : Comment) : string :=
  "('" ++ co_uuid c ++ "', '" ++ co_article_id c ++ "', '" ++
  co_author_name c ++ "', '" ++ co_author_email c ++ "', '" ++
  co_content c ++ "', " ++ co_comment_date c ++ ", " ++ co_created_at c ++ ")".

Definition comma_newline : string := "," ++ PyStr.LF.

(** The list [sql_lines], given the reading of the clock for the header. *)
Definition sql_lines (generated_at : DateTime.datetime)
    (authors : list Author) (articles : list Article)
    (comments : list Comment) : list string :=
  [ "-- Generated SQL INSERT statements";
    "-- Generated at: " ++ DateTime.strftime generated_at;
    "-- Authors: " ++ PyStr.of_nat (List.length authors) ++
      ", Articles: " ++ PyStr.of_nat (List.length articles) ++
      ", Comments: " ++ PyStr.of_nat (List.length comments);
    "";
    "-- Insert Authors";
    "INSERT INTO Authors (id, username, email, created_at) VALUES";
    PyStr.join comma_newline (map author_value authors) ++ ";";
    "";
    "-- Insert Articles";
    "INSERT INTO Articles (id, title, content, publish_date, is_published, author_id, created_at, updated_at) VALUES";
    PyStr.join comma_newline (map article_value articles) ++ ";";
    "";
    "-- Insert Comments";
    "INSERT INTO Comments (id, article_id, author_name, author_email, content, comment_date, created_at) VALUES";
    PyStr.join comma_newline (map comment_value comments) ++ ";";
    "";
    "-- Summary";
    "SELECT";
    "    'Data Generation Complete' AS message,";
    "    " ++ PyStr.of_nat (List.length authors) ++ " AS total_authors,";
    "    " ++ PyStr.of_nat (List.length articles) ++ " AS total_articles,";
    "    " ++ PyStr.of_nat (List.length comments) ++ " AS total_comments;" ].

Definition generate_sql (authors : list Author) (articles : list Article)
    (comments : list Comment) : M string :=
  generated_at <- now ;;
  ret (PyStr.join PyStr.LF (sql_lines generated_at authors articles comments)).

End BlogDataGenerator.

(** ** [generate_test_data.py]: [main] *)

Module Main.

Import BlogDataGenerator.

(** The parsed command line. *)
Record Args : Type := mkArgs {
  authors : Z;
  articles : Z;
  comments : Z;
  output : option string;
  seed : option Z;
  published_ratio : float
}.

(** [0.0 <= r <= 1.0]. *)
Definition ratio_in_range (r : float) : bool :=
  (PrimFloat.leb 0%float r && PrimFloat.leb r 1%float)%bool.

(** [if cond: print(msg, file=sys.stderr); sys.exit(1)]. *)
Definition reject_if (cond : bool) (msg : string) : M unit :=
  if cond then print_err msg ;;; sys_exit 1 else ret tt.

Definition validate (args : Args) : M unit :=
  reject_if (authors args <? 1) "Error: --authors must be at least 1" ;;;
  reject_if (articles args <? 1) "Error: --articles must be at least 1" ;;;
  reject_if (comments args <? 1) "Error: --comments must be at least 1" ;;;
  reject_if (negb (ratio_in_range (published_ratio args)))
    "Error: --published-ratio must be between 0.0 and 1.0".

(** The generation steps of [main], up to the SQL text. *)
Definition pipeline (args : Args) : M string :=
  init (seed args) ;;;
  print_err "Generating authors..." ;;;
  authors <- generate_authors (Main.authors args) ;;
  print_err "Generating articles..." ;;;
  let author_ids := map au_uuid authors in
  articles <- generate_articles (Main.articles args) author_ids
                (published_ratio args) ;;
  print_err "Generating comments..." ;;;
  let article_ids := map ar_uuid articles in
  comments <- generate_comments (Main.comments args) article_ids ;;
  print_err "Generating SQL..." ;;;
  generate_sql authors articles comments.

Definition main (args : Args) : M unit :=
  validate args ;;;
  print_err ("Generating data: " ++ PyStr.of_Z (authors args) ++ " authors, " ++
             PyStr.of_Z (articles args) ++ " articles, " ++
             PyStr.of_Z (comments args) ++ " comments...") ;;;
  sql <- pipeline args ;;
  match output args with
  | Some (String c p) =>
      write_file (String c p) sql ;;;
      print_err ("SQL written to: " ++ String c p)
  | _ => print sql
  end.

End Main.

(** ** [verify_relationships.py] *)

Module Verify.

(** *** The patterns, as matchers anchored at the start of a text *)

(** [[a-f0-9-]]. *)
Definition is_uuid_char (c : ascii) : bool :=
  let n := nat_of_ascii c in
  ((Nat.leb 97 n && Nat.leb n 102) || (Nat.leb 48 n && Nat.leb n 57) ||
   Nat.eqb n 45)%bool.

(** A literal: the rest of the text after it. *)
Fixpoint lit (p s : string) : option string :=
  match p with
  | "" => Some s
  | String a p' =>
      match s with
      | "" => None
      | String b s' => if Ascii.eqb a b then lit p' s' else None
      end
  end.

(** [([a-f0-9-]{n})]: the group and the rest. *)
Fixpoint uuid_chars (n : nat) (s : string) : option (string * string) :=
  match n with
  | O => Some ("", s)
  | S k =>
      match s with
      | "" => None
      | String c t =>
          if is_uuid_char c then
            match uuid_chars k t with
            | Some (g, rest) => Some (String c g, rest)
            | None => None
            end
          else None
      end
  end.

(** ['([a-f0-9-]{36})']. *)
Definition quoted_uuid_at (s : string) : option (string * string) :=
  match lit "'" s with
  | Some s1 =>
      match uuid_chars 36 s1 with
      | Some (g, s2) =>
          match lit "'" s2 with
          | Some s3 => Some (g, s3)
          | None => None
          end
      | None => None
      end
  | None => None
  end.

(** [\('([a-f0-9-]{36})']. *)
Definition paren_uuid_at (s : string) : option (string * string) :=
  match lit "(" s with
  | Some s1 => quoted_uuid_at s1
  | None => None
  end.

(** [(.*?)c]: the text before the first [c]. *)
Fixpoint until_char (c : ascii) (s : string) : option string :=
  match s with
  | "" => None
  | String d t =>
      if Ascii.eqb d c then Some ""
      else match until_char c t with
           | Some g => Some (String d g)
           | None => None
           end
  end.

(** [VALUES\s+(.*?);]: [\s+] takes all the white space there is, and the
    group stops at the first semicolon. *)
Definition values_at (s : string) : option string :=
  match lit "VALUES" s with
  | Some (String c t) =>
      if PyStr.is_space c then until_char ";" (PyStr.lstrip t) else None
  | _ => None
  end.

(** [re.search]: the match at the leftmost position that has one. *)
Fixpoint search {A} (at_start : string -> option A) (s : string) : option A :=
  match at_start s with
  | Some r => Some r
  | None =>
      match s with
      | "" => None
      | String _ t => search at_start t
      end
  end.

(** [INSERT INTO <table>.*?VALUES\s+(.*?);] with [re.DOTALL]. *)
Definition insert_at (table : string) (s : string) : option string :=
  match lit ("INSERT INTO " ++ table) s with
  | Some rest => search values_at rest
  | None => None
  end.

(** [re.search(pattern, content, re.DOTALL)] followed by [group(1)]. *)
Definition insert_values (table content : string) : option string :=
  search (insert_at table) content.

(** [re.finditer]: the groups of the matches from left to right, each
    search resuming where the previous match ended.  [skip] is the number
    of characters still covered by the previous match. *)
Fixpoint finditer (at_start : string -> option (string * string))
    (skip : nat) (s : string) : list string :=
  match s with
  | "" => []
  | String _ t =>
      match skip with
      | S k => finditer at_start k t
      | O =>
          match at_start s with
          | Some (g, rest) =>
              g :: finditer at_start
                     (String.length s - String.length rest - 1) t
          | None => finditer at_start 0 t
          end
      end
  end.

(** *** [extract_uuids_from_sql] *)

Definition add_all (l : list string) : list string :=
  fold_left (fun ids g => set_add g ids) l [].

(** [author_ids] after the first block. *)
Definition author_ids_of (content : string) : list string :=
  match insert_values "Authors" content with
  | Some author_values => add_all (finditer paren_uuid_at 0 author_values)
  | None => []
  end.

(** One round of [for line in article_values.split('\n')], on the pair
    [(article_ids, article_author_refs)]. *)
Definition article_line (st : list string * list (string * string))
    (line : string) : list string * list (string * string) :=
  let '(article_ids, article_author_refs) := st in
  if PyStr.startswith "(" (PyStr.strip line) then
    match search paren_uuid_at line with
    | Some (article_id, _) =>
        let article_ids := set_add article_id article_ids in
        let parts := PyStr.split "," line in
        if Nat.leb 6 (List.length parts) then
          let author_ref := PyStr.strip (nth 5 parts "") in
          match search quoted_uuid_at author_ref with
          | Some (author_uuid, _) =>
              (article_ids, (article_author_refs ++ [(article_id, author_uuid)])%list)
          | None => (article_ids, article_author_refs)
          end
        else (article_ids, article_author_refs)
    | None => st
    end
  else st.

(** [(article_ids, article_author_refs)] after the second block. *)
Definition articles_of (content : string)
    : list string * list (string * string) :=
  match insert_values "Articles" content with
  | Some article_values =>
      fold_left article_line (PyStr.split PyStr.newline article_values) ([], [])
  | None => ([], [])
  end.

(** One round of [for line in comment_values.split('\n')]. *)
Definition comment_line (comment_article_refs : list (string * string))
    (line : string) : list (string * string) :=
  if PyStr.startswith "(" (PyStr.strip line) then
    match search paren_uuid_at line with
    | Some (comment_id, _) =>
        let parts := PyStr.split "," line in
        if Nat.leb 2 (List.length parts) then
          let article_ref := PyStr.strip (nth 1 parts "") in
          match search quoted_uuid_at article_ref with
          | Some (article_uuid, _) =>
              (comment_article_refs ++ [(comment_id, article_uuid)])%list
          | None => comment_article_refs
          end
        else comment_article_refs
    | None => comment_article_refs
    end
  else comment_article_refs.

(** [comment_article_refs] after the third block. *)
Definition comments_of (content : string) : list (string * string) :=
  match insert_values "Comments" content with
  | Some comment_values =>
      fold_left comment_line (PyStr.split PyStr.newline comment_values) []
  | None => []
  end.

(** The references whose target is not in [ids]. *)
Definition invalid_refs (ids : list string) (refs : list (string * string))
    : list (string * string) :=
  filter (fun r => negb (mem (snd r) ids)) refs.

Definition not_found (what target : string) (r : string * string) : string :=
  "   " ++ what ++ " " ++ PyStr.take 8 (fst r) ++ "... references " ++
  target ++ " " ++ PyStr.take 8 (snd r) ++ "... (NOT FOUND)".

(** What the function prints and what it returns, for the text [content]
    of the file. *)
Definition extract_uuids_from_sql (content : string) : list string * bool :=
  let author_ids := author_ids_of content in
  let out := ["Found " ++ PyStr.of_nat (List.length author_ids) ++ " authors"] in
  let '(article_ids, article_author_refs) := articles_of content in
  let out :=
    app out ["Found " ++ PyStr.of_nat (List.length article_ids) ++ " articles"] in
  let invalid_article_refs := invalid_refs author_ids article_author_refs in
  match invalid_article_refs with
  | _ :: _ =>
      (app out
         ((PyStr.LF ++ "❌ ERROR: Found " ++
             PyStr.of_nat (List.length invalid_article_refs) ++
             " articles referencing non-existent authors!") ::
          map (not_found "Article" "author") (firstn 5 invalid_article_refs)),
       false)
  | [] =>
      let out :=
        app out
          ["✓ All " ++ PyStr.of_nat (List.length article_author_refs) ++
             " articles reference valid authors"] in
      let comment_article_refs := comments_of content in
      let out :=
        app out
          ["Found " ++ PyStr.of_nat (List.length comment_article_refs) ++
             " comments"] in
      let invalid_comment_refs := invalid_refs article_ids comment_article_refs in
      match invalid_comment_refs with
      | _ :: _ =>
          (app out
             ((PyStr.LF ++ "❌ ERROR: Found " ++
                 PyStr.of_nat (List.length invalid_comment_refs) ++
                 " comments referencing non-existent articles!") ::
              map (not_found "Comment" "article") (firstn 5 invalid_comment_refs)),
           false)
      | [] =>
          (app out
             ["✓ All " ++ PyStr.of_nat (List.length comment_article_refs) ++
                " comments reference valid articles";
              PyStr.LF ++ "✅ All referential integrity checks passed!"],
           true)
      end
  end.

End Verify.

(** * Vocabulary of the statements *)

Module Spec.

Import BlogDataGenerator.

(** What a computation returns or raises in a world. *)
Definition run {A} (m : M A) (w : World) : result A := fst (m w).

(** [m] returns in every world that satisfies [I], keeps [I], and its
    result satisfies [Q]. *)
Definition total (I : World -> Prop) {A} (m : M A) (Q : A -> Prop) : Prop :=
  forall w, I w -> exists a w', m w = (Ok a, w') /\ I w' /\ Q a.

(** [I] only looks at what [fake.unique.email] depends on. *)
Definition email_state_only (I : World -> Prop) : Prop :=
  forall w w',
    emails (fake w') = emails (fake w) ->
    unique_seen (fake w') = unique_seen (fake w) ->
    I w -> I w'.

(** [I] survives a call of [fake.email()]. *)
Definition email_draw_ok (I : World -> Prop) : Prop :=
  forall w, I w ->
    I (set_fake (set_emails (advance (emails (fake w))) (fake w)) w).

Definition anywhere : World -> Prop := fun _ => True.

(** The provider behind [fake.unique.email()] has a fresh address at
    every call to come: the addresses it still has to return are
    pairwise distinct and none was handed out before. *)
Definition email_supply (f : Faker) : Prop :=
  (forall i j, (pos (emails f) <= i)%nat -> (i < j)%nat ->
               src (emails f) i <> src (emails f) j) /\
  (forall i, (pos (emails f) <= i)%nat ->
             ~ In (src (emails f) i) (unique_seen f)).

Definition fresh_emails (w : World) : Prop := email_supply (fake w).

(** The clock never steps back. *)
Definition clock_monotone (w : World) : Prop :=
  forall i j, (i <= j)%nat -> src (clock w) i <= src (clock w) j.

(** A configuration that [main] must refuse. *)
Definition invalid (args : Main.Args) : Prop :=
  Main.authors args < 1 \/ Main.articles args < 1 \/ Main.comments args < 1 \/
  Main.ratio_in_range (Main.published_ratio args) = false.

(** The lines that open the second and the third block of the SQL text. *)
Definition articles_header : string :=
  "INSERT INTO Articles (id, title, content, publish_date, is_published, author_id, created_at, updated_at) VALUES".

Definition comments_header : string :=
  "INSERT INTO Comments (id, article_id, author_name, author_email, content, comment_date, created_at) VALUES".

(** [s] with every single quote doubled, as the generator does for the
    texts it escapes. *)
Definition sql_escape (s : string) : string := PyStr.replace PyStr.quote "''" s.

End Spec.

Import Spec.

(** * Concrete worlds

    Small worlds on which the model runs: a text provider with a few Latin
    words, a clock that advances by one microsecond per reading, and a
    source of entropy chosen by [salt]. *)

Module Demo.

Import BlogDataGenerator.

Definition base_user_name (n : nat) : string := "Reader " ++ PyStr.of_nat n.
Definition base_email (n : nat) : string :=
  "mail" ++ PyStr.of_nat n ++ "@example.com".
Definition base_name (n : nat) : string :=
  nth (n mod 3) ["Ada Quinn"; "Pat O'Neil"; "Lee Marsh"] "".
Definition base_paragraph (n : nat) : string :=
  "Lorem ipsum dolor sit amet " ++ PyStr.of_nat n ++ ". Sed ut perspiciatis unde.".
Definition base_sentence (n : nat) (nb_words : Z) : string :=
  "Quia dolor " ++ PyStr.of_Z nb_words ++ " sit.".
Definition base_date_time (n : nat) : DateTime.datetime :=
  1700000000000000 + Z.of_nat n * 86400000000.

(** The provider with its tapes read from position [start] on. *)
Definition faker_with (email : nat -> string) (start : nat) : Faker :=
  mkFaker (mkTape base_user_name start) (mkTape email start)
          (mkTape base_name start) (mkTape base_paragraph start)
          (mkTape base_sentence start) (mkTape base_date_time start) [].

Definition faker_from (start : nat) : Faker := faker_with base_email start.

Definition seeded (seed : Z) : Faker := faker_from (Z.to_nat seed).

Definition clock_reading (n : nat) : DateTime.datetime :=
  1762250000000000 + Z.of_nat n.

Definition random_bits (salt : N) (n : nat) : N :=
  ((N.of_nat n + salt) * 210306068529402873165736369884012333109)%N.

(** Two worlds built on different [salt]s differ in the entropy behind
    [uuid4] and in nothing else. *)
Definition world (salt : N) : World :=
  mkWorld (mkTape (random_bits salt) 0)
          (mkTape (fun n => (n * 7 + 3)%nat) 0)
          (mkTape (fun n => if Nat.even n then 0.25%float else 0.75%float) 0)
          (mkTape clock_reading 0)
          (faker_from 0) seeded (faker_from 0) "" "" [].

(** A world whose provider returns addresses with an apostrophe. *)
Definition apostrophe_email (n : nat) : string :=
  "pat.o'neil" ++ PyStr.of_nat n ++ "@example.com".

Definition apostrophe_world : World :=
  set_fake (faker_with apostrophe_email 0) (world 1).

(** A world whose provider has run out of user names: it keeps returning
    one that is taken; the random bits of its UUIDs agree on the leading
    32 of them. *)
Definition crowded_faker : Faker :=
  mkFaker (mkTape (fun _ => "Alex") 0) (mkTape base_email 0)
          (mkTape base_name 0) (mkTape base_paragraph 0)
          (mkTape base_sentence 0) (mkTape base_date_time 0) [].

Definition crowded_world : World :=
  mkWorld (mkTape (fun n => N.of_nat n) 0)
          (mkTape (fun n => (n * 7 + 3)%nat) 0)
          (mkTape (fun n => 0.25%float) 0)
          (mkTape clock_reading 0)
          crowded_faker (fun _ => crowded_faker) crowded_faker "" "" [].




(** [--authors 3 --articles 5 --comments 10 --seed 42 --published-ratio 1.0]. *)
Definition scenario : Main.Args :=
  Main.mkArgs 3 5 10 None (Some 42) 1%float.

(** The SQL text [main] prints for [scenario] in [world salt]. *)
Definition scenario_sql (salt : N) : string :=
  stdout (snd (Main.main scenario (world salt))).

Definition pool : list string :=
  ["9e3779b9-7f4a-4c15-b39c-c0605cedc835"; "3c6ef372-fe94-482b-a739-80c0b9db906a"].

Definition ok_or {A} (d : A) (r : result A) : A :=
  match r with
  | Ok a => a
  | Raise _ => d
  end.

Definition some_articles (ratio : float) : list Article :=
  ok_or [] (run (generate_articles 4 pool ratio) (world 1)).

Definition some_comments : list Comment :=
  ok_or [] (run (generate_comments 3 pool) apostrophe_world).

Definition some_authors : list Author :=
  ok_or [] (run (generate_authors 3) (world 1)).

(** [--authors 0]. *)
Definition no_authors : Main.Args :=
  Main.mkArgs 0 5 10 None None 0x1.6666666666666p-1%float.

Definition crowded_authors : list Author :=
  ok_or [] (run (generate_authors 3) crowded_world).


End Demo.

Import BlogDataGenerator.

(** * Further vocabulary *)

Module More.

(** A fallback user name: [user_] and the first eight hexadecimal digits
    of a UUID. *)
Definition is_fallback (s : string) : Prop :=
  exists u : UUID.uuid, s = "user_" ++ PyStr.take 8 (UUID.hex u).

(** In a list of names, a name that repeats an earlier one is a fallback
    name. *)
Definition repeats_are_fallback (names : list string) : Prop :=
  forall before x after,
    names = (before ++ x :: after)%list -> In x before -> is_fallback x.

(** [random.random()] returns a float in [0, 1). *)
Definition unit_interval (w : World) : Prop :=
  forall i, PrimFloat.leb 0%float (src (rng_unit w) i) = true /\
            PrimFloat.ltb (src (rng_unit w) i) 1%float = true.

(** Every single quote of [s] is one of a pair: the text can stand between
    the quotes of an SQL string literal. *)
Fixpoint quotes_paired (s : string) : bool :=
  match s with
  | "" => true
  | String c t =>
      if Ascii.eqb c PyStr.quote then
        match t with
        | String d t' => if Ascii.eqb d PyStr.quote then quotes_paired t' else false
        | "" => false
        end
      else quotes_paired t
  end.

(** What a run has written: standard output, standard error, files. *)
Definition output (w : World) : string * string * list (string * string) :=
  (stdout w, stderr w, files w).

(** [m] writes nothing, whether it returns or raises. *)
Definition silent {A} (m : M A) : Prop :=
  forall w r w', m w = (r, w') -> output w' = output w.



(** A text of 36 characters among [a-f0-9-]. *)
Fixpoint all_uuid_chars (s : string) : bool :=
  match s with
  | "" => true
  | String c t => (Verify.is_uuid_char c && all_uuid_chars t)%bool
  end.

Definition uuid_shaped (s : string) : Prop :=
  String.length s = 36%nat /\ all_uuid_chars s = true.

End More.

Import More.

(** * The loader: [infra/postgres/populate_db.py]

  Class [DatabasePopulator] and the direct-connection method of [main].
  What the loader reads from outside the program (the file system, the
  database server behind [psycopg2]) is part of the [Host] it runs on:
  the file system as a function from a path to what is found there, the
  server's answers as tapes.  Text is modelled as in the generator, one
  [ascii] per character; sizes and slices count characters. *)

Module Populate.

(** ** String operations *)

(** [needle in hay]. *)
Fixpoint contains (needle hay : string) : bool :=
  if String.prefix needle hay then true
  else match hay with
       | "" => false
       | String _ t => contains needle t
       end.

(** [s.endswith(suffix)]. *)
Fixpoint endswith (suffix s : string) : bool :=
  if String.eqb s suffix then true
  else match s with
       | "" => false
       | String _ t => endswith suffix t
       end.

Definition CR : ascii := "013"%char.

(** What [open(path, 'r')] makes of the line ends when it reads: [\r\n]
    and a lone [\r] become [\n]. *)
Fixpoint universal_newlines (s : string) : string :=
  match s with
  | "" => ""
  | String c t =>
      if Ascii.eqb c CR then
        String PyStr.newline
               match t with
               | "" => ""
               | String d t' =>
                   if Ascii.eqb d PyStr.newline then universal_newlines t'
                   else universal_newlines t
               end
      else String c (universal_newlines t)
  end.

(** [f"{size / 1024:.1f}"] for a size in bytes: the exact quotient
    rounded to the nearest tenth, a tie to the even one. *)
Definition kilobytes (size : nat) : string :=
  let n := Z.of_nat size * 10 in
  let q := n / 1024 in
  let r := n mod 1024 in
  let tenths :=
    if 512 <? r then q + 1
    else if r =? 512 then (if Z.even q then q else q + 1)
    else q in
  PyStr.of_Z (tenths / 10) ++ "." ++ PyStr.of_Z (tenths mod 10).

(** ** The host *)

(** What is found at a path. *)
Inductive entry : Type :=
| Missing                                 (* exists() is False *)
| Regular (content : string)              (* a file that can be read *)
| Unreadable (size : nat) (e : string).   (* it exists; reading it raises e *)

(** What [psycopg2.connect] does at one attempt. *)
Inductive connect_result : Type :=
| Connected
| OperationalError (e : string)
| ConnectError (e : string).   (* an exception that is no OperationalError *)

(** A [psycopg2.Error] as the messages print it. *)
Record pg_error : Type := mkPgError {
  pg_text : string;      (* str(e) *)
  pgcode : string;       (* e.pgcode *)
  pgerror : string       (* e.pgerror *)
}.

(** What [cursor.execute(statement)] does. *)
Inductive execute_result : Type :=
| Executed
| PgError (e : pg_error)
| OtherError (e : string).   (* an exception that is no psycopg2.Error *)

(** [self.conn]. *)
Inductive connection : Type :=
| NoConnection   (* None *)
| Open
| Closed.

Record Host : Type := mkHost {
  disk : string -> entry;
  connects : Tape connect_result;              (* psycopg2.connect, attempt after attempt *)
  executes : Tape (string -> execute_result);  (* cursor.execute, call after call *)
  fetches : Tape (Z + string);                 (* cursor.fetchone()[0], or the exception *)
  conn : connection;
  closes : nat;                                (* calls of conn.close() *)
  open_cursors : Z;                            (* cursors opened and not closed *)
  executed_sql : list string;                  (* the arguments of cursor.execute *)
  slept : list Z;                              (* the arguments of time.sleep *)
  err : string                                 (* the standard error *)
}.

Definition set_connects (x : Tape connect_result) (h : Host) : Host :=
  mkHost (disk h) x (executes h) (fetches h) (conn h) (closes h)
         (open_cursors h) (executed_sql h) (slept h) (err h).
Definition set_executes (x : Tape (string -> execute_result)) (h : Host) : Host :=
  mkHost (disk h) (connects h) x (fetches h) (conn h) (closes h)
         (open_cursors h) (executed_sql h) (slept h) (err h).
Definition set_fetches (x : Tape (Z + string)) (h : Host) : Host :=
  mkHost (disk h) (connects h) (executes h) x (conn h) (closes h)
         (open_cursors h) (executed_sql h) (slept h) (err h).
Definition set_conn (x : connection) (h : Host) : Host :=
  mkHost (disk h) (connects h) (executes h) (fetches h) x (closes h)
         (open_cursors h) (executed_sql h) (slept h) (err h).
Definition set_closes (x : nat) (h : Host) : Host :=
  mkHost (disk h) (connects h) (executes h) (fetches h) (conn h) x
         (open_cursors h) (executed_sql h) (slept h) (err h).
Definition set_open_cursors (x : Z) (h : Host) : Host :=
  mkHost (disk h) (connects h) (executes h) (fetches h) (conn h) (closes h)
         x (executed_sql h) (slept h) (err h).
Definition set_executed_sql (x : list string) (h : Host) : Host :=
  mkHost (disk h) (connects h) (executes h) (fetches h) (conn h) (closes h)
         (open_cursors h) x (slept h) (err h).
Definition set_slept (x : list Z) (h : Host) : Host :=
  mkHost (disk h) (connects h) (executes h) (fetches h) (conn h) (closes h)
         (open_cursors h) (executed_sql h) x (err h).
Definition set_err (x : string) (h : Host) : Host :=
  mkHost (disk h) (connects h) (executes h) (fetches h) (conn h) (closes h)
         (open_cursors h) (executed_sql h) (slept h) x.

(** What leaves a method: an [Exception] with its text [str(e)], or
    [SystemExit]. *)
Inductive failure : Type :=
| Exception (e : string)
| SystemExit (code : Z).

Inductive outcome (A : Type) : Type :=
| Returned (a : A)
| Failed (e : failure).
Arguments Returned {A} a.
Arguments Failed {A} e.

Definition H (A : Type) : Type := Host -> outcome A * Host.

Definition hret {A} (a : A) : H A := fun h => (Returned a, h).
Definition hfail {A} (e : failure) : H A := fun h => (Failed e, h).
Definition hbind {A B} (m : H A) (k : A -> H B) : H B :=
  fun h => match m h with
           | (Returned a, h') => k a h'
           | (Failed e, h') => (Failed e, h')
           end.

Declare Scope host_scope.
Delimit Scope host_scope with host.
Notation "x <- m ;; k" := (hbind m (fun x => k))
(at level 61, m at next level, right associativity) : host_scope.
Notation "m ;;; k" := (hbind m (fun _ => k))
(at level 61, right associativity) : host_scope.
Local Open Scope host_scope.

(** [try: m except Exception as e: handler(e)]: [SystemExit] passes. *)
Definition try_except {A} (m : H A) (handler : string -> H A) : H A :=
  fun h => match m h with
           | (Failed (Exception e), h') => handler e h'
           | r => r
           end.

(** [try: m finally: cleanup]. *)
Definition finally {A} (m : H A) (cleanup : H unit) : H A :=
  fun h => match m h with
           | (r, h') =>
               match cleanup h' with
               | (Returned _, h'') => (r, h'')
               | (Failed e, h'') => (Failed e, h'')
               end
           end.

(** [print(s, file=sys.stderr)]. *)
Definition print_err (s : string) : H unit :=
  fun h => (Returned tt, set_err (err h ++ s ++ PyStr.LF) h).

(** [sys.exit(code)]. *)
Definition sys_exit {A} (code : Z) : H A := hfail (SystemExit code).

(** [time.sleep(seconds)]. *)
Definition sleep (seconds : Z) : H unit :=
  fun h =>
    if seconds <? 0 then
      (Failed (Exception "sleep length must be non-negative"), h)
    else (Returned tt, set_slept (slept h ++ [seconds]) h).

(** [self.conn = psycopg2.connect(...)] followed by
    [set_isolation_level], which is taken to succeed on a connection
    just made. *)
Definition psycopg2_connect : H connect_result :=
  fun h =>
    let r := peek (connects h) in
    let h' := set_connects (advance (connects h)) h in
    (Returned r, match r with Connected => set_conn Open h' | _ => h' end).

(** [self.conn.cursor()]. *)
Definition cursor : H unit :=
  fun h =>
    match conn h with
    | NoConnection =>
        (Failed (Exception "'NoneType' object has no attribute 'cursor'"), h)
    | Closed => (Failed (Exception "connection already closed"), h)
    | Open => (Returned tt, set_open_cursors (open_cursors h + 1) h)
    end.

(** [cursor.close()]. *)
Definition cursor_close : H unit :=
  fun h => (Returned tt, set_open_cursors (open_cursors h - 1) h).

(** [cursor.execute(statement)]; the caller sorts the exceptions. *)
Definition cursor_execute (statement : string) : H execute_result :=
  fun h =>
    (Returned (peek (executes h) statement),
     set_executed_sql (executed_sql h ++ [statement])
       (set_executes (advance (executes h)) h)).

(** [cursor.fetchone()[0]]. *)
Definition cursor_fetchone : H (Z + string) :=
  fun h => (Returned (peek (fetches h)), set_fetches (advance (fetches h)) h).

(** [self.conn.close()]. *)
Definition conn_close : H unit :=
  fun h => (Returned tt, set_closes (S (closes h)) (set_conn Closed h)).

(** [Path(path)]: what the file system has there. *)
Definition stat (path : string) : H entry :=
  fun h => (Returned (disk h path), h).

(** ** [DatabasePopulator] *)

Record DatabasePopulator : Type := mkDatabasePopulator {
  host : string;
  port : Z;
  database : string;
  user : string;
  password : string
}.

(** [__init__]: [self.conn = None]. *)
Definition init : H unit :=
  fun h => (Returned tt, set_conn NoConnection h).

(** The rounds [attempt], [attempt + 1], ... of the loop of [connect];
    [todo] counts the rounds left in [range(1, retries + 1)]. *)
Fixpoint connect_loop (self : DatabasePopulator) (todo : nat)
         (attempt retries delay : Z) : H bool :=
  match todo with
  | O => hret false
  | S todo' =>
      print_err ("Connecting to database (attempt " ++ PyStr.of_Z attempt ++
                 "/" ++ PyStr.of_Z retries ++ ")...") ;;;
      r <- psycopg2_connect ;;
      match r with
      | Connected =>
          print_err ("✓ Connected to database '" ++ database self ++
                     "' at " ++ host self ++ ":" ++ PyStr.of_Z (port self)) ;;;
          hret true
      | OperationalError e =>
          if attempt <? retries then
            print_err ("Connection failed: " ++ e ++ ". Retrying in " ++
                       PyStr.of_Z delay ++ " seconds...") ;;;
            sleep delay ;;;
            connect_loop self todo' (attempt + 1) retries delay
          else
            print_err ("❌ Failed to connect after " ++ PyStr.of_Z retries ++
                       " attempts: " ++ e) ;;;
            hret false
      | ConnectError e => hfail (Exception e)
      end
  end.

Definition connect (self : DatabasePopulator) (retries delay : Z) : H bool :=
  connect_loop self (Z.to_nat retries) 1 retries delay.

(** The state of the loop that cuts the text into statements. *)
Record splitter : Type := mkSplitter {
  statements : list string;
  current_statement : list string;
  in_comment : bool
}.

(** One round of [for line in sql_content.split('\n')]. *)
Definition split_line (st : splitter) (line : string) : splitter :=
  let stripped := PyStr.strip line in
  if (String.eqb stripped "" || PyStr.startswith "--" stripped)%bool then st
  else
    let in_comment' :=
      if contains "/*" stripped then true else in_comment st in
    if contains "*/" stripped then
      mkSplitter (statements st) (current_statement st) false
    else if in_comment' then
      mkSplitter (statements st) (current_statement st) in_comment'
    else
      let current := (current_statement st ++ [line])%list in
      if endswith ";" stripped then
        let statement := PyStr.strip (PyStr.join PyStr.LF current) in
        mkSplitter
          (if String.eqb statement "" then statements st
           else (statements st ++ [statement])%list)
          [] in_comment'
      else mkSplitter (statements st) current in_comment'.

(** The statements [execute_sql_file] finds in the text of the file. *)
Definition split_statements (sql_content : string) : list string :=
  statements
    (fold_left split_line (PyStr.split PyStr.newline sql_content)
               (mkSplitter [] [] false)).

Definition is_duplicate (e : pg_error) : bool :=
  (contains "duplicate key" (PyStr.lower (pg_text e)) ||
   contains "already exists" (PyStr.lower (pg_text e)))%bool.

(** The rounds [i], [i + 1], ... of
    [for i, statement in enumerate(statements, 1)], and what follows the
    loop; [total] is [len(statements)].  The two readings of
    [time.time()] around [cursor.execute] are not used and left out. *)
Fixpoint execute_loop (todo : list string) (i total executed failed : Z)
  : H bool :=
  match todo with
  | [] =>
      print_err (PyStr.LF ++ "✓ Execution complete: " ++ PyStr.of_Z executed ++
                 " statements succeeded, " ++ PyStr.of_Z failed ++ " failed") ;;;
      hret (failed =? 0)
  | statement :: rest =>
      r <- cursor_execute statement ;;
      match r with
      | Executed =>
          let executed := executed + 1 in
          (if ((10 <? total) &&
               ((i mod Z.max 1 (total / 10) =? 0) || (i =? total)))%bool
           then
             print_err ("  Progress: " ++ PyStr.of_Z i ++ "/" ++
                        PyStr.of_Z total ++ " statements executed (" ++
                        PyStr.of_Z executed ++ " successful, " ++
                        PyStr.of_Z failed ++ " failed)")
           else hret tt) ;;;
          execute_loop rest (i + 1) total executed failed
      | PgError e =>
          let failed := failed + 1 in
          (if is_duplicate e then
             print_err ("  ⚠ Warning (statement " ++ PyStr.of_Z i ++ "): " ++
                        pgcode e ++ " - " ++ pgerror e)
           else
             print_err ("  ❌ Error executing statement " ++ PyStr.of_Z i ++
                        ": " ++ pgcode e ++ " - " ++ pgerror e) ;;;
             print_err ("     Statement preview: " ++
                        PyStr.replace PyStr.newline " "
                                      (PyStr.take 200 statement) ++
                        "...")) ;;;
          execute_loop rest (i + 1) total executed failed
      | OtherError e => hfail (Exception e)
      end
  end.

Definition execute_sql_file (sql_file_path : string) : H bool :=
  found <- stat sql_file_path ;;
  match found with
  | Missing =>
      print_err ("❌ SQL file not found: " ++ sql_file_path) ;;;
      hret false
  | Unreadable size e =>
      print_err ("Reading SQL file: " ++ sql_file_path ++ " (" ++
                 kilobytes size ++ " KB)") ;;;
      print_err ("❌ Failed to read SQL file: " ++ e) ;;;
      hret false
  | Regular content =>
      print_err ("Reading SQL file: " ++ sql_file_path ++ " (" ++
                 kilobytes (String.length content) ++ " KB)") ;;;
      let sql_content := universal_newlines content in
      let statements := split_statements sql_content in
      print_err ("Found " ++ PyStr.of_nat (List.length statements) ++
                 " SQL statements to execute") ;;;
      cursor ;;;
      finally
        (try_except
           (execute_loop statements 1 (Z.of_nat (List.length statements)) 0 0)
           (fun e =>
              print_err ("❌ Unexpected error during execution: " ++ e) ;;;
              hret false))
        cursor_close
  end.

Definition tables : list string := ["Authors"; "Articles"; "Comments"].

(** [for table in tables] of [get_table_counts]; the dict [counts] is the
    list of its items in the order of insertion. *)
Fixpoint counts_loop (todo : list string) (counts : list (string * Z))
  : H (list (string * Z)) :=
  match todo with
  | [] => hret counts
  | table :: rest =>
      r <- cursor_execute ("SELECT COUNT(*) FROM " ++ table) ;;
      match r with
      | Executed =>
          n <- cursor_fetchone ;;
          match n with
          | inl n => counts_loop rest (counts ++ [(table, n)])%list
          | inr e => hfail (Exception e)
          end
      | PgError e => hfail (Exception (pg_text e))
      | OtherError e => hfail (Exception e)
      end
  end.

Definition get_table_counts : H (list (string * Z)) :=
  cursor ;;;
  finally
    (try_except
       (counts_loop tables [])
       (fun e =>
          print_err ("⚠ Warning: Could not get table counts: " ++ e) ;;;
          hret []))
    cursor_close.

Definition close : H unit :=
  fun h =>
    match conn h with
    | NoConnection => (Returned tt, h)
    | _ => (conn_close ;;; print_err "Database connection closed") h
    end.

(** ** [main], the direct-connection method *)

(** [d.get(key, 0)]. *)
Fixpoint get (key : string) (d : list (string * Z)) : Z :=
  match d with
  | [] => 0
  | (k, v) :: rest => if String.eqb k key then v else get key rest
  end.

Fixpoint print_initial (counts : list (string * Z)) : H unit :=
  match counts with
  | [] => hret tt
  | (table, count) :: rest =>
      print_err ("  " ++ table ++ ": " ++ PyStr.of_Z count ++ " rows") ;;;
      print_initial rest
  end.

Fixpoint print_final (initial_counts counts : list (string * Z)) : H unit :=
  match counts with
  | [] => hret tt
  | (table, count) :: rest =>
      let initial := get table initial_counts in
      let added := count - initial in
      print_err ("  " ++ table ++ ": " ++ PyStr.of_Z count ++ " rows (+" ++
                 PyStr.of_Z added ++ ")") ;;;
      print_final initial_counts rest
  end.

(** [main] from [populator = DatabasePopulator(...)] on, that is, without
    [--generate] and without [--use-docker-exec].  No interrupt arrives:
    the handler of [KeyboardInterrupt] is left out. *)
Definition main_direct (self : DatabasePopulator) (sql_file : string)
  : H unit :=
  init ;;;
  finally
    (try_except
       (connected <- connect self 5 2 ;;
        if negb connected then sys_exit 1
        else
          print_err (PyStr.LF ++ "Current database state:") ;;;
          initial_counts <- get_table_counts ;;
          print_initial initial_counts ;;;
          print_err (PyStr.LF ++ "Executing SQL file: " ++ sql_file) ;;;
          populated <- execute_sql_file sql_file ;;
          if negb populated then
            print_err "❌ Failed to populate database" ;;;
            sys_exit 1
          else
            print_err (PyStr.LF ++ "Final database state:") ;;;
            final_counts <- get_table_counts ;;
            print_final initial_counts final_counts ;;;
            print_err (PyStr.LF ++ "✅ Database populated successfully!"))
       (fun e =>
          print_err ("❌ Unexpected error: " ++ e) ;;;
          sys_exit 1))
    close.

(** ** Vocabulary for the statements about the loader *)

Definition result_of {A} (m : H A) (h : Host) : outcome A := fst (m h).
Definition host_after {A} (m : H A) (h : Host) : Host := snd (m h).

(** The attempts [connect] makes when it may make [n]: up to the first
    one that does not fail with [OperationalError]. *)
Fixpoint attempts (t : Tape connect_result) (n : nat) : list connect_result :=
  match n with
  | O => []
  | S k =>
      match peek t with
      | OperationalError e => OperationalError e :: attempts (advance t) k
      | r => [r]
      end
  end.

(** What the last attempt makes of the call. *)
Definition verdict (rs : list connect_result) : outcome bool :=
  match last rs (OperationalError "") with
  | Connected => Returned true
  | OperationalError _ => Returned false
  | ConnectError e => Failed (Exception e)
  end.

(** The results of the calls of [cursor.execute] that follow, on the
    statements [l], up to the first exception that is no
    [psycopg2.Error]: the loop of [execute_sql_file] ends there. *)
Fixpoint answers (t : Tape (string -> execute_result)) (l : list string)
  : list execute_result :=
  match l with
  | [] => []
  | s :: rest =>
      match peek t s with
      | OtherError e => [OtherError e]
      | r => r :: answers (advance t) rest
      end
  end.

Definition is_executed (r : execute_result) : bool :=
  match r with Executed => true | _ => false end.

Definition is_other_error (r : execute_result) : bool :=
  match r with OtherError _ => true | _ => false end.

(** The text begins with [c]. *)
Definition starts (c : ascii) (s : string) : bool :=
  match s with
  | "" => false
  | String a _ => Ascii.eqb a c
  end.

(** [c] stands twice in a row somewhere in the text: for the line feed,
    the text has an empty line inside. *)
Fixpoint doubled (c : ascii) (s : string) : bool :=
  match s with
  | "" => false
  | String a t => ((Ascii.eqb a c && starts c t) || doubled c t)%bool
  end.

(** A line the splitter takes for the end of a statement. *)
Definition ends_statement (line : string) : bool :=
  endswith ";" (PyStr.strip line).

(** The file system in which the generator's files are what [files]
    holds, the last one written first, and every other path is as [other]
    has it. *)
Fixpoint written (files : list (string * string)) (other : string -> entry)
         (path : string) : entry :=
  match files with
  | [] => other path
  | (p, text) :: rest =>
      if String.eqb p path then Regular text else written rest other path
  end.

End Populate.

(** ** Hosts to run the loader on *)

Module LoaderDemo.

Import Populate.

Definition refused : connect_result := OperationalError "connection refused".

(** The server refuses [n] attempts and accepts the next ones. *)
Definition accepts_after (n : nat) : Tape connect_result :=
  mkTape (fun i => if Nat.ltb i n then refused else Connected) 0.

(** Every statement is executed. *)
Definition obliging : Tape (string -> execute_result) :=
  mkTape (fun _ _ => Executed) 0.

Definition duplicate_key : pg_error :=
  mkPgError
    "duplicate key value violates unique constraint"
    "23505"
    "ERROR:  duplicate key value violates unique constraint".

(** Every [INSERT] hits a key that is already there. *)
Definition populated : Tape (string -> execute_result) :=
  mkTape (fun _ statement =>
            if PyStr.startswith "INSERT" statement then PgError duplicate_key
            else Executed) 0.

Definition row_counts : Tape (Z + string) :=
  mkTape (fun i => inl (Z.of_nat i)) 0.

Definition blog : DatabasePopulator :=
  mkDatabasePopulator "localhost" 5432 "blog_db" "blog_user" "blog_password".

(** A file system with one file, [data.sql]. *)
Definition one_file (content : string) (path : string) : entry :=
  if String.eqb path "data.sql" then Regular content else Missing.

Definition machine (content : string) (refusals : nat)
           (server : Tape (string -> execute_result)) : Host :=
  mkHost (one_file content) (accepts_after refusals) server row_counts
         NoConnection 0 0 [] [] "".

Definition connected (h : Host) : Host := set_conn Open h.

Definition two_inserts : string :=
  "-- two rows" ++ PyStr.LF ++
  "INSERT INTO Authors (id) VALUES" ++ PyStr.LF ++
  "('a');" ++ PyStr.LF ++
  PyStr.LF ++
  "INSERT INTO Authors (id) VALUES ('b');".

(** The text the generator writes for the collections of [Demo]. *)
Definition generated : string :=
  Demo.ok_or ""
    (Spec.run (generate_sql Demo.some_authors (Demo.some_articles 0.5%float)
                            Demo.some_comments) (Demo.world 1)).

Definition no_article : Article := mkArticle "" "" "" "" "" "" "".

Definition first_article : Article :=
  hd no_article (Demo.some_articles 0.5%float).

(** The second statement the loader finds in [generated], the [INSERT]
    of the articles. *)
Definition articles_statement : string :=
  nth 1 (split_statements (universal_newlines generated)) "".

End LoaderDemo.

(** * Computations: sequencing *)

Lemma bind_ok {A B} (m : M A) (k : A -> M B) w b w' :
  bind m k w = (Ok b, w') ->
  exists a w1, m w = (Ok a, w1) /\ k a w1 = (Ok b, w').
Proof.
  unfold bind. destruct (m w) as [[a | e] w1]; intros H.
  - exists a, w1. split; [reflexivity | exact H].
  - discriminate H.
Qed.

Lemma bind_run {A B} (m : M A) (k : A -> M B) w a w1 :
  m w = (Ok a, w1) -> bind m k w = k a w1.
Proof. intros H. unfold bind. rewrite H. reflexivity. Qed.

Lemma bind_raise {A B} (m : M A) (k : A -> M B) w e w1 :
  m w = (Raise e, w1) -> bind m k w = (Raise e, w1).
Proof. intros H. unfold bind. rewrite H. reflexivity. Qed.

Ltac bind_inv H :=
  let a := fresh "a" in
  let w1 := fresh "w" in
  let Hm := fresh "Hm" in
  apply bind_ok in H; destruct H as (a & w1 & Hm & H).

Section TotalRules.

Variable I : World -> Prop.

Lemma total_ret {A} (a : A) (Q : A -> Prop) : Q a -> total I (ret a) Q.
Proof. intros HQ w HI. exists a, w. repeat split; assumption. Qed.

Lemma total_bind {A B} (m : M A) (k : A -> M B) (P : A -> Prop) (Q : B -> Prop) :
  total I m P -> (forall a, P a -> total I (k a) Q) -> total I (bind m k) Q.
Proof.
  intros Hm Hk w HI.
  destruct (Hm w HI) as (a & w1 & E1 & HI1 & HP).
  destruct (Hk a HP w1 HI1) as (b & w2 & E2 & HI2 & HQ).
  exists b, w2. rewrite (bind_run _ _ _ _ _ E1). repeat split; assumption.
Qed.

Lemma total_weaken {A} (m : M A) (P Q : A -> Prop) :
  total I m P -> (forall a, P a -> Q a) -> total I m Q.
Proof.
  intros Hm HPQ w HI. destruct (Hm w HI) as (a & w1 & E & HI1 & HP).
  exists a, w1. repeat split; auto.
Qed.

Hypothesis I_frame : email_state_only I.

Lemma total_uuid4 : total I uuid4 (fun _ => True).
Proof.
  intros w HI. eexists _, _. split; [reflexivity |]. split; [| exact Logic.I].
  eapply I_frame; [| | exact HI]; reflexivity.
Qed.

Lemma total_randbelow n : (0 < n)%nat -> total I (randbelow n) (fun i => (i < n)%nat).
Proof.
  intros Hn w HI. eexists _, _. split; [reflexivity |]. split.
  - eapply I_frame; [| | exact HI]; reflexivity.
  - apply Nat.mod_upper_bound. lia.
Qed.

Lemma total_choice {A} (seq : list A) :
  seq <> [] -> total I (choice seq) (fun x => In x seq).
Proof.
  intros Hne. destruct seq as [| x seq']; [congruence |].
  unfold choice. eapply total_bind.
  - apply total_randbelow. simpl. lia.
  - intros i Hi. cbv beta in Hi. apply total_ret. apply nth_In. exact Hi.
Qed.

Lemma total_randint a b : a <= b -> total I (randint a b) (fun z => a <= z <= b).
Proof.
  intros Hab. unfold randint.
  destruct (Z.ltb_spec b a) as [Hlt | _]; [lia |].
  eapply total_bind.
  - apply total_randbelow. lia.
  - intros i Hi. cbv beta in Hi. apply total_ret. lia.
Qed.

Lemma total_random : total I random (fun _ => True).
Proof.
  intros w HI. eexists _, _. split; [reflexivity |]. split; [| exact Logic.I].
  eapply I_frame; [| | exact HI]; reflexivity.
Qed.

Lemma total_now : total I now (fun _ => True).
Proof.
  intros w HI. eexists _, _. split; [reflexivity |]. split; [| exact Logic.I].
  eapply I_frame; [| | exact HI]; reflexivity.
Qed.

Lemma total_fake_user_name : total I fake_user_name (fun _ => True).
Proof.
  intros w HI. eexists _, _. split; [reflexivity |]. split; [| exact Logic.I].
  eapply I_frame; [| | exact HI]; reflexivity.
Qed.

Lemma total_fake_name : total I fake_name (fun _ => True).
Proof.
  intros w HI. eexists _, _. split; [reflexivity |]. split; [| exact Logic.I].
  eapply I_frame; [| | exact HI]; reflexivity.
Qed.

Lemma total_fake_sentence n : total I (fake_sentence n) (fun _ => True).
Proof.
  intros w HI. eexists _, _. split; [reflexivity |]. split; [| exact Logic.I].
  eapply I_frame; [| | exact HI]; reflexivity.
Qed.

Lemma total_fake_date_time_between : total I fake_date_time_between (fun _ => True).
Proof.
  intros w HI. eexists _, _. split; [reflexivity |]. split; [| exact Logic.I].
  eapply I_frame; [| | exact HI]; reflexivity.
Qed.

Lemma total_fake_paragraph : total I fake_paragraph (fun _ => True).
Proof.
  intros w HI. eexists _, _. split; [reflexivity |]. split; [| exact Logic.I].
  eapply I_frame; [| | exact HI]; reflexivity.
Qed.

Lemma total_fake_paragraphs nb :
  total I (fake_paragraphs nb) (fun ps => List.length ps = Z.to_nat nb).
Proof.
  unfold fake_paragraphs. induction (Z.to_nat nb) as [| n IH]; simpl.
  - apply total_ret. reflexivity.
  - eapply total_bind; [apply total_fake_paragraph |]. intros p _.
    eapply total_bind; [apply IH |]. intros ps Hps.
    apply total_ret. simpl. congruence.
Qed.

Hypothesis I_email : email_draw_ok I.

Lemma total_fake_email : total I fake_email (fun _ => True).
Proof.
  intros w HI. eexists _, _. split; [reflexivity |]. split; [| exact Logic.I].
  apply I_email. exact HI.
Qed.

End TotalRules.

(** * The generator returns *)

Section GeneratorTotal.

Variable I : World -> Prop.
Hypothesis I_frame : email_state_only I.

Lemma total_article_round pool ratio :
  pool <> [] ->
  total I (article_round pool ratio) (fun r => In (r_author_id r) pool).
Proof.
  intros Hne. unfold article_round.
  eapply total_bind; [apply total_uuid4; assumption | intros u _].
  eapply total_bind; [apply total_choice; assumption | intros author_id Hin].
  eapply total_bind; [apply total_choice; [assumption | discriminate] | intros topic _].
  eapply total_bind; [apply total_choice; [assumption | discriminate] | intros title _].
  eapply total_bind; [apply total_randint; [assumption | lia] | intros np _].
  eapply total_bind; [apply total_fake_paragraphs; assumption | intros ps _].
  eapply total_bind; [apply total_random; assumption | intros x _].
  eapply total_bind; [apply total_randint; [assumption | lia] | intros days_ago Hd].
  cbv beta in Hd.
  eapply total_bind; [apply total_now; assumption | intros created_now _].
  eapply total_bind with (P := fun _ => True).
  - destruct (PrimFloat.ltb x ratio).
    + eapply total_bind; [apply total_randint; [assumption | lia] | intros p _].
      eapply total_bind; [apply total_now; assumption | intros publish_now _].
      apply total_ret. exact Logic.I.
    + apply total_ret. exact Logic.I.
  - intros publish _. apply total_ret. exact Hin.
Qed.

Lemma total_articles_loop pool ratio n : forall acc,
  pool <> [] ->
  total I (articles_loop n pool ratio acc)
    (fun l => exists new, l = (acc ++ new)%list /\ List.length new = n /\
                          Forall (fun r => In (r_author_id r) pool) new).
Proof.
  induction n as [| n IH]; intros acc Hne; simpl.
  - apply total_ret. exists []. rewrite app_nil_r. repeat split. constructor.
  - eapply total_bind; [apply total_article_round; exact Hne | intros r Hr].
    eapply total_weaken; [apply IH; exact Hne |].
    intros l (new & -> & Hlen & Hall). exists (r :: new).
    rewrite <- app_assoc. simpl. repeat split; [congruence |].
    constructor; assumption.
Qed.

Lemma total_generate_articles count pool ratio :
  pool <> [] ->
  total I (generate_articles count pool ratio)
    (fun l => List.length l = Z.to_nat count /\
              Forall (fun a => In (ar_author_id a) pool) l).
Proof.
  intros Hne. unfold generate_articles, generate_articles_rounds.
  eapply total_bind; [apply total_articles_loop; exact Hne |].
  intros rounds (new & -> & Hlen & Hall). apply total_ret. simpl. split.
  - rewrite length_map. exact Hlen.
  - apply Forall_map. exact Hall.
Qed.

Hypothesis I_email : email_draw_ok I.

Lemma total_comment_round pool :
  pool <> [] ->
  total I (comment_round pool) (fun c => In (co_article_id c) pool).
Proof.
  intros Hne. unfold comment_round.
  eapply total_bind; [apply total_uuid4; assumption | intros u _].
  eapply total_bind; [apply total_choice; assumption | intros article_id Hin].
  eapply total_bind; [apply total_fake_name; assumption | intros author_name _].
  eapply total_bind; [apply total_fake_email; assumption | intros author_email _].
  eapply total_bind; [apply total_random; assumption | intros x _].
  eapply total_bind with (P := fun _ => True).
  - destruct (PrimFloat.ltb x template_ratio).
    + eapply total_weaken; [apply total_choice; [assumption | discriminate] |].
      intros; exact Logic.I.
    + eapply total_bind; [apply total_randint; [assumption | lia] | intros nb _].
      apply total_fake_sentence; assumption.
  - intros content _.
    eapply total_bind; [apply total_randint; [assumption | lia] | intros days_ago _].
    eapply total_bind; [apply total_now; assumption | intros comment_now _].
    apply total_ret. exact Hin.
Qed.

Lemma total_comments_loop pool n : forall acc,
  pool <> [] ->
  total I (comments_loop n pool acc)
    (fun l => exists new, l = (acc ++ new)%list /\ List.length new = n /\
                          Forall (fun c => In (co_article_id c) pool) new).
Proof.
  induction n as [| n IH]; intros acc Hne; simpl.
  - apply total_ret. exists []. rewrite app_nil_r. repeat split. constructor.
  - eapply total_bind; [apply total_comment_round; exact Hne | intros c Hc].
    eapply total_weaken; [apply IH; exact Hne |].
    intros l (new & -> & Hlen & Hall). exists (c :: new).
    rewrite <- app_assoc. simpl. repeat split; [congruence |].
    constructor; assumption.
Qed.

Lemma total_generate_comments count pool :
  pool <> [] ->
  total I (generate_comments count pool)
    (fun l => List.length l = Z.to_nat count /\
              Forall (fun c => In (co_article_id c) pool) l).
Proof.
  intros Hne. unfold generate_comments.
  eapply total_weaken; [apply total_comments_loop; exact Hne |].
  intros l (new & -> & Hlen & Hall). simpl. split; assumption.
Qed.

End GeneratorTotal.

Lemma anywhere_frame : email_state_only anywhere.
Proof. intros w w' _ _ _. exact Logic.I. Qed.

Lemma anywhere_email : email_draw_ok anywhere.
Proof. intros w _. exact Logic.I. Qed.

(** * [generate_authors] returns *)

Lemma fresh_emails_frame : email_state_only fresh_emails.
Proof.
  intros w w' He Hs H. unfold fresh_emails, email_supply in *.
  rewrite He, Hs. exact H.
Qed.

Lemma mem_true s l : mem s l = true <-> In s l.
Proof. unfold mem. destruct (in_dec string_dec s l); split; intros; auto; discriminate. Qed.

Lemma mem_false s l : mem s l = false <-> ~ In s l.
Proof. unfold mem. destruct (in_dec string_dec s l); split; intros; auto; try discriminate; contradiction. Qed.

Lemma total_fake_unique_email : total fresh_emails fake_unique_email (fun _ => True).
Proof.
  intros w [Hinj Hnew].
  unfold fake_unique_email, unique_attempts.
  change (unique_email_loop 1000 None)
    with (e <- fake_email ;; unique_email_loop 999 (Some e)).
  unfold bind at 1. unfold fake_email at 1. cbv iota beta.
  change (unique_email_loop 999 (Some ?e))
    with (dup <- email_seen e ;;
          if dup then (e' <- fake_email ;; unique_email_loop 998 (Some e'))
          else (remember_email e ;;; ret e)).
  unfold bind at 1. unfold email_seen at 1. cbv iota beta.
  cbn [fake unique_seen set_fake set_emails].
  assert (Hfresh : mem (peek (emails (fake w))) (unique_seen (fake w)) = false).
  { apply mem_false. apply Hnew. apply Nat.le_refl. }
  rewrite Hfresh.
  eexists _, _. split; [reflexivity |]. split; [| exact Logic.I].
  unfold fresh_emails, email_supply. cbn. split.
  - intros i j Hi Hij. apply Hinj; lia.
  - intros i Hi Hin. unfold set_add in Hin. rewrite Hfresh in Hin.
    apply in_app_or in Hin. destruct Hin as [Hin | [Heq | []]].
    + apply (Hnew i); [lia | exact Hin].
    + unfold peek in Heq. apply (Hinj (pos (emails (fake w))) i); [lia | lia | exact Heq].
Qed.

Section AuthorsTotal.

Variable I : World -> Prop.
Hypothesis I_frame : email_state_only I.

Lemma total_username_loop fuel : forall usernames username attempts,
  101 - attempts <= Z.of_nat fuel ->
  total I (username_loop fuel usernames username attempts) (fun _ => True).
Proof.
  induction fuel as [| fuel IH]; intros usernames username attempts Hfuel.
  - assert (Hgt : (attempts >? 100) = true) by (apply Z.gtb_lt; lia).
    simpl. rewrite Hgt.
    assert (Hfb : total I (u <- uuid4 ;; ret ("user_" ++ PyStr.take 8 (UUID.hex u)))
                    (fun _ => True)).
    { eapply total_bind; [apply total_uuid4; assumption | intros u _].
      apply total_ret. exact Logic.I. }
    destruct username as [u |]; [destruct (mem u usernames) |]; try exact Hfb.
    apply total_ret. exact Logic.I.
  - simpl.
    assert (Hagain : total I
              (if attempts >? 100
               then u <- uuid4 ;; ret ("user_" ++ PyStr.take 8 (UUID.hex u))
               else n <- fake_user_name ;;
                    username_loop fuel usernames
                      (Some (PyStr.replace " " "_" (PyStr.lower n))) (attempts + 1))
              (fun _ => True)).
    { destruct (attempts >? 100) eqn:Hgt.
      - eapply total_bind; [apply total_uuid4; assumption | intros u _].
        apply total_ret. exact Logic.I.
      - eapply total_bind; [apply total_fake_user_name; assumption | intros n _].
        apply IH. rewrite Z.gtb_ltb, Z.ltb_ge in Hgt. lia. }
    destruct username as [u |]; [destruct (mem u usernames) |]; try exact Hagain.
    apply total_ret. exact Logic.I.
Qed.

End AuthorsTotal.

Lemma authors_loop_S n usernames authors :
  authors_loop (S n) usernames authors =
  (username <- username_loop username_fuel usernames None 0 ;;
   email <- fake_unique_email ;;
   u <- uuid4 ;;
   created_at <- fake_date_time_between ;;
   authors_loop n (set_add username usernames)
     (authors ++ [mkAuthor (UUID.to_str u) username email
                    (DateTime.strftime created_at)])).
Proof. reflexivity. Qed.

Lemma total_authors_loop n : forall usernames acc,
  total fresh_emails (authors_loop n usernames acc)
    (fun l => List.length l = (List.length acc + n)%nat).
Proof.
  induction n as [| n IH]; intros usernames acc.
  - apply total_ret. simpl. lia.
  - rewrite authors_loop_S.
    eapply total_bind;
      [apply total_username_loop; [apply fresh_emails_frame | unfold username_fuel; lia] |
       intros username _].
    eapply total_bind; [apply total_fake_unique_email | intros email _].
    eapply total_bind; [apply total_uuid4; apply fresh_emails_frame | intros u _].
    eapply total_bind;
      [apply total_fake_date_time_between; apply fresh_emails_frame |
       intros created_at _].
    eapply total_weaken; [apply IH |].
    intros l Hl. cbv beta in Hl. rewrite Hl, length_app. simpl. lia.
Qed.

Lemma total_generate_authors count :
  total fresh_emails (generate_authors count)
    (fun l => List.length l = Z.to_nat count).
Proof.
  unfold generate_authors. eapply total_weaken; [apply total_authors_loop |].
  intros l Hl. exact Hl.
Qed.

(** * What a returned value tells about the call *)

Lemma ret_inv {A} (a b : A) w w' : ret a w = (Ok b, w') -> b = a /\ w' = w.
Proof. unfold ret. intros H. inversion H. split; reflexivity. Qed.

Lemma uuid4_inv w u w' :
  uuid4 w = (Ok u, w') ->
  u = UUID.of_random (peek (entropy w)) /\ w' = set_entropy (advance (entropy w)) w.
Proof. unfold uuid4. intros H. inversion H. split; reflexivity. Qed.

Lemma randbelow_inv n w i w' :
  randbelow n w = (Ok i, w') ->
  i = Nat.modulo (peek (rng w)) n /\ w' = set_rng (advance (rng w)) w.
Proof. unfold randbelow. intros H. inversion H. split; reflexivity. Qed.

Lemma choice_inv {A} (seq : list A) w x w' :
  choice seq w = (Ok x, w') ->
  In x seq /\ w' = set_rng (advance (rng w)) w.
Proof.
  destruct seq as [| y seq']; [intros H; discriminate H |].
  unfold choice. intros H.
  bind_inv H. apply randbelow_inv in Hm. destruct Hm as [-> ->].
  apply ret_inv in H. destruct H as [-> ->]. split; [| reflexivity].
  apply nth_In. apply Nat.mod_upper_bound. discriminate.
Qed.

Lemma randint_inv a b w z w' :
  randint a b w = (Ok z, w') ->
  a <= z <= b /\ w' = set_rng (advance (rng w)) w.
Proof.
  unfold randint. destruct (Z.ltb_spec b a) as [Hlt | Hle]; [discriminate |].
  intros H. bind_inv H. apply randbelow_inv in Hm. destruct Hm as [-> ->].
  apply ret_inv in H. destruct H as [-> ->]. split; [| reflexivity].
  assert ((peek (rng w) mod Z.to_nat (b - a + 1) < Z.to_nat (b - a + 1))%nat)
    by (apply Nat.mod_upper_bound; lia).
  lia.
Qed.

Lemma random_inv w x w' :
  random w = (Ok x, w') ->
  x = peek (rng_unit w) /\ w' = set_rng_unit (advance (rng_unit w)) w.
Proof. unfold random. intros H. inversion H. split; reflexivity. Qed.

Lemma now_inv w t w' :
  now w = (Ok t, w') ->
  t = peek (clock w) /\ w' = set_clock (advance (clock w)) w.
Proof. unfold now. intros H. inversion H. split; reflexivity. Qed.

Lemma fake_name_inv w s w' :
  fake_name w = (Ok s, w') ->
  s = peek (names (fake w)) /\
  w' = set_fake (set_names (advance (names (fake w))) (fake w)) w.
Proof. unfold fake_name. intros H. inversion H. split; reflexivity. Qed.

Lemma fake_email_inv w s w' :
  fake_email w = (Ok s, w') ->
  s = peek (emails (fake w)) /\
  w' = set_fake (set_emails (advance (emails (fake w))) (fake w)) w.
Proof. unfold fake_email. intros H. inversion H. split; reflexivity. Qed.

Lemma fake_sentence_inv n w s w' :
  fake_sentence n w = (Ok s, w') ->
  w' = set_fake (set_sentences (advance (sentences (fake w))) (fake w)) w.
Proof. unfold fake_sentence. intros H. inversion H. reflexivity. Qed.

(** The paragraphs provider leaves the clock and the other providers'
    tapes alone. *)
Lemma fake_paragraphs_n_frame n : forall w ps w',
  fake_paragraphs_n n w = (Ok ps, w') ->
  clock w' = clock w /\ emails (fake w') = emails (fake w) /\
  names (fake w') = names (fake w).
Proof.
  induction n as [| n IH]; simpl; intros w ps w' H.
  - apply ret_inv in H. destruct H as [_ ->]. repeat split.
  - bind_inv H. unfold fake_paragraph in Hm. inversion Hm; subst; clear Hm.
    bind_inv H. apply IH in Hm. apply ret_inv in H. destruct H as [_ ->].
    exact Hm.
Qed.

(** ** One round of the article loop *)

Lemma article_round_inv pool ratio w r w' :
  article_round pool ratio w = (Ok r, w') ->
  In (r_author_id r) pool /\
  src (clock w') = src (clock w) /\
  0 <= r_days_ago r <= 365 /\
  r_created_now r = src (clock w) (pos (clock w)) /\
  r_created_at r = DateTime.minus_days (r_created_now r) (r_days_ago r) /\
  r_created_at_str r = quoted (DateTime.strftime (r_created_at r)) /\
  (if r_is_published r then
     exists p,
       0 <= p <= r_days_ago r /\
       r_publish r =
         Some (p, src (clock w) (S (pos (clock w))),
               DateTime.minus_days (src (clock w) (S (pos (clock w)))) p) /\
       r_publish_date_str r =
         quoted (DateTime.strftime
                   (DateTime.minus_days (src (clock w) (S (pos (clock w)))) p))
   else r_publish r = None /\ r_publish_date_str r = "NULL").
Proof.
  unfold article_round. intros H.
  bind_inv H. apply uuid4_inv in Hm. destruct Hm as [-> ->].
  bind_inv H. apply choice_inv in Hm. destruct Hm as [Hin ->].
  bind_inv H. apply choice_inv in Hm. destruct Hm as [_ ->].
  bind_inv H. apply choice_inv in Hm. destruct Hm as [_ ->].
  bind_inv H. apply randint_inv in Hm. destruct Hm as [_ ->].
  bind_inv H. apply fake_paragraphs_n_frame in Hm. destruct Hm as (Hclock & _ & _).
  bind_inv H. apply random_inv in Hm. destruct Hm as [-> ->].
  bind_inv H. apply randint_inv in Hm. destruct Hm as [Hdays ->].
  bind_inv H. apply now_inv in Hm. destruct Hm as [-> ->].
  bind_inv H. apply ret_inv in H. destruct H as [-> ->].
  cbn [r_author_id r_days_ago r_created_now r_created_at r_created_at_str
       r_is_published r_publish r_publish_date_str].
  destruct (PrimFloat.ltb _ ratio).
  - bind_inv Hm. apply randint_inv in Hm0. destruct Hm0 as [Hp ->].
    bind_inv Hm. apply now_inv in Hm0. destruct Hm0 as [-> ->].
    apply ret_inv in Hm. destruct Hm as [-> ->].
    cbn. rewrite Hclock. cbn. repeat split; try assumption; try lia.
    eexists. repeat split; try eassumption; lia.
  - apply ret_inv in Hm. destruct Hm as [-> ->].
    cbn. rewrite Hclock. cbn. repeat split; try assumption; lia.
Qed.

Lemma articles_loop_inv (J : World -> Prop) (P : ArticleRound -> Prop) pool ratio :
  (forall w r w', J w -> article_round pool ratio w = (Ok r, w') -> J w' /\ P r) ->
  forall n acc w l w',
    J w -> articles_loop n pool ratio acc w = (Ok l, w') ->
    Forall P acc -> Forall P l.
Proof.
  intros Hround. induction n as [| n IH]; simpl; intros acc w l w' HJ H Hacc.
  - apply ret_inv in H. destruct H as [-> _]. exact Hacc.
  - bind_inv H. destruct (Hround _ _ _ HJ Hm) as [HJ' HP].
    eapply IH; [exact HJ' | exact H |].
    apply Forall_app. split; [exact Hacc |]. constructor; [exact HP | constructor].
Qed.

Lemma generate_articles_inv count pool ratio w l w' :
  generate_articles count pool ratio w = (Ok l, w') ->
  exists rounds,
    generate_articles_rounds count pool ratio w = (Ok rounds, w') /\
    l = map article_tuple rounds.
Proof.
  unfold generate_articles. intros H. bind_inv H.
  apply ret_inv in H. destruct H as [-> ->]. exists a. split; [exact Hm | reflexivity].
Qed.

(** ** One round of the comment loop *)

Lemma comment_round_inv pool w c w' :
  comment_round pool w = (Ok c, w') ->
  In (co_article_id c) pool /\
  co_author_email c = src (emails (fake w)) (pos (emails (fake w))) /\
  co_author_name c = sql_escape (src (names (fake w)) (pos (names (fake w)))) /\
  src (emails (fake w')) = src (emails (fake w)) /\
  src (names (fake w')) = src (names (fake w)).
Proof.
  unfold comment_round. intros H.
  bind_inv H. apply uuid4_inv in Hm. destruct Hm as [-> ->].
  bind_inv H. apply choice_inv in Hm. destruct Hm as [Hin ->].
  bind_inv H. apply fake_name_inv in Hm. destruct Hm as [-> ->].
  bind_inv H. apply fake_email_inv in Hm. destruct Hm as [-> ->].
  bind_inv H. apply random_inv in Hm. destruct Hm as [-> ->].
  bind_inv H.
  assert (Hw : src (emails (fake w0)) = src (emails (fake w)) /\
               src (names (fake w0)) = src (names (fake w))).
  { destruct (PrimFloat.ltb _ template_ratio).
    - apply choice_inv in Hm. destruct Hm as [_ ->]. split; reflexivity.
    - bind_inv Hm. apply randint_inv in Hm0. destruct Hm0 as [_ ->].
      apply fake_sentence_inv in Hm. rewrite Hm. split; reflexivity. }
  destruct Hw as [Hwe Hwn].
  bind_inv H. apply randint_inv in Hm0. destruct Hm0 as [_ ->].
  bind_inv H. apply now_inv in Hm0. destruct Hm0 as [-> ->].
  apply ret_inv in H. destruct H as [-> ->].
  cbn. repeat split; assumption.
Qed.

Lemma comments_loop_inv (J : World -> Prop) (P : Comment -> Prop) pool :
  (forall w c w', J w -> comment_round pool w = (Ok c, w') -> J w' /\ P c) ->
  forall n acc w l w',
    J w -> comments_loop n pool acc w = (Ok l, w') ->
    Forall P acc -> Forall P l.
Proof.
  intros Hround. induction n as [| n IH]; simpl; intros acc w l w' HJ H Hacc.
  - apply ret_inv in H. destruct H as [-> _]. exact Hacc.
  - bind_inv H. destruct (Hround _ _ _ HJ Hm) as [HJ' HP].
    eapply IH; [exact HJ' | exact H |].
    apply Forall_app. split; [exact Hacc |]. constructor; [exact HP | constructor].
Qed.

(** * Results *)

Lemma run_ok {A} (m : M A) w a :
  run m w = Ok a -> exists w', m w = (Ok a, w').
Proof.
  unfold run. destruct (m w) as [r w']. simpl. intros ->. exists w'. reflexivity.
Qed.

Lemma total_run {A} (I : World -> Prop) (m : M A) (Q : A -> Prop) w :
  total I m Q -> I w -> exists a, run m w = Ok a /\ Q a.
Proof.
  intros Hm HI. destruct (Hm w HI) as (a & w' & E & _ & HQ).
  exists a. unfold run. rewrite E. split; [reflexivity | exact HQ].
Qed.


(** * Author addresses are pairwise distinct *)

Lemma unique_email_loop_inv rounds : forall retval w e w',
  unique_email_loop rounds retval w = (Ok e, w') ->
  ~ In e (unique_seen (fake w)) /\
  unique_seen (fake w') = (unique_seen (fake w) ++ [e])%list.
Proof.
  induction rounds as [| k IH]; intros retval w e w' H.
  - discriminate H.
  - assert (Hagain : forall w0,
               unique_seen (fake w0) = unique_seen (fake w) ->
               (x <- fake_email ;; unique_email_loop k (Some x)) w0 = (Ok e, w') ->
               ~ In e (unique_seen (fake w)) /\
               unique_seen (fake w') = (unique_seen (fake w) ++ [e])%list).
    { intros w0 Hseen H0. bind_inv H0. apply fake_email_inv in Hm.
      destruct Hm as [-> ->]. apply IH in H0. cbn in H0.
      rewrite Hseen in H0. exact H0. }
    simpl in H. destruct retval as [x |].
    + bind_inv H. unfold email_seen in Hm. inversion Hm; subst; clear Hm.
      destruct (mem x (unique_seen (fake w0))) eqn:Hdup.
      * apply (Hagain w0); [reflexivity | exact H].
      * bind_inv H. unfold remember_email in Hm. inversion Hm; subst; clear Hm.
        apply ret_inv in H. destruct H as [-> ->]. cbn.
        unfold set_add. rewrite Hdup. split; [| reflexivity].
        apply mem_false. exact Hdup.
    + apply (Hagain w); [reflexivity | exact H].
Qed.

Lemma username_loop_seen fuel : forall usernames username attempts w u w',
  username_loop fuel usernames username attempts w = (Ok u, w') ->
  unique_seen (fake w') = unique_seen (fake w).
Proof.
  induction fuel as [| fuel IH]; intros usernames username attempts w u w' H.
  - simpl in H.
    assert (Hfb : forall w0,
               (x <- uuid4 ;; ret ("user_" ++ PyStr.take 8 (UUID.hex x))) w0 = (Ok u, w') ->
               unique_seen (fake w') = unique_seen (fake w0)).
    { intros w0 H0. bind_inv H0. apply uuid4_inv in Hm. destruct Hm as [-> ->].
      apply ret_inv in H0. destruct H0 as [_ ->]. reflexivity. }
    destruct (attempts >? 100).
    + destruct username as [x |]; [destruct (mem x usernames) |];
        try (apply Hfb; exact H).
      apply ret_inv in H. destruct H as [_ ->]. reflexivity.
    + destruct username as [x |]; [destruct (mem x usernames) |];
        try discriminate H.
      apply ret_inv in H. destruct H as [_ ->]. reflexivity.
  - simpl in H.
    assert (Hagain : forall w0,
               (if attempts >? 100
                then x <- uuid4 ;; ret ("user_" ++ PyStr.take 8 (UUID.hex x))
                else n <- fake_user_name ;;
                     username_loop fuel usernames
                       (Some (PyStr.replace " " "_" (PyStr.lower n)))
                       (attempts + 1)) w0 = (Ok u, w') ->
               unique_seen (fake w') = unique_seen (fake w0)).
    { intros w0 H0. destruct (attempts >? 100).
      - bind_inv H0. apply uuid4_inv in Hm. destruct Hm as [-> ->].
        apply ret_inv in H0. destruct H0 as [_ ->]. reflexivity.
      - bind_inv H0. unfold fake_user_name in Hm. inversion Hm; subst; clear Hm.
        apply IH in H0. rewrite H0. reflexivity. }
    destruct username as [x |]; [destruct (mem x usernames) |];
      try (apply Hagain; exact H).
    apply ret_inv in H. destruct H as [_ ->]. reflexivity.
Qed.

Lemma authors_loop_emails n : forall usernames acc w l w',
  authors_loop n usernames acc w = (Ok l, w') ->
  NoDup (map au_email acc) ->
  (forall e, In e (map au_email acc) -> In e (unique_seen (fake w))) ->
  NoDup (map au_email l).
Proof.
  induction n as [| n IH]; intros usernames acc w l w' H Hnd Hincl.
  - apply ret_inv in H. destruct H as [-> _]. exact Hnd.
  - rewrite authors_loop_S in H.
    bind_inv H. apply username_loop_seen in Hm. rename Hm into Hs1.
    bind_inv H. apply unique_email_loop_inv in Hm. destruct Hm as [Hnew Hs2].
    bind_inv H. apply uuid4_inv in Hm. destruct Hm as [-> ->].
    bind_inv H. unfold fake_date_time_between in Hm. inversion Hm; subst; clear Hm.
    eapply IH; [exact H | |].
    + rewrite map_app. simpl. apply NoDup_app; [exact Hnd | | ].
      * constructor; [intros [] | constructor].
      * intros e He [<- | []]. apply Hnew. rewrite Hs1. apply Hincl. exact He.
    + intros e He. cbn. rewrite Hs2, Hs1. rewrite map_app in He.
      apply in_app_or in He. apply in_or_app. destruct He as [He | He].
      * left. apply Hincl. exact He.
      * right. exact He.
Qed.

(** X1. The [email] fields of the authors [generate_authors] returns are
    pairwise distinct, in every world. *)
Lemma author_emails_distinct count w authors :
  run (generate_authors count) w = Ok authors ->
  NoDup (map au_email authors).
Proof.
  intros H. apply run_ok in H. destruct H as [w' H].
  unfold generate_authors in H.
  eapply authors_loop_emails; [exact H | constructor | intros e []].
Qed.

(** * The printed time stamp is one line *)

Lemma has_char_append c s t :
  PyStr.has_char c (s ++ t) = (PyStr.has_char c s || PyStr.has_char c t)%bool.
Proof.
  induction s as [| d s IH]; simpl; [reflexivity |].
  rewrite IH. apply Bool.orb_assoc.
Qed.

Lemma string_of_uint_one_line d :
  PyStr.has_char PyStr.newline (NilEmpty.string_of_uint d) = false.
Proof. induction d; simpl; try reflexivity; exact IHd. Qed.

Lemma of_Z_one_line z : PyStr.has_char PyStr.newline (PyStr.of_Z z) = false.
Proof.
  unfold PyStr.of_Z, NilZero.string_of_int, NilZero.string_of_uint.
  destruct (Z.to_int z) as [d | d]; destruct d; simpl; try reflexivity;
    apply string_of_uint_one_line.
Qed.

Lemma zfill_one_line n s :
  PyStr.has_char PyStr.newline s = false ->
  PyStr.has_char PyStr.newline (PyStr.zfill n s) = false.
Proof.
  intros H. unfold PyStr.zfill. rewrite has_char_append, H, Bool.orb_false_r.
  induction (n - String.length s)%nat as [| k IH]; simpl; [reflexivity | exact IH].
Qed.

Lemma strftime_one_line t :
  PyStr.has_char PyStr.newline (DateTime.strftime t) = false.
Proof.
  unfold DateTime.strftime.
  destruct (DateTime.civil_from_days (t / DateTime.us_per_second / 86400))
    as [[y m] d].
  unfold DateTime.two.
  repeat (rewrite has_char_append;
          rewrite ?of_Z_one_line;
          rewrite ?zfill_one_line by apply of_Z_one_line;
          simpl).
  apply zfill_one_line, of_Z_one_line.
Qed.

(** * One line of the verifier's article loop *)

(** A line with fewer than five commas adds no author reference. *)
Lemma article_line_few_commas st line :
  (List.length (PyStr.split "," line) < 6)%nat ->
  snd (Verify.article_line st line) = snd st.
Proof.
  intros Hlen. unfold Verify.article_line. destruct st as [ids refs].
  destruct (PyStr.startswith "(" (PyStr.strip line)); [| reflexivity].
  destruct (Verify.search Verify.paren_uuid_at line) as [[article_id rest] |];
    [| reflexivity].
  destruct (Nat.leb_spec 6 (List.length (PyStr.split "," line))) as [Hge | _];
    [lia | reflexivity].
Qed.

(** A line that does not start with a parenthesis is skipped. *)
Lemma article_line_continuation st line :
  PyStr.startswith "(" (PyStr.strip line) = false ->
  Verify.article_line st line = st.
Proof.
  intros H. unfold Verify.article_line. destruct st as [ids refs].
  rewrite H. reflexivity.
Qed.

(** * [generate_authors] returns or meets the end of the address supply *)



(** * The text [generate_sql] returns *)

Lemma append_assoc (a b c : string) : (a ++ b) ++ c = a ++ b ++ c.
Proof. induction a as [| x a IH]; simpl; [reflexivity | rewrite IH; reflexivity]. Qed.

Lemma append_nil_r (a : string) : a ++ "" = a.
Proof. induction a as [| x a IH]; simpl; [reflexivity | rewrite IH; reflexivity]. Qed.

(** An element of a joined list stands in the joined text. *)
Lemma join_element sep (before : list string) x after :
  exists p s, PyStr.join sep (before ++ x :: after) = p ++ x ++ s.
Proof.
  unfold PyStr.join. induction before as [| y before IH]; simpl.
  - destruct after as [| z after].
    + exists "", "". simpl. rewrite append_nil_r. reflexivity.
    + exists "", (sep ++ String.concat sep (z :: after)). reflexivity.
  - destruct IH as (p & s & E).
    destruct (before ++ x :: after)%list as [| z rest] eqn:El.
    + destruct before; discriminate El.
    + exists (y ++ sep ++ p), s. rewrite E.
      rewrite !append_assoc. reflexivity.
Qed.

Lemma join_member sep (l : list string) x :
  In x l -> exists p s, PyStr.join sep l = p ++ x ++ s.
Proof.
  intros Hin. apply in_split in Hin. destruct Hin as (l1 & l2 & ->).
  apply join_element.
Qed.

Lemma sql_articles_block t authors articles comments :
  exists head tail,
    PyStr.join PyStr.LF (sql_lines t authors articles comments) =
    head ++ articles_header ++ PyStr.LF ++
    PyStr.join comma_newline (map article_value articles) ++ ";" ++ tail.
Proof.
  exists (PyStr.join PyStr.LF (firstn 9 (sql_lines t authors articles comments))
          ++ PyStr.LF),
         (PyStr.LF ++
          PyStr.join PyStr.LF (skipn 11 (sql_lines t authors articles comments))).
  unfold sql_lines, articles_header.
  cbn [firstn skipn PyStr.join String.concat].
  rewrite !append_assoc. reflexivity.
Qed.

Lemma sql_comments_block t authors articles comments :
  exists head tail,
    PyStr.join PyStr.LF (sql_lines t authors articles comments) =
    head ++ comments_header ++ PyStr.LF ++
    PyStr.join comma_newline (map comment_value comments) ++ ";" ++ tail.
Proof.
  exists (PyStr.join PyStr.LF (firstn 13 (sql_lines t authors articles comments))
          ++ PyStr.LF),
         (PyStr.LF ++
          PyStr.join PyStr.LF (skipn 15 (sql_lines t authors articles comments))).
  unfold sql_lines, comments_header.
  cbn [firstn skipn PyStr.join String.concat].
  rewrite !append_assoc. reflexivity.
Qed.

(** A tuple of the second block stands in the text, after the line that
    opens the block. *)
Lemma sql_article_row t authors articles comments a :
  In a articles ->
  exists head rows_before after,
    PyStr.join PyStr.LF (sql_lines t authors articles comments) =
    head ++ articles_header ++ PyStr.LF ++ rows_before ++
    article_value a ++ after.
Proof.
  intros Hin.
  destruct (sql_articles_block t authors articles comments) as (head & tail & E).
  destruct (join_member comma_newline (map article_value articles)
              (article_value a) (in_map _ _ _ Hin)) as (p & s & Ej).
  exists head, p, (s ++ ";" ++ tail). rewrite E, Ej.
  rewrite !append_assoc. reflexivity.
Qed.

Lemma sql_comment_row t authors articles comments c :
  In c comments ->
  exists head rows_before after,
    PyStr.join PyStr.LF (sql_lines t authors articles comments) =
    head ++ comments_header ++ PyStr.LF ++ rows_before ++
    comment_value c ++ after.
Proof.
  intros Hin.
  destruct (sql_comments_block t authors articles comments) as (head & tail & E).
  destruct (join_member comma_newline (map comment_value comments)
              (comment_value c) (in_map _ _ _ Hin)) as (p & s & Ej).
  exists head, p, (s ++ ";" ++ tail). rewrite E, Ej.
  rewrite !append_assoc. reflexivity.
Qed.
(** ** Referential integrity *)

(** C1. With a non-empty pool of author ids, [generate_articles] returns
    and the [author_id] of every article it returns is an element of the
    pool; with a non-empty pool of article ids, [generate_comments]
    returns and the [article_id] of every comment it returns is an
    element of the pool. *)
Theorem references_drawn_from_pool :
  forall count published_ratio (author_ids article_ids : list string) w,
    author_ids <> [] ->
    article_ids <> [] ->
    (exists articles,
        run (generate_articles count author_ids published_ratio) w = Ok articles /\
        Forall (fun a => In (ar_author_id a) author_ids) articles) /\
    (exists comments,
        run (generate_comments count article_ids) w = Ok comments /\
        Forall (fun c => In (co_article_id c) article_ids) comments).
Proof.
  intros count ratio author_ids article_ids w Hau Har. split.
  - destruct (total_run anywhere _ _ w
                (total_generate_articles anywhere anywhere_frame count _ ratio Hau)
                Logic.I) as (l & E & _ & Hall).
    exists l. split; assumption.
  - destruct (total_run anywhere _ _ w
                (total_generate_comments anywhere anywhere_frame anywhere_email
                   count _ Har) Logic.I) as (l & E & _ & Hall).
    exists l. split; assumption.
Qed.

(** ** Record counts *)


(** ** Publication dates *)

Lemma is_published_TRUE r :
  ar_is_published (article_tuple r) = "TRUE" <-> r_is_published r = true.
Proof.
  unfold article_tuple. simpl. destruct (r_is_published r); simpl; split;
    intros H; try reflexivity; discriminate H.
Qed.

Lemma is_published_FALSE r :
  ar_is_published (article_tuple r) = "FALSE" <-> r_is_published r = false.
Proof.
  unfold article_tuple. simpl. destruct (r_is_published r); simpl; split;
    intros H; try reflexivity; discriminate H.
Qed.


(** C6. Every article returned with [is_published = FALSE] has the text
    [NULL] as its [publish_date], and in the text [generate_sql] returns
    for these articles its tuple stands in the Articles block with [NULL],
    unquoted, as the fourth field. *)
Theorem draft_publish_date_is_null :
  forall count author_ids published_ratio w articles authors comments w2,
    run (generate_articles count author_ids published_ratio) w = Ok articles ->
    exists sql,
      run (generate_sql authors articles comments) w2 = Ok sql /\
      Forall (fun a =>
        ar_is_published a = "FALSE" ->
        ar_publish_date a = "NULL" /\
        exists head rows_before after,
          sql =
            head ++ articles_header ++ PyStr.LF ++ rows_before ++
            ("('" ++ ar_uuid a ++ "', '" ++ ar_title a ++ "', '" ++
             ar_content a ++ "', NULL, FALSE, '" ++ ar_author_id a ++ "', " ++
             ar_created_at a ++ ", " ++ ar_created_at a ++ ")") ++ after)
        articles.
Proof.
  intros count author_ids ratio w articles authors comments w2 Hrun.
  exists (PyStr.join PyStr.LF
            (sql_lines (peek (clock w2)) authors articles comments)).
  split; [reflexivity |].
  assert (Hnull : Forall (fun a => ar_is_published a = "FALSE" ->
                                   ar_publish_date a = "NULL") articles).
  { apply run_ok in Hrun. destruct Hrun as [w' Hrun].
    apply generate_articles_inv in Hrun. destruct Hrun as (rounds & Hrounds & ->).
    apply Forall_map. unfold generate_articles_rounds in Hrounds.
    eapply (articles_loop_inv (fun _ => True));
      [| exact Logic.I | exact Hrounds | constructor].
    clear Hrounds. intros w1 r w3 _ Hround. split; [exact Logic.I |].
    apply article_round_inv in Hround.
    destruct Hround as (_ & _ & _ & _ & _ & _ & Hpub).
    intros Hfalse. apply is_published_FALSE in Hfalse.
    rewrite Hfalse in Hpub. destruct Hpub as [_ Hnull]. exact Hnull. }
  apply Forall_forall. intros a Hin Hfalse.
  rewrite Forall_forall in Hnull. pose proof (Hnull a Hin Hfalse) as Hdate.
  split; [exact Hdate |].
  destruct (sql_article_row (peek (clock w2)) authors articles comments a Hin)
    as (head & rows_before & after & E).
  exists head, rows_before, after. rewrite E.
  unfold article_value. rewrite Hdate, Hfalse. reflexivity.
Qed.

(** ** Escaping *)

Lemma length_append (s t : string) :
  String.length (s ++ t) = (String.length s + String.length t)%nat.
Proof. induction s as [| c s IH]; simpl; [reflexivity | rewrite IH; reflexivity]. Qed.

Lemma sql_escape_length s : (String.length s <= String.length (sql_escape s))%nat.
Proof.
  unfold sql_escape. induction s as [| c s IH]; simpl; [lia |].
  destruct (Ascii.eqb c PyStr.quote); simpl; lia.
Qed.

Lemma sql_escape_longer s :
  PyStr.has_char PyStr.quote s = true ->
  (String.length s < String.length (sql_escape s))%nat.
Proof.
  unfold sql_escape. induction s as [| c s IH]; simpl; [discriminate |].
  destruct (Ascii.eqb c PyStr.quote) eqn:Hc; simpl; intros H.
  - pose proof (sql_escape_length s) as Hle. unfold sql_escape in Hle. lia.
  - apply IH in H. lia.
Qed.

Lemma sql_escape_changes s :
  PyStr.has_char PyStr.quote s = true -> s <> sql_escape s.
Proof.
  intros H E. apply sql_escape_longer in H. rewrite <- E in H. lia.
Qed.

(** C9. The [author_email] of every returned comment is the text that
    [fake.email()] returned, unchanged, while [author_name] is the escaped
    form of what [fake.name()] returned.  In the text [generate_sql]
    returns for these comments the tuple stands in the Comments block with
    that address between quotes as it is; so the field differs from its
    escaped form whenever the address contains a single quote. *)
Theorem comment_email_not_escaped :
  forall count article_ids w comments authors articles w2,
    run (generate_comments count article_ids) w = Ok comments ->
    exists sql,
      run (generate_sql authors articles comments) w2 = Ok sql /\
      Forall (fun c =>
        exists raw_name raw_email,
          (exists i, raw_name = src (names (fake w)) i) /\
          (exists i, raw_email = src (emails (fake w)) i) /\
          co_author_name c = sql_escape raw_name /\
          co_author_email c = raw_email /\
          (exists head rows_before after,
              sql =
                head ++ comments_header ++ PyStr.LF ++ rows_before ++
                ("('" ++ co_uuid c ++ "', '" ++ co_article_id c ++ "', '" ++
                 sql_escape raw_name ++ "', '" ++ raw_email ++ "', '" ++
                 co_content c ++ "', " ++ co_comment_date c ++ ", " ++
                 co_created_at c ++ ")") ++ after) /\
          (PyStr.has_char PyStr.quote raw_email = true ->
           co_author_email c <> sql_escape raw_email)) comments.
Proof.
  intros count article_ids w comments authors articles w2 Hrun.
  exists (PyStr.join PyStr.LF
            (sql_lines (peek (clock w2)) authors articles comments)).
  split; [reflexivity |].
  assert (Hraw : Forall (fun c =>
             exists raw_name raw_email,
               (exists i, raw_name = src (names (fake w)) i) /\
               (exists i, raw_email = src (emails (fake w)) i) /\
               co_author_name c = sql_escape raw_name /\
               co_author_email c = raw_email) comments).
  { apply run_ok in Hrun. destruct Hrun as [w' Hrun].
    unfold generate_comments in Hrun.
    eapply (comments_loop_inv
              (fun w1 => src (emails (fake w1)) = src (emails (fake w)) /\
                         src (names (fake w1)) = src (names (fake w))));
      [| split; reflexivity | exact Hrun | constructor].
    clear Hrun. intros w1 c w3 [He Hn] Hround.
    apply comment_round_inv in Hround.
    destruct Hround as (_ & Hemail & Hname & He' & Hn').
    split; [split; congruence |].
    exists (src (names (fake w)) (pos (names (fake w1)))),
           (src (emails (fake w)) (pos (emails (fake w1)))).
    rewrite He in Hemail. rewrite Hn in Hname.
    repeat split; try assumption; eexists; reflexivity. }
  apply Forall_forall. intros c Hin.
  rewrite Forall_forall in Hraw.
  destruct (Hraw c Hin) as (raw_name & raw_email & Hn & He & Hname & Hemail).
  exists raw_name, raw_email.
  split; [exact Hn |]. split; [exact He |]. split; [exact Hname |].
  split; [exact Hemail |]. split.
  - destruct (sql_comment_row (peek (clock w2)) authors articles comments c Hin)
      as (head & rows_before & after & E).
    exists head, rows_before, after. rewrite E.
    unfold comment_value. rewrite Hname, Hemail. reflexivity.
  - intros Hq. rewrite Hemail. apply sql_escape_changes. exact Hq.
Qed.

(** ** The serializer and the clock *)

(** C10. For given collections the text [generate_sql] returns is the
    same in every world but for the reading of the clock printed on the
    line [-- Generated at:], and that reading is printed without a line
    break: two calls differ in that one line at most. *)
Theorem sql_text_varies_only_in_generated_at :
  forall authors articles comments,
    exists rest,
      forall w,
        run (generate_sql authors articles comments) w =
        Ok ("-- Generated SQL INSERT statements" ++ PyStr.LF ++
            "-- Generated at: " ++ DateTime.strftime (peek (clock w)) ++
            PyStr.LF ++ rest) /\
        PyStr.has_char PyStr.newline (DateTime.strftime (peek (clock w))) = false.
Proof.
  intros authors articles comments.
  exists (PyStr.join PyStr.LF (skipn 2 (sql_lines 0 authors articles comments))).
  intros w. split; [reflexivity | apply strftime_one_line].
Qed.

(** ** Validation in [main] *)

Lemma reject_run (cond : bool) msg (k : M unit) w :
  cond = true ->
  bind (Main.reject_if cond msg) (fun _ => k) w =
  (Raise (SystemExit 1), set_stderr (stderr w ++ msg ++ PyStr.LF) w).
Proof. intros ->. reflexivity. Qed.

Lemma accept_run (cond : bool) msg (k : M unit) w :
  cond = false -> bind (Main.reject_if cond msg) (fun _ => k) w = k w.
Proof. intros ->. reflexivity. Qed.

(** C7. For an invalid configuration [main] prints one message on the
    standard error and exits with status 1; nothing else in the world has
    changed: no random value was drawn, the clock was not read, and
    nothing was written to the standard output or to a file. *)
Theorem invalid_configuration_rejected :
  forall args w,
    invalid args ->
    exists message,
      Main.main args w =
      (Raise (SystemExit 1), set_stderr (stderr w ++ message ++ PyStr.LF) w) /\
      1 <> 0.
Proof.
  intros args w Hinv.
  assert (Hval : exists message,
             Main.validate args w =
             (Raise (SystemExit 1), set_stderr (stderr w ++ message ++ PyStr.LF) w)).
  { unfold Main.validate.
    destruct (Main.authors args <? 1) eqn:E1.
    { eexists. apply reject_run. reflexivity. }
    rewrite accept_run by reflexivity.
    destruct (Main.articles args <? 1) eqn:E2.
    { eexists. apply reject_run. reflexivity. }
    rewrite accept_run by reflexivity.
    destruct (Main.comments args <? 1) eqn:E3.
    { eexists. apply reject_run. reflexivity. }
    rewrite accept_run by reflexivity.
    destruct (Main.ratio_in_range (Main.published_ratio args)) eqn:E4.
    { exfalso. apply Z.ltb_ge in E1, E2, E3.
      destruct Hinv as [H | [H | [H | H]]]; try lia. congruence. }
    eexists. reflexivity. }
  destruct Hval as [message Hval]. exists message. split; [| discriminate].
  unfold Main.main. apply bind_raise. exact Hval.
Qed.

(** * The concrete worlds *)

Lemma to_int_nonnil z : Z.to_int z <> Decimal.Pos Decimal.Nil /\
                        Z.to_int z <> Decimal.Neg Decimal.Nil.
Proof.
  destruct z as [| p | p]; simpl; split; intros E; try discriminate E;
    injection E as E; exact (DecimalPos.Unsigned.to_uint_nonnil p E).
Qed.

Lemma of_Z_inj a b : PyStr.of_Z a = PyStr.of_Z b -> a = b.
Proof.
  unfold PyStr.of_Z. intros H. apply DecimalZ.to_int_inj.
  apply (f_equal NilZero.int_of_string) in H.
  destruct (to_int_nonnil a) as [Ha1 Ha2], (to_int_nonnil b) as [Hb1 Hb2].
  rewrite !NilZero.isi in H by assumption.
  injection H as H. exact H.
Qed.

Lemma of_nat_inj a b : PyStr.of_nat a = PyStr.of_nat b -> a = b.
Proof. unfold PyStr.of_nat. intros H. apply of_Z_inj in H. lia. Qed.

Lemma append_inv_tail (t : string) : forall s s', s ++ t = s' ++ t -> s = s'.
Proof.
  induction s as [| c s IH]; intros [| c' s'] H; simpl in H.
  - reflexivity.
  - exfalso. apply (f_equal String.length) in H. simpl in H.
    rewrite length_append in H. lia.
  - exfalso. apply (f_equal String.length) in H. simpl in H.
    rewrite length_append in H. lia.
  - injection H as -> H. f_equal. apply IH. exact H.
Qed.

Lemma base_email_inj i j : Demo.base_email i = Demo.base_email j -> i = j.
Proof.
  unfold Demo.base_email. intros H. injection H as H.
  apply append_inv_tail in H. apply of_nat_inj. exact H.
Qed.

Lemma demo_fresh_emails salt : fresh_emails (Demo.world salt).
Proof.
  split; simpl.
  - intros i j _ Hij E. apply base_email_inj in E. lia.
  - intros i _ [].
Qed.

Lemma demo_clock_monotone salt : clock_monotone (Demo.world salt).
Proof.
  intros i j Hij. simpl. unfold Demo.clock_reading. lia.
Qed.

(** * The statements on concrete inputs *)

Lemma references_drawn_from_pool_witness :
  Demo.pool <> [] /\
  (exists articles,
      run (generate_articles 4 Demo.pool 0.5%float) (Demo.world 1) = Ok articles /\
      Forall (fun a => In (ar_author_id a) Demo.pool) articles) /\
  (exists comments,
      run (generate_comments 4 Demo.pool) (Demo.world 1) = Ok comments /\
      Forall (fun c => In (co_article_id c) Demo.pool) comments).
Proof.
  assert (H : Demo.pool <> []) by discriminate.
  split; [exact H |].
  exact (references_drawn_from_pool 4 0.5%float Demo.pool Demo.pool (Demo.world 1) H H).
Defined.





Lemma draft_publish_date_is_null_witness :
  run (generate_articles 4 Demo.pool 0.5%float) (Demo.world 1) =
    Ok (Demo.some_articles 0.5%float) /\
  exists sql,
    run (generate_sql Demo.some_authors (Demo.some_articles 0.5%float)
           Demo.some_comments) (Demo.world 1) = Ok sql /\
    Forall (fun a =>
      ar_is_published a = "FALSE" ->
      ar_publish_date a = "NULL" /\
      exists head rows_before after,
        sql =
          head ++ articles_header ++ PyStr.LF ++ rows_before ++
          ("('" ++ ar_uuid a ++ "', '" ++ ar_title a ++ "', '" ++
           ar_content a ++ "', NULL, FALSE, '" ++ ar_author_id a ++ "', " ++
           ar_created_at a ++ ", " ++ ar_created_at a ++ ")") ++ after)
      (Demo.some_articles 0.5%float).
Proof.
  assert (H : run (generate_articles 4 Demo.pool 0.5%float) (Demo.world 1) =
              Ok (Demo.some_articles 0.5%float)) by (vm_compute; reflexivity).
  split; [exact H |].
  exact (draft_publish_date_is_null 4 Demo.pool 0.5%float (Demo.world 1) _
           Demo.some_authors Demo.some_comments (Demo.world 1) H).
Defined.

Lemma invalid_configuration_rejected_witness :
  invalid Demo.no_authors /\
  exists message,
    Main.main Demo.no_authors (Demo.world 1) =
    (Raise (SystemExit 1),
     set_stderr (stderr (Demo.world 1) ++ message ++ PyStr.LF) (Demo.world 1)) /\
    1 <> 0.
Proof.
  assert (H : invalid Demo.no_authors) by (left; simpl; lia).
  split; [exact H |].
  exact (invalid_configuration_rejected Demo.no_authors (Demo.world 1) H).
Defined.

Lemma comment_email_not_escaped_witness :
  run (generate_comments 3 Demo.pool) Demo.apostrophe_world = Ok Demo.some_comments /\
  exists sql,
    run (generate_sql Demo.some_authors (Demo.some_articles 0.5%float)
           Demo.some_comments) (Demo.world 1) = Ok sql /\
    Forall (fun c =>
      exists raw_name raw_email,
        (exists i, raw_name = src (names (fake Demo.apostrophe_world)) i) /\
        (exists i, raw_email = src (emails (fake Demo.apostrophe_world)) i) /\
        co_author_name c = sql_escape raw_name /\
        co_author_email c = raw_email /\
        (exists head rows_before after,
            sql =
              head ++ comments_header ++ PyStr.LF ++ rows_before ++
              ("('" ++ co_uuid c ++ "', '" ++ co_article_id c ++ "', '" ++
               sql_escape raw_name ++ "', '" ++ raw_email ++ "', '" ++
               co_content c ++ "', " ++ co_comment_date c ++ ", " ++
               co_created_at c ++ ")") ++ after) /\
        (PyStr.has_char PyStr.quote raw_email = true ->
         co_author_email c <> sql_escape raw_email)) Demo.some_comments.
Proof.
  assert (H : run (generate_comments 3 Demo.pool) Demo.apostrophe_world =
              Ok Demo.some_comments) by (vm_compute; reflexivity).
  split; [exact H |].
  exact (comment_email_not_escaped 3 Demo.pool Demo.apostrophe_world _
           Demo.some_authors (Demo.some_articles 0.5%float) (Demo.world 1) H).
Defined.

(** A tuple of the comment block in the world whose addresses carry an
    apostrophe: the name is escaped, the address is not. *)
Example apostrophe_in_comment_tuple :
  map comment_value (firstn 2 (skipn 1 Demo.some_comments)) =
  [ "('3c6ef372-fe94-482b-a739-80c0b9db906a', '9e3779b9-7f4a-4c15-b39c-c0605cedc835', 'Pat O''Neil', 'pat.o'neil1@example.com', 'Quia dolor 20 sit.', '2025-09-27 09:53:20', '2025-09-27 09:53:20')";
    "('daa66d2c-7ddf-4441-9ad6-412116c9589f', '3c6ef372-fe94-482b-a739-80c0b9db906a', 'Lee Marsh', 'pat.o'neil2@example.com', 'Could you elaborate on...?', '2025-09-06 09:53:20', '2025-09-06 09:53:20')" ].
Proof. vm_compute. reflexivity. Qed.

(** ** Where the code departs from the specification *)

(** C4. Three authors in a world whose provider keeps returning a user
    name that is taken: the second and the third author both get the
    fallback name built from the first eight digits of a fresh UUID, and
    these digits are the same; the fallback is never compared with the
    names in use. *)
Theorem fallback_username_repeats :
  run (generate_authors 3) Demo.crowded_world = Ok Demo.crowded_authors /\
  map au_username Demo.crowded_authors =
    ["alex"; "user_00000000"; "user_00000000"] /\
  map au_uuid Demo.crowded_authors =
    ["00000000-0000-4000-8000-000000000000";
     "00000000-0000-4000-8000-000000000002";
     "00000000-0000-4000-8000-000000000004"] /\
  ~ NoDup (map au_username Demo.crowded_authors).
Proof.
  assert (Hnames : map au_username Demo.crowded_authors =
                   ["alex"; "user_00000000"; "user_00000000"])
    by (vm_compute; reflexivity).
  split; [vm_compute; reflexivity |]. split; [exact Hnames |].
  split; [vm_compute; reflexivity |].
  rewrite Hnames. intros Hnd. inversion Hnd as [| x l _ Hnd']; subst.
  inversion Hnd' as [| y l' Hnotin _]; subst.
  apply Hnotin. left. reflexivity.
Qed.

(** C2. Two runs of [main] on the same command line, seed 42 included,
    in two worlds that agree on the seeded provider, on the [random]
    module and on the clock and differ only in the entropy behind
    [uuid4]: the SQL texts differ. *)
Theorem same_seed_different_sql :
  Main.seed Demo.scenario = Some 42 /\
  faker_seeded (Demo.world 1) = faker_seeded (Demo.world 2) /\
  rng (Demo.world 1) = rng (Demo.world 2) /\
  rng_unit (Demo.world 1) = rng_unit (Demo.world 2) /\
  clock (Demo.world 1) = clock (Demo.world 2) /\
  run (Main.main Demo.scenario) (Demo.world 1) = Ok tt /\
  run (Main.main Demo.scenario) (Demo.world 2) = Ok tt /\
  Demo.scenario_sql 1 <> Demo.scenario_sql 2.
Proof.
  repeat split; try reflexivity; try (vm_compute; reflexivity).
  apply String.eqb_neq. vm_compute. reflexivity.
Qed.

(** C3. The verifier on the SQL text of the scenario
    [authors=3, articles=5, comments=10, seed=42, published_ratio=1.0]:
    it finds the five articles and reports no violation, but it extracts
    the author reference of none of them, since the sixth field of a
    tuple is not on the line the tuple starts on. *)
Theorem verifier_extracts_no_article_author :
  Verify.extract_uuids_from_sql (Demo.scenario_sql 1) =
    ([ "Found 3 authors";
       "Found 5 articles";
       "✓ All 0 articles reference valid authors";
       "Found 10 comments";
       "✓ All 10 comments reference valid articles";
       PyStr.LF ++ "✅ All referential integrity checks passed!" ], true) /\
  List.length (fst (Verify.articles_of (Demo.scenario_sql 1))) = 5%nat /\
  snd (Verify.articles_of (Demo.scenario_sql 1)) = [].
Proof.
  repeat split; vm_compute; reflexivity.
Qed.

(** * More on [generate_authors] *)

Lemma author_emails_distinct_witness :
  run (generate_authors 3) (Demo.world 1) = Ok Demo.some_authors /\
  NoDup (map au_email Demo.some_authors).
Proof.
  assert (H : run (generate_authors 3) (Demo.world 1) = Ok Demo.some_authors)
    by (vm_compute; reflexivity).
  split; [exact H | exact (author_emails_distinct 3 (Demo.world 1) _ H)].
Defined.

Lemma set_add_in x s l : In x (set_add s l) <-> x = s \/ In x l.
Proof.
  unfold set_add. destruct (mem s l) eqn:E.
  - apply mem_true in E. split; [intros H; right; exact H |].
    intros [-> | H]; assumption.
  - split.
    + intros H. apply in_app_or in H. destruct H as [H | [<- | []]]; auto.
    + intros [-> | H]; apply in_or_app; [right; left; reflexivity | left; exact H].
Qed.

Lemma username_loop_result fuel : forall usernames username attempts w u w',
  username_loop fuel usernames username attempts w = (Ok u, w') ->
  ~ In u usernames \/ is_fallback u.
Proof.
  induction fuel as [| fuel IH]; intros usernames username attempts w u w' H.
  - simpl in H.
    assert (Hfb : forall w0,
               (x <- uuid4 ;; ret ("user_" ++ PyStr.take 8 (UUID.hex x))) w0 = (Ok u, w') ->
               is_fallback u).
    { intros w0 H0. bind_inv H0. apply ret_inv in H0. destruct H0 as [-> _].
      eexists; reflexivity. }
    destruct (attempts >? 100).
    + destruct username as [x |]; [destruct (mem x usernames) eqn:E |];
        try (right; eapply Hfb; exact H).
      apply ret_inv in H. destruct H as [-> _]. left. apply mem_false. exact E.
    + destruct username as [x |]; [destruct (mem x usernames) eqn:E |];
        try discriminate H.
      apply ret_inv in H. destruct H as [-> _]. left. apply mem_false. exact E.
  - simpl in H.
    assert (Hagain : forall w0,
               (if attempts >? 100
                then x <- uuid4 ;; ret ("user_" ++ PyStr.take 8 (UUID.hex x))
                else n <- fake_user_name ;;
                     username_loop fuel usernames
                       (Some (PyStr.replace " " "_" (PyStr.lower n)))
                       (attempts + 1)) w0 = (Ok u, w') ->
               ~ In u usernames \/ is_fallback u).
    { intros w0 H0. destruct (attempts >? 100).
      - bind_inv H0. apply ret_inv in H0. destruct H0 as [-> _].
        right. eexists; reflexivity.
      - bind_inv H0. eapply IH. exact H0. }
    destruct username as [x |]; [destruct (mem x usernames) eqn:E |];
      try (eapply Hagain; exact H).
    apply ret_inv in H. destruct H as [-> _]. left. apply mem_false. exact E.
Qed.

Lemma repeats_are_fallback_snoc names x :
  repeats_are_fallback names ->
  (In x names -> is_fallback x) ->
  repeats_are_fallback (names ++ [x]).
Proof.
  intros Hnames Hx before y after E Hin.
  destruct after as [| z after'] using rev_ind.
  - apply app_inj_tail in E. destruct E as [-> ->]. apply Hx. exact Hin.
  - clear IHafter'.
    change (before ++ y :: after' ++ [z])%list
      with (before ++ (y :: after') ++ [z])%list in E.
    rewrite app_assoc in E. apply app_inj_tail in E. destruct E as [-> _].
    eapply Hnames; [reflexivity | exact Hin].
Qed.

Lemma authors_loop_usernames n : forall usernames acc w l w',
  authors_loop n usernames acc w = (Ok l, w') ->
  repeats_are_fallback (map au_username acc) ->
  (forall x, In x (map au_username acc) -> In x usernames) ->
  repeats_are_fallback (map au_username l).
Proof.
  induction n as [| n IH]; intros usernames acc w l w' H Hrep Hincl.
  - apply ret_inv in H. destruct H as [-> _]. exact Hrep.
  - rewrite authors_loop_S in H.
    bind_inv H. apply username_loop_result in Hm. rename Hm into Hname.
    bind_inv H. clear Hm. bind_inv H. clear Hm. bind_inv H. clear Hm.
    eapply IH; [exact H | |].
    + rewrite map_app. simpl. apply repeats_are_fallback_snoc; [exact Hrep |].
      intros Hin. destruct Hname as [Hnew | Hfb]; [| exact Hfb].
      exfalso. apply Hnew. apply Hincl. exact Hin.
    + intros x Hx. rewrite map_app in Hx. apply set_add_in.
      apply in_app_or in Hx. destruct Hx as [Hx | [<- | []]].
      * right. apply Hincl. exact Hx.
      * left. reflexivity.
Qed.

(** X2. Among the authors [generate_authors] returns, a user name that
    repeats the name of an earlier author is a fallback name: names taken
    from the provider never collide with one another nor with an earlier
    fallback. *)
Theorem repeated_usernames_are_fallbacks :
  forall count w authors,
    run (generate_authors count) w = Ok authors ->
    forall before a after,
      authors = (before ++ a :: after)%list ->
      In (au_username a) (map au_username before) ->
      is_fallback (au_username a).
Proof.
  intros count w authors H before a after E Hin.
  apply run_ok in H. destruct H as [w' H]. unfold generate_authors in H.
  assert (Hrep : repeats_are_fallback (map au_username authors)).
  { eapply authors_loop_usernames; [exact H | | intros x []].
    intros b x af Eb. destruct b; discriminate Eb. }
  apply (Hrep (map au_username before) (au_username a) (map au_username after)).
  - rewrite E, map_app. reflexivity.
  - exact Hin.
Qed.

Lemma repeated_usernames_are_fallbacks_witness :
  run (generate_authors 3) Demo.crowded_world = Ok Demo.crowded_authors /\
  Demo.crowded_authors =
    (firstn 2 Demo.crowded_authors ++
     nth 2 Demo.crowded_authors (mkAuthor "" "" "" "") :: [])%list /\
  In (au_username (nth 2 Demo.crowded_authors (mkAuthor "" "" "" "")))
     (map au_username (firstn 2 Demo.crowded_authors)) /\
  is_fallback (au_username (nth 2 Demo.crowded_authors (mkAuthor "" "" "" ""))).
Proof.
  assert (H : run (generate_authors 3) Demo.crowded_world = Ok Demo.crowded_authors)
    by (vm_compute; reflexivity).
  assert (E : Demo.crowded_authors =
              (firstn 2 Demo.crowded_authors ++
               nth 2 Demo.crowded_authors (mkAuthor "" "" "" "") :: [])%list)
    by (vm_compute; reflexivity).
  assert (Hin : In (au_username (nth 2 Demo.crowded_authors (mkAuthor "" "" "" "")))
                   (map au_username (firstn 2 Demo.crowded_authors)))
    by (vm_compute; right; left; reflexivity).
  split; [exact H |]. split; [exact E |]. split; [exact Hin |].
  exact (repeated_usernames_are_fallbacks 3 Demo.crowded_world _ H _ _ _ E Hin).
Defined.

(** * More on [generate_articles] and [generate_comments] *)

Lemma fake_paragraphs_n_units n : forall w ps w',
  fake_paragraphs_n n w = (Ok ps, w') ->
  rng_unit w' = rng_unit w /\ List.length ps = n.
Proof.
  induction n as [| n IH]; simpl; intros w ps w' H.
  - apply ret_inv in H. destruct H as [-> ->]. split; reflexivity.
  - bind_inv H. unfold fake_paragraph in Hm. inversion Hm; subst; clear Hm.
    bind_inv H. apply IH in Hm. apply ret_inv in H. destruct H as [-> ->].
    destruct Hm as [Hu Hl]. split; [exact Hu | simpl; congruence].
Qed.

(** The draw that decides publication, and the texts of a round. *)
Lemma article_round_draw pool ratio w r w' :
  article_round pool ratio w = (Ok r, w') ->
  src (rng_unit w') = src (rng_unit w) /\
  r_is_published r =
    PrimFloat.ltb (src (rng_unit w) (pos (rng_unit w))) ratio /\
  (exists topic, In topic topics /\ In (r_title r) (title_patterns topic)) /\
  (exists paragraphs,
      (3 <= List.length paragraphs <= 8)%nat /\
      r_content r = sql_escape (PyStr.join (PyStr.LF ++ PyStr.LF) paragraphs)).
Proof.
  unfold article_round. intros H.
  bind_inv H. apply uuid4_inv in Hm. destruct Hm as [-> ->].
  bind_inv H. apply choice_inv in Hm. destruct Hm as [_ ->].
  bind_inv H. apply choice_inv in Hm. destruct Hm as [Htopic ->].
  bind_inv H. apply choice_inv in Hm. destruct Hm as [Htitle ->].
  bind_inv H. apply randint_inv in Hm. destruct Hm as [Hnp ->].
  bind_inv H.
  apply fake_paragraphs_n_units in Hm. destruct Hm as [Hunits Hlen].
  bind_inv H. apply random_inv in Hm. destruct Hm as [-> ->].
  bind_inv H. apply randint_inv in Hm. destruct Hm as [_ ->].
  bind_inv H. apply now_inv in Hm. destruct Hm as [-> ->].
  bind_inv H.
  lazymatch type of Hm with
  | _ = (Ok _, ?wl) => assert (Hw : src (rng_unit wl) = src (rng_unit w))
  end.
  { destruct (PrimFloat.ltb _ ratio).
    - bind_inv Hm. apply randint_inv in Hm0. destruct Hm0 as [_ ->].
      bind_inv Hm. apply now_inv in Hm0. destruct Hm0 as [-> ->].
      apply ret_inv in Hm. destruct Hm as [_ ->]. cbn. rewrite Hunits. reflexivity.
    - apply ret_inv in Hm. destruct Hm as [_ ->]. cbn. rewrite Hunits. reflexivity. }
  apply ret_inv in H. destruct H as [-> ->].
  cbn [r_is_published r_title r_content].
  split; [exact Hw |]. split.
  - cbn. rewrite Hunits. reflexivity.
  - split.
    + eexists. split; eassumption.
    + eexists. split; [| reflexivity]. lia.
Qed.

(** ** Publication ratio 0 and 1 *)

Lemma leb_zero_not_ltb x :
  PrimFloat.leb 0%float x = true -> PrimFloat.ltb x 0%float = false.
Proof.
  rewrite FloatAxioms.leb_spec, FloatAxioms.ltb_spec.
  change (Prim2SF 0%float) with (SpecFloat.S754_zero false).
  destruct (Prim2SF x) as [s | s | | s m e]; simpl; try destruct s; simpl;
    intros H; try reflexivity; discriminate H.
Qed.

(** X3. When [random.random()] returns floats of [0, 1): with
    [published_ratio = 0.0] no returned article is published and every
    [publish_date] is [NULL]; with [published_ratio = 1.0] every returned
    article is published and has a quoted publish date. *)
Theorem published_ratio_extremes :
  forall count author_ids w drafts published,
    unit_interval w ->
    run (generate_articles count author_ids 0%float) w = Ok drafts ->
    run (generate_articles count author_ids 1%float) w = Ok published ->
    Forall (fun a => ar_is_published a = "FALSE" /\ ar_publish_date a = "NULL")
           drafts /\
    Forall (fun a => ar_is_published a = "TRUE" /\
                     exists t, ar_publish_date a = quoted (DateTime.strftime t))
           published.
Proof.
  intros count author_ids w drafts published Hunit H0 H1. split.
  - apply run_ok in H0. destruct H0 as [w' H0].
    apply generate_articles_inv in H0. destruct H0 as (rounds & Hrounds & ->).
    apply Forall_map. unfold generate_articles_rounds in Hrounds.
    eapply (articles_loop_inv (fun w1 => src (rng_unit w1) = src (rng_unit w)));
      [| reflexivity | exact Hrounds | constructor].
    clear Hrounds. intros w1 r w2 Hsrc Hround.
    pose proof (article_round_draw _ _ _ _ _ Hround) as (Hsrc' & Hpub & _).
    apply article_round_inv in Hround.
    destruct Hround as (_ & _ & _ & _ & _ & _ & Hdate).
    split; [congruence |].
    rewrite Hsrc in Hpub.
    rewrite (leb_zero_not_ltb _ (proj1 (Hunit _))) in Hpub.
    rewrite Hpub in Hdate. destruct Hdate as [_ Hnull].
    split; [apply is_published_FALSE; exact Hpub | exact Hnull].
  - apply run_ok in H1. destruct H1 as [w' H1].
    apply generate_articles_inv in H1. destruct H1 as (rounds & Hrounds & ->).
    apply Forall_map. unfold generate_articles_rounds in Hrounds.
    eapply (articles_loop_inv (fun w1 => src (rng_unit w1) = src (rng_unit w)));
      [| reflexivity | exact Hrounds | constructor].
    clear Hrounds. intros w1 r w2 Hsrc Hround.
    pose proof (article_round_draw _ _ _ _ _ Hround) as (Hsrc' & Hpub & _).
    apply article_round_inv in Hround.
    destruct Hround as (_ & _ & _ & _ & _ & _ & Hdate).
    split; [congruence |].
    rewrite Hsrc in Hpub. rewrite (proj2 (Hunit _)) in Hpub.
    rewrite Hpub in Hdate. destruct Hdate as (p & _ & _ & Hstr).
    split; [apply is_published_TRUE; exact Hpub |].
    eexists. exact Hstr.
Qed.

Lemma demo_unit_interval salt : unit_interval (Demo.world salt).
Proof.
  intros i. simpl. destruct (Nat.even i); split; vm_compute; reflexivity.
Qed.

Lemma published_ratio_extremes_witness :
  unit_interval (Demo.world 1) /\
  run (generate_articles 4 Demo.pool 0%float) (Demo.world 1) =
    Ok (Demo.some_articles 0%float) /\
  run (generate_articles 4 Demo.pool 1%float) (Demo.world 1) =
    Ok (Demo.some_articles 1%float) /\
  Forall (fun a => ar_is_published a = "FALSE" /\ ar_publish_date a = "NULL")
         (Demo.some_articles 0%float) /\
  Forall (fun a => ar_is_published a = "TRUE" /\
                   exists t, ar_publish_date a = quoted (DateTime.strftime t))
         (Demo.some_articles 1%float).
Proof.
  assert (H0 : run (generate_articles 4 Demo.pool 0%float) (Demo.world 1) =
               Ok (Demo.some_articles 0%float)) by (vm_compute; reflexivity).
  assert (H1 : run (generate_articles 4 Demo.pool 1%float) (Demo.world 1) =
               Ok (Demo.some_articles 1%float)) by (vm_compute; reflexivity).
  split; [exact (demo_unit_interval 1) |]. split; [exact H0 |]. split; [exact H1 |].
  exact (published_ratio_extremes 4 Demo.pool (Demo.world 1) _ _
           (demo_unit_interval 1) H0 H1).
Defined.

(** * Escaped texts *)

Lemma quotes_paired_escape s : quotes_paired (sql_escape s) = true.
Proof.
  unfold sql_escape. induction s as [| c s IH]; [reflexivity |].
  simpl PyStr.replace. destruct (Ascii.eqb c PyStr.quote) eqn:Hc.
  - exact IH.
  - simpl. rewrite Hc. exact IH.
Qed.

(** X5. Escaping loses nothing: two texts with the same escaped form are
    the same text. *)
Theorem sql_escape_injective :
  forall s t, sql_escape s = sql_escape t -> s = t.
Proof.
  unfold sql_escape. induction s as [| c s IH]; intros [| d t] H.
  - reflexivity.
  - simpl in H. destruct (Ascii.eqb d PyStr.quote); discriminate H.
  - simpl in H. destruct (Ascii.eqb c PyStr.quote); discriminate H.
  - simpl in H.
    destruct (Ascii.eqb_spec c PyStr.quote) as [-> | Hc],
             (Ascii.eqb_spec d PyStr.quote) as [-> | Hd].
    + injection H as H. f_equal. apply IH. exact H.
    + injection H as H _. exfalso. apply Hd. symmetry. exact H.
    + injection H as H _. exfalso. apply Hc. exact H.
    + injection H as -> H. f_equal. apply IH. exact H.
Qed.

Lemma sql_escape_injective_witness :
  sql_escape "Pat O'Neil" = sql_escape (Demo.base_name 1) /\
  "Pat O'Neil" = Demo.base_name 1.
Proof.
  assert (H : sql_escape "Pat O'Neil" = sql_escape (Demo.base_name 1))
    by (vm_compute; reflexivity).
  split; [exact H | exact (sql_escape_injective _ _ H)].
Defined.


Lemma title_has_no_quote topic title :
  In topic topics -> In title (title_patterns topic) ->
  sql_escape title = title.
Proof.
  intros Htopic Htitle. unfold topics in Htopic.
  repeat (destruct Htopic as [<- | Htopic];
          [ unfold title_patterns in Htitle;
            repeat (destruct Htitle as [<- | Htitle]; [reflexivity |]);
            destruct Htitle |]).
  destruct Htopic.
Qed.

Lemma comment_round_texts pool w c w' :
  comment_round pool w = (Ok c, w') ->
  exists raw, co_content c = sql_escape raw.
Proof.
  unfold comment_round. intros H.
  bind_inv H. clear Hm. bind_inv H. clear Hm. bind_inv H. clear Hm.
  bind_inv H. clear Hm. bind_inv H. clear Hm. bind_inv H. clear Hm.
  bind_inv H. clear Hm. bind_inv H. clear Hm.
  apply ret_inv in H. destruct H as [-> _]. eexists. reflexivity.
Qed.

(** X4. In every article the generator returns, the title is one of the
    titles of the catalog, unchanged by escaping, and title and content have
    their single quotes in pairs; in every comment it returns, so have
    [author_name] and [content]: these four fields can stand between the
    quotes of an SQL literal. *)
Theorem escaped_fields_are_literals :
  forall n author_ids published_ratio m article_ids w1 w2 articles comments,
    run (generate_articles n author_ids published_ratio) w1 = Ok articles ->
    run (generate_comments m article_ids) w2 = Ok comments ->
    Forall (fun a =>
      (exists topic, In topic topics /\ In (ar_title a) (title_patterns topic)) /\
      quotes_paired (ar_title a) = true /\
      quotes_paired (ar_content a) = true) articles /\
    Forall (fun c =>
      quotes_paired (co_author_name c) = true /\
      quotes_paired (co_content c) = true) comments.
Proof.
  intros n author_ids ratio m article_ids w1 w2 articles comments Ha Hc. split.
  - apply run_ok in Ha. destruct Ha as [w' Ha].
    apply generate_articles_inv in Ha. destruct Ha as (rounds & Hrounds & ->).
    apply Forall_map. unfold generate_articles_rounds in Hrounds.
    eapply (articles_loop_inv (fun _ => True));
      [| exact Logic.I | exact Hrounds | constructor].
    clear Hrounds. intros wa r wb _ Hround. split; [exact Logic.I |].
    apply article_round_draw in Hround.
    destruct Hround as (_ & _ & (topic & Htopic & Htitle) & (ps & _ & Hcontent)).
    change (ar_title (article_tuple r)) with (sql_escape (r_title r)).
    change (ar_content (article_tuple r)) with (r_content r).
    split.
    { exists topic. rewrite (title_has_no_quote topic (r_title r) Htopic Htitle).
      split; assumption. }
    split.
    + apply quotes_paired_escape.
    + rewrite Hcontent. apply quotes_paired_escape.
  - apply run_ok in Hc. destruct Hc as [w' Hc]. unfold generate_comments in Hc.
    eapply (comments_loop_inv (fun _ => True));
      [| exact Logic.I | exact Hc | constructor].
    clear Hc. intros wa c wb _ Hround. split; [exact Logic.I |].
    pose proof (comment_round_texts _ _ _ _ Hround) as [raw Hraw].
    apply comment_round_inv in Hround. destruct Hround as (_ & _ & Hname & _).
    split.
    + rewrite Hname. apply quotes_paired_escape.
    + rewrite Hraw. apply quotes_paired_escape.
Qed.

Lemma escaped_fields_are_literals_witness :
  run (generate_articles 4 Demo.pool 0.5%float) (Demo.world 1) =
    Ok (Demo.some_articles 0.5%float) /\
  run (generate_comments 3 Demo.pool) Demo.apostrophe_world = Ok Demo.some_comments /\
  Forall (fun a =>
    (exists topic, In topic topics /\ In (ar_title a) (title_patterns topic)) /\
    quotes_paired (ar_title a) = true /\
    quotes_paired (ar_content a) = true) (Demo.some_articles 0.5%float) /\
  Forall (fun c =>
    quotes_paired (co_author_name c) = true /\
    quotes_paired (co_content c) = true) Demo.some_comments.
Proof.
  assert (Ha : run (generate_articles 4 Demo.pool 0.5%float) (Demo.world 1) =
               Ok (Demo.some_articles 0.5%float)) by (vm_compute; reflexivity).
  assert (Hc : run (generate_comments 3 Demo.pool) Demo.apostrophe_world =
               Ok Demo.some_comments) by (vm_compute; reflexivity).
  split; [exact Ha |]. split; [exact Hc |].
  exact (escaped_fields_are_literals 4 Demo.pool 0.5%float 3 Demo.pool
           (Demo.world 1) Demo.apostrophe_world _ _ Ha Hc).
Defined.

(** * The generator's ids and the verifier's patterns *)

Lemma hex_digit_is_uuid_char d :
  (d < 16)%N -> Verify.is_uuid_char (UUID.hex_digit d) = true.
Proof.
  intros Hd. destruct d as [| p]; [reflexivity |].
  destruct p as [p | p |]; [| | reflexivity];
    (destruct p as [p | p |]; [| | reflexivity]);
    (destruct p as [p | p |]; [| | reflexivity]);
    (destruct p as [p | p |]; [| | reflexivity]);
    exfalso; lia.
Qed.

Lemma all_uuid_chars_append s t :
  all_uuid_chars (s ++ t) = (all_uuid_chars s && all_uuid_chars t)%bool.
Proof.
  induction s as [| c s IH]; simpl; [reflexivity |].
  rewrite IH. apply Bool.andb_assoc.
Qed.

Lemma hex_digits_shape n : forall x,
  String.length (UUID.hex_digits n x) = n /\
  all_uuid_chars (UUID.hex_digits n x) = true.
Proof.
  induction n as [| n IH]; intros x; simpl; [split; reflexivity |].
  destruct (IH (N.div x 16)) as [Hlen Hall].
  rewrite length_append, all_uuid_chars_append, Hlen, Hall. simpl. split; [lia |].
  rewrite hex_digit_is_uuid_char; [reflexivity |].
  apply N.mod_lt. discriminate.
Qed.

Lemma substring_shape : forall s a b,
  all_uuid_chars s = true ->
  (a + b <= String.length s)%nat ->
  String.length (String.substring a b s) = b /\
  all_uuid_chars (String.substring a b s) = true.
Proof.
  induction s as [| c s IH]; intros a b Hall Hlen; simpl in Hlen.
  - assert (a = 0%nat) by lia. assert (b = 0%nat) by lia. subst.
    simpl. split; reflexivity.
  - simpl in Hall. apply Bool.andb_true_iff in Hall. destruct Hall as [Hc Hs].
    destruct a as [| a]; simpl.
    + destruct b as [| b]; simpl; [split; reflexivity |].
      destruct (IH 0%nat b Hs ltac:(lia)) as [Hl Ha].
      rewrite Hl, Hc, Ha. split; reflexivity.
    + apply IH; [exact Hs | lia].
Qed.

Lemma to_str_shape u : uuid_shaped (UUID.to_str u).
Proof.
  unfold uuid_shaped, UUID.to_str, UUID.hex.
  destruct (hex_digits_shape 32 u) as [Hlen Hall].
  destruct (substring_shape _ 0 8 Hall ltac:(lia)) as [L1 A1].
  destruct (substring_shape _ 8 4 Hall ltac:(lia)) as [L2 A2].
  destruct (substring_shape _ 12 4 Hall ltac:(lia)) as [L3 A3].
  destruct (substring_shape _ 16 4 Hall ltac:(lia)) as [L4 A4].
  destruct (substring_shape _ 20 12 Hall ltac:(lia)) as [L5 A5].
  cbv zeta.
  repeat rewrite length_append. repeat rewrite all_uuid_chars_append.
  rewrite L1, L2, L3, L4, L5, A1, A2, A3, A4, A5. split; reflexivity.
Qed.

Lemma uuid_chars_accepts : forall s n rest,
  String.length s = n -> all_uuid_chars s = true ->
  Verify.uuid_chars n (s ++ rest) = Some (s, rest).
Proof.
  induction s as [| c s IH]; intros n rest Hlen Hall; simpl in Hlen; subst n.
  - reflexivity.
  - simpl in Hall. apply Bool.andb_true_iff in Hall. destruct Hall as [Hc Hs].
    simpl. rewrite Hc. rewrite (IH _ rest eq_refl Hs). reflexivity.
Qed.

Lemma quoted_uuid_at_accepts s rest :
  uuid_shaped s ->
  Verify.quoted_uuid_at ("'" ++ s ++ "'" ++ rest) = Some (s, rest).
Proof.
  intros [Hlen Hall]. unfold Verify.quoted_uuid_at.
  change (Verify.lit "'" ("'" ++ s ++ "'" ++ rest)) with (Some (s ++ "'" ++ rest)).
  cbv iota beta. rewrite (uuid_chars_accepts s 36 _ Hlen Hall). reflexivity.
Qed.

Lemma paren_uuid_at_accepts s rest :
  uuid_shaped s ->
  Verify.paren_uuid_at ("('" ++ s ++ "'" ++ rest) = Some (s, rest).
Proof.
  intros Hs. unfold Verify.paren_uuid_at.
  change (Verify.lit "(" ("('" ++ s ++ "'" ++ rest))
    with (Some ("'" ++ s ++ "'" ++ rest)).
  cbv iota beta. apply quoted_uuid_at_accepts. exact Hs.
Qed.

Lemma search_at_start {A} (f : string -> option A) s r :
  f s = Some r -> Verify.search f s = Some r.
Proof. intros H. destruct s; simpl; rewrite H; reflexivity. Qed.

(** The ids of the records are texts of UUIDs. *)
Lemma authors_loop_ids n : forall usernames acc w l w',
  authors_loop n usernames acc w = (Ok l, w') ->
  Forall (fun a => uuid_shaped (au_uuid a)) acc ->
  Forall (fun a => uuid_shaped (au_uuid a)) l.
Proof.
  induction n as [| n IH]; intros usernames acc w l w' H Hacc.
  - apply ret_inv in H. destruct H as [-> _]. exact Hacc.
  - rewrite authors_loop_S in H.
    bind_inv H. clear Hm. bind_inv H. clear Hm. bind_inv H. clear Hm.
    bind_inv H. clear Hm.
    eapply IH; [exact H |]. apply Forall_app. split; [exact Hacc |].
    constructor; [apply to_str_shape | constructor].
Qed.

Lemma article_round_id pool ratio w r w' :
  article_round pool ratio w = (Ok r, w') -> uuid_shaped (r_uuid_str r).
Proof.
  unfold article_round. intros H.
  do 10 (bind_inv H; clear Hm).
  apply ret_inv in H. destruct H as [-> _]. apply to_str_shape.
Qed.

Lemma comment_round_id pool w c w' :
  comment_round pool w = (Ok c, w') -> uuid_shaped (co_uuid c).
Proof.
  unfold comment_round. intros H.
  do 8 (bind_inv H; clear Hm).
  apply ret_inv in H. destruct H as [-> _]. apply to_str_shape.
Qed.

(** X6. Whatever the provider's texts are, each tuple written for a
    returned author, article or comment begins with its id in the form the
    verifier's tuple pattern looks for: [re.search] on a text that starts
    with the tuple finds the id there. *)
Theorem verifier_recognises_generated_ids :
  forall n1 n2 n3 author_ids published_ratio article_ids w1 w2 w3
         authors articles comments,
    run (generate_authors n1) w1 = Ok authors ->
    run (generate_articles n2 author_ids published_ratio) w2 = Ok articles ->
    run (generate_comments n3 article_ids) w3 = Ok comments ->
    Forall (fun a => forall rest, exists rest',
              Verify.search Verify.paren_uuid_at (author_value a ++ rest) =
              Some (au_uuid a, rest')) authors /\
    Forall (fun a => forall rest, exists rest',
              Verify.search Verify.paren_uuid_at (article_value a ++ rest) =
              Some (ar_uuid a, rest')) articles /\
    Forall (fun c => forall rest, exists rest',
              Verify.search Verify.paren_uuid_at (comment_value c ++ rest) =
              Some (co_uuid c, rest')) comments.
Proof.
  intros n1 n2 n3 author_ids ratio article_ids w1 w2 w3 authors articles comments
         H1 H2 H3.
  split; [| split].
  - apply run_ok in H1. destruct H1 as [w' H1]. unfold generate_authors in H1.
    eapply Forall_impl; [| eapply authors_loop_ids; [exact H1 | constructor]].
    intros a Ha rest. eexists. apply search_at_start.
    unfold author_value. rewrite !append_assoc.
    apply (paren_uuid_at_accepts (au_uuid a)). exact Ha.
  - apply run_ok in H2. destruct H2 as [w' H2].
    apply generate_articles_inv in H2. destruct H2 as (rounds & Hrounds & ->).
    apply Forall_map. unfold generate_articles_rounds in Hrounds.
    eapply (articles_loop_inv (fun _ => True));
      [| exact Logic.I | exact Hrounds | constructor].
    clear Hrounds. intros wa r wb _ Hround. split; [exact Logic.I |].
    apply article_round_id in Hround. intros rest. eexists.
    apply search_at_start. unfold article_value. rewrite !append_assoc.
    apply (paren_uuid_at_accepts (ar_uuid (article_tuple r))). exact Hround.
  - apply run_ok in H3. destruct H3 as [w' H3]. unfold generate_comments in H3.
    eapply (comments_loop_inv (fun _ => True));
      [| exact Logic.I | exact H3 | constructor].
    clear H3. intros wa c wb _ Hround. split; [exact Logic.I |].
    apply comment_round_id in Hround. intros rest. eexists.
    apply search_at_start. unfold comment_value. rewrite !append_assoc.
    apply (paren_uuid_at_accepts (co_uuid c)). exact Hround.
Qed.

Lemma verifier_recognises_generated_ids_witness :
  run (generate_authors 3) (Demo.world 1) = Ok Demo.some_authors /\
  run (generate_articles 4 Demo.pool 0.5%float) (Demo.world 1) =
    Ok (Demo.some_articles 0.5%float) /\
  run (generate_comments 3 Demo.pool) Demo.apostrophe_world = Ok Demo.some_comments /\
  Forall (fun a => forall rest, exists rest',
            Verify.search Verify.paren_uuid_at (author_value a ++ rest) =
            Some (au_uuid a, rest')) Demo.some_authors /\
  Forall (fun a => forall rest, exists rest',
            Verify.search Verify.paren_uuid_at (article_value a ++ rest) =
            Some (ar_uuid a, rest')) (Demo.some_articles 0.5%float) /\
  Forall (fun c => forall rest, exists rest',
            Verify.search Verify.paren_uuid_at (comment_value c ++ rest) =
            Some (co_uuid c, rest')) Demo.some_comments.
Proof.
  assert (H1 : run (generate_authors 3) (Demo.world 1) = Ok Demo.some_authors)
    by (vm_compute; reflexivity).
  assert (H2 : run (generate_articles 4 Demo.pool 0.5%float) (Demo.world 1) =
               Ok (Demo.some_articles 0.5%float)) by (vm_compute; reflexivity).
  assert (H3 : run (generate_comments 3 Demo.pool) Demo.apostrophe_world =
               Ok Demo.some_comments) by (vm_compute; reflexivity).
  split; [exact H1 |]. split; [exact H2 |]. split; [exact H3 |].
  exact (verifier_recognises_generated_ids 3 4 3 Demo.pool 0.5%float Demo.pool
           (Demo.world 1) (Demo.world 1) Demo.apostrophe_world _ _ _ H1 H2 H3).
Defined.

(** * The verifier on a text without statements *)

Lemma lit_append p q s :
  Verify.lit (p ++ q) s =
  match Verify.lit p s with
  | Some r => Verify.lit q r
  | None => None
  end.
Proof.
  revert s. induction p as [| a p IH]; intros s; simpl; [reflexivity |].
  destruct s as [| b s]; [reflexivity |].
  destruct (Ascii.eqb a b); [apply IH | reflexivity].
Qed.

Lemma search_none {A B} (f : string -> option A) (g : string -> option B) :
  (forall s, g s = None -> f s = None) ->
  forall s, Verify.search g s = None -> Verify.search f s = None.
Proof.
  intros Hfg. induction s as [| c s IH]; simpl; intros H.
  - destruct (g "") eqn:Eg; [discriminate H |]. rewrite (Hfg _ Eg). reflexivity.
  - destruct (g (String c s)) eqn:Eg; [discriminate H |].
    rewrite (Hfg _ Eg). apply IH. exact H.
Qed.

Lemma insert_values_none table content :
  Verify.search (Verify.lit "INSERT INTO ") content = None ->
  Verify.insert_values table content = None.
Proof.
  unfold Verify.insert_values. apply search_none.
  intros s Hs. unfold Verify.insert_at.
  rewrite (lit_append "INSERT INTO " table), Hs. reflexivity.
Qed.

(** X7. A text in which [INSERT INTO ] does not occur, the empty file
    included, passes the verification: no id and no reference is found,
    and the function returns [True]. *)
Theorem verifier_passes_without_statements :
  forall content,
    Verify.search (Verify.lit "INSERT INTO ") content = None ->
    Verify.extract_uuids_from_sql content =
    ([ "Found 0 authors";
       "Found 0 articles";
       "✓ All 0 articles reference valid authors";
       "Found 0 comments";
       "✓ All 0 comments reference valid articles";
       PyStr.LF ++ "✅ All referential integrity checks passed!" ], true).
Proof.
  intros content H.
  unfold Verify.extract_uuids_from_sql, Verify.author_ids_of, Verify.articles_of,
    Verify.comments_of.
  rewrite !(insert_values_none _ content H). reflexivity.
Qed.

Lemma verifier_passes_without_statements_witness :
  Verify.search (Verify.lit "INSERT INTO ") "SELECT 1;" = None /\
  Verify.extract_uuids_from_sql "SELECT 1;" =
  ([ "Found 0 authors";
     "Found 0 articles";
     "✓ All 0 articles reference valid authors";
     "Found 0 comments";
     "✓ All 0 comments reference valid articles";
     PyStr.LF ++ "✅ All referential integrity checks passed!" ], true).
Proof.
  assert (H : Verify.search (Verify.lit "INSERT INTO ") "SELECT 1;" = None)
    by reflexivity.
  split; [exact H | exact (verifier_passes_without_statements _ H)].
Defined.

(** * What the generation steps write *)

Lemma silent_ret {A} (a : A) : silent (ret a).
Proof. intros w r w' H. inversion H. reflexivity. Qed.

Lemma silent_raise {A} e : silent (@raise A e).
Proof. intros w r w' H. inversion H. reflexivity. Qed.

Lemma silent_bind {A B} (m : M A) (k : A -> M B) :
  silent m -> (forall a, silent (k a)) -> silent (bind m k).
Proof.
  intros Hm Hk w r w' H. unfold bind in H.
  destruct (m w) as [[a | e] w1] eqn:E.
  - rewrite (Hk a _ _ _ H). apply (Hm _ _ _ E).
  - inversion H; subst. apply (Hm _ _ _ E).
Qed.

Ltac silent_step :=
  let w := fresh "w" in let r := fresh "r" in let w' := fresh "w'" in
  let H := fresh "H" in
  intros w r w' H; inversion H; reflexivity.

Lemma silent_uuid4 : silent uuid4.
Proof. silent_step. Qed.




Lemma silent_fake_user_name : silent fake_user_name.
Proof. silent_step. Qed.

Lemma silent_fake_email : silent fake_email.
Proof. silent_step. Qed.




Lemma silent_fake_date_time_between : silent fake_date_time_between.
Proof. silent_step. Qed.

Lemma silent_email_seen e : silent (email_seen e).
Proof. silent_step. Qed.

Lemma silent_remember_email e : silent (remember_email e).
Proof. silent_step. Qed.




Lemma silent_unique_email_loop rounds : forall retval,
  silent (unique_email_loop rounds retval).
Proof.
  induction rounds as [| k IH]; intros retval; simpl.
  - apply silent_raise.
  - assert (Hagain : silent (e <- fake_email ;; unique_email_loop k (Some e))).
    { apply silent_bind; [apply silent_fake_email |]. intros e. apply IH. }
    destruct retval as [x |]; [| exact Hagain].
    apply silent_bind; [apply silent_email_seen |]. intros dup.
    destruct dup; [exact Hagain |].
    apply silent_bind; [apply silent_remember_email |]. intros _. apply silent_ret.
Qed.

Lemma silent_username_loop fuel : forall usernames username attempts,
  silent (username_loop fuel usernames username attempts).
Proof.
  assert (Hfb : silent (u <- uuid4 ;; ret ("user_" ++ PyStr.take 8 (UUID.hex u)))).
  { apply silent_bind; [apply silent_uuid4 |]. intros u. apply silent_ret. }
  induction fuel as [| fuel IH]; intros usernames username attempts; simpl.
  - destruct (attempts >? 100);
      (destruct username as [x |]; [destruct (mem x usernames) |]);
      try exact Hfb; try apply silent_raise; apply silent_ret.
  - assert (Hagain : silent
              (if attempts >? 100
               then u <- uuid4 ;; ret ("user_" ++ PyStr.take 8 (UUID.hex u))
               else n <- fake_user_name ;;
                    username_loop fuel usernames
                      (Some (PyStr.replace " " "_" (PyStr.lower n)))
                      (attempts + 1))).
    { destruct (attempts >? 100); [exact Hfb |].
      apply silent_bind; [apply silent_fake_user_name |]. intros n. apply IH. }
    destruct username as [x |]; [destruct (mem x usernames) |];
      try exact Hagain. apply silent_ret.
Qed.

Lemma silent_authors_loop n : forall usernames acc,
  silent (authors_loop n usernames acc).
Proof.
  induction n as [| n IH]; intros usernames acc.
  - apply silent_ret.
  - rewrite authors_loop_S.
    apply silent_bind; [apply silent_username_loop |]. intros username.
    apply silent_bind; [apply silent_unique_email_loop |]. intros email.
    apply silent_bind; [apply silent_uuid4 |]. intros u.
    apply silent_bind; [apply silent_fake_date_time_between |]. intros t.
    apply IH.
Qed.





Lemma silent_generate_authors count : silent (generate_authors count).
Proof. unfold generate_authors. apply silent_authors_loop. Qed.


(** * [main] on a valid configuration *)







(** * The loader *)

(** ** [connect] *)

Lemma attempts_nonempty t n : (0 < n)%nat -> Populate.attempts t n <> [].
Proof.
  destruct n as [| k]; [lia |]. intros _. simpl.
  destruct (peek t); discriminate.
Qed.

Lemma connect_loop_spec self retries delay :
  0 <= delay ->
  forall todo attempt h,
    Z.of_nat todo = retries + 1 - attempt ->
    let rs := Populate.attempts (Populate.connects h) todo in
    let r := Populate.connect_loop self todo attempt retries delay h in
    fst r = Populate.verdict rs /\
    src (Populate.connects (snd r)) = src (Populate.connects h) /\
    pos (Populate.connects (snd r)) =
      (pos (Populate.connects h) + List.length rs)%nat /\
    Populate.slept (snd r) =
      (Populate.slept h ++ repeat delay (List.length rs - 1))%list /\
    Populate.conn (snd r) =
      match fst r with
      | Populate.Returned true => Populate.Open
      | _ => Populate.conn h
      end /\
    Populate.executed_sql (snd r) = Populate.executed_sql h /\
    Populate.executes (snd r) = Populate.executes h /\
    Populate.fetches (snd r) = Populate.fetches h /\
    Populate.closes (snd r) = Populate.closes h /\
    Populate.open_cursors (snd r) = Populate.open_cursors h /\
    Populate.disk (snd r) = Populate.disk h.
Proof.
  intros Hdelay. induction todo as [| k IH]; intros attempt h Htodo.
  - simpl. rewrite Nat.add_0_r, app_nil_r. repeat split; reflexivity.
  - cbn zeta. simpl Populate.attempts.
    unfold Populate.connect_loop; fold Populate.connect_loop.
    unfold Populate.hbind, Populate.print_err, Populate.psycopg2_connect,
      Populate.sleep, Populate.hret, Populate.hfail.
    cbv zeta. cbn [Populate.connects Populate.set_err Populate.set_connects].
    destruct (peek (Populate.connects h)) as [| e | e] eqn:Hpeek.
    + cbn. rewrite app_nil_r. repeat split; try reflexivity. f_equal; lia.
    + destruct (Z.ltb_spec attempt retries) as [Hlt | Hge].
      * destruct (Z.ltb_spec delay 0) as [Hneg | _]; [lia |].
        match goal with
        | |- context [Populate.connect_loop self k (attempt + 1) retries delay ?hx] =>
            set (h1 := hx)
        end.
        assert (Hk : Z.of_nat k = retries + 1 - (attempt + 1)) by lia.
        specialize (IH (attempt + 1) h1 Hk). cbn zeta in IH.
        assert (Hc : Populate.connects h1 = advance (Populate.connects h))
          by reflexivity.
        rewrite Hc in IH.
        assert (Hne : Populate.attempts (advance (Populate.connects h)) k <> [])
          by (apply attempts_nonempty; lia).
        destruct IH as (I1 & I2 & I3 & I4 & I5 & I6 & I7 & I8 & I9 & I10 & I11).
        repeat split.
        -- rewrite I1. unfold Populate.verdict.
           destruct (Populate.attempts (advance (Populate.connects h)) k);
             [contradiction | reflexivity].
        -- rewrite I2. reflexivity.
        -- rewrite I3. simpl. lia.
        -- rewrite I4. subst h1. cbn [Populate.slept Populate.set_slept].
           rewrite <- app_assoc. f_equal.
           destruct (Populate.attempts (advance (Populate.connects h)) k)
             as [| r0 rs0]; [contradiction |].
           simpl. rewrite Nat.sub_0_r. reflexivity.
        -- rewrite I5. reflexivity.
        -- rewrite I6. reflexivity.
        -- rewrite I7. reflexivity.
        -- rewrite I8. reflexivity.
        -- rewrite I9. reflexivity.
        -- rewrite I10. reflexivity.
        -- rewrite I11. reflexivity.
      * assert (k = 0%nat) by lia. subst k. cbn. rewrite app_nil_r.
        repeat split; try reflexivity. f_equal; lia.
    + cbn. rewrite app_nil_r. repeat split; try reflexivity. f_equal; lia.
Qed.

Lemma attempts_length : forall n t,
  (List.length (Populate.attempts t n) <= n)%nat.
Proof.
  induction n as [| n IH]; intros t; simpl; [lia |].
  destruct (peek t); simpl; [lia | specialize (IH (advance t)); lia | lia].
Qed.

(** X9. [connect] with a delay that is not negative makes the attempts
    up to the first one that does not fail with [OperationalError], at
    most [retries] of them.  It returns [True], with the connection set,
    when the last attempt succeeded, [False] when it failed, and lets
    any other exception through.  It sleeps [delay] seconds between two
    attempts and not after the last one, and executes nothing.  With
    [retries <= 0] it returns [False] at once: no attempt, no message. *)
Theorem connect_retries :
  forall self retries delay h,
    0 <= delay ->
    let rs := Populate.attempts (Populate.connects h) (Z.to_nat retries) in
    let r := Populate.result_of (Populate.connect self retries delay) h in
    let h' := Populate.host_after (Populate.connect self retries delay) h in
    r = Populate.verdict rs /\
    Z.of_nat (List.length rs) <= Z.max 0 retries /\
    pos (Populate.connects h') =
      (pos (Populate.connects h) + List.length rs)%nat /\
    Populate.slept h' =
      (Populate.slept h ++ repeat delay (List.length rs - 1))%list /\
    Populate.conn h' =
      match r with
      | Populate.Returned true => Populate.Open
      | _ => Populate.conn h
      end /\
    Populate.executed_sql h' = Populate.executed_sql h /\
    (retries <= 0 -> r = Populate.Returned false /\ h' = h).
Proof.
  intros self retries delay h Hdelay rs r h'.
  assert (Hlen : Z.of_nat (List.length rs) <= Z.max 0 retries).
  { pose proof (attempts_length (Z.to_nat retries) (Populate.connects h)).
    subst rs. lia. }
  unfold Populate.result_of, Populate.host_after, Populate.connect in r, h'.
  destruct (Z.le_gt_cases retries 0) as [Hle | Hgt].
  - assert (E : Z.to_nat retries = 0%nat) by lia.
    subst rs r h'. rewrite E in *. cbn. rewrite app_nil_r, Nat.add_0_r.
    repeat split; try reflexivity. exact Hlen.
  - assert (Htodo : Z.of_nat (Z.to_nat retries) = retries + 1 - 1) by lia.
    pose proof (connect_loop_spec self retries delay Hdelay
                  (Z.to_nat retries) 1 h Htodo) as Hspec.
    cbn zeta in Hspec.
    destruct Hspec as (I1 & _ & I3 & I4 & I5 & I6 & _).
    subst rs r h'. repeat split; try assumption; lia.
Qed.

Lemma connect_retries_witness :
  0 <= 2 /\
  Populate.result_of (Populate.connect LoaderDemo.blog 5 2)
    (LoaderDemo.machine "" 2 LoaderDemo.obliging) =
  Populate.verdict
    (Populate.attempts
       (Populate.connects (LoaderDemo.machine "" 2 LoaderDemo.obliging))
       (Z.to_nat 5)).
Proof.
  assert (H : 0 <= 2) by lia.
  split; [exact H |].
  exact (proj1 (connect_retries LoaderDemo.blog 5 2
                  (LoaderDemo.machine "" 2 LoaderDemo.obliging) H)).
Defined.

(** ** The statements [execute_sql_file] cuts the text into *)

Lemma doubled_append_l c a b :
  Populate.doubled c a = true -> Populate.doubled c (a ++ b) = true.
Proof.
  induction a as [| x a IH]; simpl; intros H; [discriminate H |].
  apply orb_true_iff in H. apply orb_true_iff. destruct H as [H | H].
  - left. apply andb_true_iff in H. destruct H as [H1 H2]. rewrite H1.
    destruct a as [| y a]; [discriminate H2 | exact H2].
  - right. apply IH. exact H.
Qed.

Lemma doubled_append_r c a b :
  Populate.doubled c b = true -> Populate.doubled c (a ++ b) = true.
Proof.
  intros H. induction a as [| x a IH]; simpl; [exact H |].
  rewrite IH. apply orb_true_r.
Qed.

Lemma doubled_inside c p x s :
  Populate.doubled c x = true -> Populate.doubled c (p ++ x ++ s) = true.
Proof.
  intros H. apply doubled_append_r, doubled_append_l, H.
Qed.

Lemma doubled_free_append c l t :
  PyStr.has_char c l = false ->
  Populate.doubled c (l ++ t) = Populate.doubled c t.
Proof.
  induction l as [| x l IH]; simpl; intros H; [reflexivity |].
  apply orb_false_iff in H. destruct H as [Hx Hl].
  rewrite Hx, (IH Hl). reflexivity.
Qed.

Lemma doubled_free c l :
  PyStr.has_char c l = false -> Populate.doubled c l = false.
Proof.
  intros H. rewrite <- (append_nil_r l), (doubled_free_append c l "" H).
  reflexivity.
Qed.

Lemma doubled_rev_string c : forall s acc,
  Populate.doubled c (PyStr.rev_string acc s) =
  (Populate.doubled c acc || Populate.doubled c s ||
   (Populate.starts c s && Populate.starts c acc))%bool.
Proof.
  induction s as [| a t IH]; intros acc; simpl.
  - rewrite !orb_false_r. reflexivity.
  - rewrite IH. simpl.
    destruct (Ascii.eqb a c), (Populate.starts c acc), (Populate.starts c t),
      (Populate.doubled c acc), (Populate.doubled c t); reflexivity.
Qed.

Lemma doubled_lstrip c s :
  Populate.doubled c (PyStr.lstrip s) = true -> Populate.doubled c s = true.
Proof.
  induction s as [| a t IH]; simpl; intros H; [discriminate H |].
  destruct (PyStr.is_space a).
  - rewrite (IH H). apply orb_true_r.
  - exact H.
Qed.

Lemma doubled_reverse c s :
  Populate.doubled c (PyStr.rev_string "" s) = Populate.doubled c s.
Proof.
  rewrite doubled_rev_string. simpl. rewrite andb_false_r, orb_false_r.
  reflexivity.
Qed.

Lemma doubled_strip c s :
  Populate.doubled c (PyStr.strip s) = true -> Populate.doubled c s = true.
Proof.
  unfold PyStr.strip, PyStr.rstrip. rewrite doubled_reverse. intros H.
  apply doubled_lstrip in H. rewrite doubled_reverse in H.
  apply doubled_lstrip. exact H.
Qed.

Lemma split_free c : forall s,
  Forall (fun l => PyStr.has_char c l = false) (PyStr.split c s).
Proof.
  induction s as [| a t IH]; simpl.
  - constructor; [reflexivity | constructor].
  - destruct (Ascii.eqb a c) eqn:Ha.
    + constructor; [reflexivity | exact IH].
    + destruct (PyStr.split c t) as [| p ps].
      * constructor; [simpl; rewrite Ha; reflexivity | constructor].
      * inversion IH as [| ? ? Hp Hps]; subst.
        constructor; [simpl; rewrite Ha; exact Hp | exact Hps].
Qed.

Lemma join_not_doubled c : forall ls,
  Forall (fun l => PyStr.has_char c l = false /\ l <> "") ls ->
  Populate.doubled c (PyStr.join (String c "") ls) = false /\
  Populate.starts c (PyStr.join (String c "") ls) = false.
Proof.
  unfold PyStr.join. induction ls as [| x ls IH]; intros H.
  - split; reflexivity.
  - inversion H as [| ? ? [Hx Hne] Hls]; subst.
    assert (Hstart : forall t, Populate.starts c (x ++ t) = false).
    { intros t. destruct x as [| b x]; [contradiction Hne; reflexivity |].
      simpl in Hx. apply orb_false_iff in Hx. destruct Hx as [Hb _].
      simpl. exact Hb. }
    destruct ls as [| y ls].
    + simpl. split; [apply doubled_free; exact Hx |].
      rewrite <- (append_nil_r x). apply Hstart.
    + destruct (IH Hls) as [Hd Hs].
      change (String.concat (String c "") (x :: y :: ls))
        with (x ++ String c (String.concat (String c "") (y :: ls))).
      split; [| apply Hstart].
      rewrite (doubled_free_append c x _ Hx).
      cbn [Populate.doubled]. rewrite Hs, Hd, Ascii.eqb_refl. reflexivity.
Qed.

Lemma prefix_append : forall a b,
  String.prefix a b = true -> exists s, b = a ++ s.
Proof.
  induction a as [| x a IH]; intros b H.
  - exists b. reflexivity.
  - destruct b as [| y b]; [discriminate H |]. simpl in H.
    destruct (Ascii.ascii_dec x y) as [-> | Hxy].
    + destruct (IH b H) as [s ->]. exists s. reflexivity.
    + discriminate H.
Qed.

Lemma contains_inside needle : forall hay,
  Populate.contains needle hay = true -> exists p s, hay = p ++ needle ++ s.
Proof.
  induction hay as [| a t IH]; intros H; cbn [Populate.contains] in H.
  - destruct (String.prefix needle "") eqn:Hp; [| discriminate H].
    apply prefix_append in Hp. destruct Hp as [s ->]. exists "", s. reflexivity.
  - destruct (String.prefix needle (String a t)) eqn:Hp.
    + apply prefix_append in Hp. destruct Hp as [s ->]. exists "", s. reflexivity.
    + destruct (IH H) as (p & s & ->). exists (String a p), s. reflexivity.
Qed.

(** The splitter never keeps an empty line: neither in the statement it
    gathers nor in a statement it has cut. *)
Lemma split_line_no_empty_line st line :
  Forall (fun s => Populate.doubled PyStr.newline s = false)
         (Populate.statements st) ->
  Forall (fun l => PyStr.has_char PyStr.newline l = false /\ l <> "")
         (Populate.current_statement st) ->
  PyStr.has_char PyStr.newline line = false ->
  Forall (fun s => Populate.doubled PyStr.newline s = false)
         (Populate.statements (Populate.split_line st line)) /\
  Forall (fun l => PyStr.has_char PyStr.newline l = false /\ l <> "")
         (Populate.current_statement (Populate.split_line st line)).
Proof.
  intros Hs Hc Hline. unfold Populate.split_line.
  destruct (String.eqb (PyStr.strip line) "") eqn:Hblank;
    [split; assumption |].
  destruct (PyStr.startswith "--" (PyStr.strip line)); [split; assumption |].
  cbn [orb].
  destruct (Populate.contains "*/" (PyStr.strip line)); [split; assumption |].
  destruct (if Populate.contains "/*" (PyStr.strip line) then true
            else Populate.in_comment st); [split; assumption |].
  assert (Hne : line <> "").
  { intros ->. discriminate Hblank. }
  assert (Hc' : Forall (fun l => PyStr.has_char PyStr.newline l = false /\ l <> "")
                  (Populate.current_statement st ++ [line])).
  { apply Forall_app. split; [exact Hc |].
    constructor; [split; assumption | constructor]. }
  destruct (Populate.endswith ";" (PyStr.strip line)).
  - cbn [Populate.statements Populate.current_statement]. split; [| constructor].
    destruct (String.eqb
                (PyStr.strip (PyStr.join PyStr.LF
                   (Populate.current_statement st ++ [line]))) "");
      [exact Hs |].
    apply Forall_app. split; [exact Hs |]. constructor; [| constructor].
    destruct (Populate.doubled PyStr.newline
                (PyStr.strip (PyStr.join PyStr.LF
                   (Populate.current_statement st ++ [line])))) eqn:Hd;
      [| reflexivity].
    apply doubled_strip in Hd.
    destruct (join_not_doubled PyStr.newline _ Hc') as [Hd' _].
    unfold PyStr.LF in Hd. rewrite Hd' in Hd. discriminate Hd.
  - cbn [Populate.statements Populate.current_statement]. split; assumption.
Qed.

Lemma split_loop_no_empty_line : forall lines st,
  Forall (fun l => PyStr.has_char PyStr.newline l = false) lines ->
  Forall (fun s => Populate.doubled PyStr.newline s = false)
         (Populate.statements st) ->
  Forall (fun l => PyStr.has_char PyStr.newline l = false /\ l <> "")
         (Populate.current_statement st) ->
  Forall (fun s => Populate.doubled PyStr.newline s = false)
         (Populate.statements (fold_left Populate.split_line lines st)).
Proof.
  induction lines as [| line lines IH]; intros st Hl Hs Hc; simpl.
  - exact Hs.
  - inversion Hl as [| ? ? Hline Hrest]; subst.
    destruct (split_line_no_empty_line st line Hs Hc Hline) as [Hs' Hc'].
    apply IH; assumption.
Qed.

Lemma statements_no_empty_line content :
  Forall (fun s => Populate.doubled PyStr.newline s = false)
         (Populate.split_statements content).
Proof.
  unfold Populate.split_statements.
  apply split_loop_no_empty_line; [apply split_free | constructor | constructor].
Qed.

(** A line that does not end a statement leaves the statements as they
    are. *)
Lemma split_line_no_semicolon st line :
  Populate.ends_statement line = false ->
  Populate.statements (Populate.split_line st line) = Populate.statements st.
Proof.
  unfold Populate.ends_statement, Populate.split_line. intros H. rewrite H.
  destruct (String.eqb (PyStr.strip line) "" ||
            PyStr.startswith "--" (PyStr.strip line))%bool; [reflexivity |].
  destruct (Populate.contains "*/" (PyStr.strip line)); [reflexivity |].
  destruct (if Populate.contains "/*" (PyStr.strip line) then true
            else Populate.in_comment st); reflexivity.
Qed.

Lemma split_loop_no_semicolon : forall lines st,
  Forall (fun l => Populate.ends_statement l = false) lines ->
  Populate.statements (fold_left Populate.split_line lines st) =
  Populate.statements st.
Proof.
  induction lines as [| line lines IH]; intros st H; simpl; [reflexivity |].
  inversion H as [| ? ? Hline Hrest]; subst.
  rewrite (IH _ Hrest). apply split_line_no_semicolon. exact Hline.
Qed.

(** The paragraphs of an article are separated by an empty line, which
    escaping keeps. *)
Lemma doubled_escape s :
  Populate.doubled PyStr.newline s = true ->
  Populate.doubled PyStr.newline (sql_escape s) = true.
Proof.
  unfold sql_escape. induction s as [| a t IH]; simpl; intros H;
    [discriminate H |].
  apply orb_true_iff in H. destruct H as [H | H].
  - apply andb_true_iff in H. destruct H as [Ha Ht].
    apply Ascii.eqb_eq in Ha. subst a.
    destruct t as [| b t]; [discriminate Ht |]. simpl in Ht.
    apply Ascii.eqb_eq in Ht. subst b. reflexivity.
  - destruct (Ascii.eqb a PyStr.quote).
    + apply (doubled_append_r _ "''"). apply IH. exact H.
    + simpl. rewrite (IH H). apply orb_true_r.
Qed.

Lemma doubled_paragraphs (paragraphs : list string) :
  (2 <= List.length paragraphs)%nat ->
  Populate.doubled PyStr.newline
    (PyStr.join (PyStr.LF ++ PyStr.LF) paragraphs) = true.
Proof.
  destruct paragraphs as [| p [| q rest]]; simpl List.length; try lia.
  intros _. unfold PyStr.join.
  change (String.concat (PyStr.LF ++ PyStr.LF) (p :: q :: rest))
    with (p ++ (PyStr.LF ++ PyStr.LF) ++
          String.concat (PyStr.LF ++ PyStr.LF) (q :: rest)).
  apply doubled_inside. reflexivity.
Qed.

Lemma article_value_empty_line a :
  Populate.doubled PyStr.newline (ar_content a) = true ->
  Populate.doubled PyStr.newline (article_value a) = true.
Proof.
  intros H. unfold article_value.
  apply (doubled_append_r _ "('"), doubled_append_r,
    (doubled_append_r _ "', '"), doubled_append_r,
    (doubled_append_r _ "', '"), doubled_append_l.
  exact H.
Qed.

(** X10. Between two paragraphs of an article the generator writes an
    empty line, and the loader skips every empty line of the file before
    it cuts the statements: whatever the file holds, the tuple of a
    generated article, as [generate_sql] writes it, stands in no
    statement the loader sends to the database. *)
Theorem article_tuple_reaches_no_statement :
  forall n author_ids published_ratio w articles content a statement,
    run (generate_articles n author_ids published_ratio) w = Ok articles ->
    In a articles ->
    In statement (Populate.split_statements content) ->
    Populate.contains (article_value a) statement = false.
Proof.
  intros n author_ids ratio w articles content a statement Hgen Ha Hst.
  assert (Hcontent : Forall (fun a =>
            Populate.doubled PyStr.newline (ar_content a) = true) articles).
  { apply run_ok in Hgen. destruct Hgen as [w' Hgen].
    apply generate_articles_inv in Hgen.
    destruct Hgen as (rounds & Hrounds & ->).
    apply Forall_map. unfold generate_articles_rounds in Hrounds.
    eapply (articles_loop_inv (fun _ => True));
      [| exact Logic.I | exact Hrounds | constructor].
    intros wa r wb _ Hround. split; [exact Logic.I |].
    apply article_round_draw in Hround.
    destruct Hround as (_ & _ & _ & (ps & Hlen & Hc)).
    change (ar_content (article_tuple r)) with (r_content r). rewrite Hc.
    apply doubled_escape, doubled_paragraphs. lia. }
  rewrite Forall_forall in Hcontent. specialize (Hcontent a Ha).
  pose proof (statements_no_empty_line content) as Hfree.
  rewrite Forall_forall in Hfree. specialize (Hfree statement Hst).
  destruct (Populate.contains (article_value a) statement) eqn:Hin;
    [| reflexivity].
  apply contains_inside in Hin. destruct Hin as (p & s & ->).
  rewrite (doubled_inside _ p _ s (article_value_empty_line a Hcontent)) in Hfree.
  discriminate Hfree.
Qed.

Lemma article_tuple_reaches_no_statement_witness :
  run (generate_articles 4 Demo.pool 0.5%float) (Demo.world 1) =
    Ok (Demo.some_articles 0.5%float) /\
  In LoaderDemo.first_article (Demo.some_articles 0.5%float) /\
  In LoaderDemo.articles_statement
     (Populate.split_statements
        (Populate.universal_newlines LoaderDemo.generated)) /\
  Populate.contains (article_value LoaderDemo.first_article)
                    LoaderDemo.articles_statement = false.
Proof.
  assert (Hgen : run (generate_articles 4 Demo.pool 0.5%float) (Demo.world 1) =
                 Ok (Demo.some_articles 0.5%float)) by (vm_compute; reflexivity).
  assert (Ha : In LoaderDemo.first_article (Demo.some_articles 0.5%float))
    by (vm_compute; left; reflexivity).
  assert (Hst : In LoaderDemo.articles_statement
                   (Populate.split_statements
                      (Populate.universal_newlines LoaderDemo.generated)))
    by (vm_compute; right; left; reflexivity).
  split; [exact Hgen |]. split; [exact Ha |]. split; [exact Hst |].
  exact (article_tuple_reaches_no_statement 4 Demo.pool 0.5%float (Demo.world 1)
           _ _ _ _ Hgen Ha Hst).
Defined.

(** ** [execute_sql_file] *)

Lemma hbind_print {A} t (k : unit -> Populate.H A) h :
  Populate.hbind (Populate.print_err t) k h =
  k tt (Populate.set_err (Populate.err h ++ t ++ PyStr.LF) h).
Proof. reflexivity. Qed.

Lemma hbind_ret {A B} (a : A) (k : A -> Populate.H B) h :
  Populate.hbind (Populate.hret a) k h = k a h.
Proof. reflexivity. Qed.

Lemma hbind_if_print {A} (c : bool) t (k : unit -> Populate.H A) h :
  Populate.hbind (if c then Populate.print_err t else Populate.hret tt) k h =
  k tt (if c then Populate.set_err (Populate.err h ++ t ++ PyStr.LF) h else h).
Proof. destruct c; reflexivity. Qed.

Lemma hbind_if_prints {A} (c : bool) t u v (k : unit -> Populate.H A) h :
  Populate.hbind
    (if c then Populate.print_err t
     else Populate.hbind (Populate.print_err u) (fun _ => Populate.print_err v))
    k h =
  k tt (if c then Populate.set_err (Populate.err h ++ t ++ PyStr.LF) h
        else Populate.set_err
               ((Populate.err h ++ u ++ PyStr.LF) ++ v ++ PyStr.LF) h).
Proof. destruct c; reflexivity. Qed.

Lemma hbind_execute {A} s (k : Populate.execute_result -> Populate.H A) h :
  Populate.hbind (Populate.cursor_execute s) k h =
  k (peek (Populate.executes h) s)
    (Populate.set_executed_sql (Populate.executed_sql h ++ [s])
       (Populate.set_executes (advance (Populate.executes h)) h)).
Proof. reflexivity. Qed.

Lemma execute_loop_step s rest i total executed failed h :
  match peek (Populate.executes h) s with
  | Populate.OtherError e =>
      fst (Populate.execute_loop (s :: rest) i total executed failed h) =
        Populate.Failed (Populate.Exception e) /\
      exists h1,
        snd (Populate.execute_loop (s :: rest) i total executed failed h) = h1 /\
        Populate.executes h1 = advance (Populate.executes h) /\
        Populate.executed_sql h1 = (Populate.executed_sql h ++ [s])%list /\
        Populate.disk h1 = Populate.disk h /\
        Populate.connects h1 = Populate.connects h /\
        Populate.fetches h1 = Populate.fetches h /\
        Populate.conn h1 = Populate.conn h /\
        Populate.closes h1 = Populate.closes h /\
        Populate.open_cursors h1 = Populate.open_cursors h /\
        Populate.slept h1 = Populate.slept h
  | r =>
      exists h1,
        Populate.execute_loop (s :: rest) i total executed failed h =
        Populate.execute_loop rest (i + 1) total
          (if Populate.is_executed r then executed + 1 else executed)
          (if Populate.is_executed r then failed else failed + 1) h1 /\
        Populate.executes h1 = advance (Populate.executes h) /\
        Populate.executed_sql h1 = (Populate.executed_sql h ++ [s])%list /\
        Populate.disk h1 = Populate.disk h /\
        Populate.connects h1 = Populate.connects h /\
        Populate.fetches h1 = Populate.fetches h /\
        Populate.conn h1 = Populate.conn h /\
        Populate.closes h1 = Populate.closes h /\
        Populate.open_cursors h1 = Populate.open_cursors h /\
        Populate.slept h1 = Populate.slept h
  end.
Proof.
  cbn [Populate.execute_loop]. rewrite !hbind_execute.
  destruct (peek (Populate.executes h) s) as [| e | e] eqn:Hpeek;
    cbv beta iota zeta.
  - rewrite hbind_if_print. eexists. split; [reflexivity |].
    destruct ((10 <? total) &&
              ((i mod Z.max 1 (total / 10) =? 0) || (i =? total)))%bool;
      repeat split; reflexivity.
  - rewrite hbind_if_prints. eexists. split; [reflexivity |].
    destruct (Populate.is_duplicate e); repeat split; reflexivity.
  - split; [reflexivity |]. eexists. split; [reflexivity |].
    repeat split; reflexivity.
Qed.

Lemma execute_loop_spec : forall todo i total executed failed h,
  0 <= failed ->
  let rs := Populate.answers (Populate.executes h) todo in
  let r := Populate.execute_loop todo i total executed failed h in
  fst r =
    match last rs Populate.Executed with
    | Populate.OtherError e => Populate.Failed (Populate.Exception e)
    | _ =>
        Populate.Returned
          ((failed =? 0) && forallb Populate.is_executed rs)%bool
    end /\
  Populate.executed_sql (snd r) =
    (Populate.executed_sql h ++ firstn (List.length rs) todo)%list /\
  src (Populate.executes (snd r)) = src (Populate.executes h) /\
  pos (Populate.executes (snd r)) =
    (pos (Populate.executes h) + List.length rs)%nat /\
  Populate.disk (snd r) = Populate.disk h /\
  Populate.connects (snd r) = Populate.connects h /\
  Populate.fetches (snd r) = Populate.fetches h /\
  Populate.conn (snd r) = Populate.conn h /\
  Populate.closes (snd r) = Populate.closes h /\
  Populate.open_cursors (snd r) = Populate.open_cursors h /\
  Populate.slept (snd r) = Populate.slept h.
Proof.
  induction todo as [| s rest IH]; intros i total executed failed h Hfailed.
  - cbn. rewrite app_nil_r, Nat.add_0_r, andb_true_r.
    repeat split; reflexivity.
  - cbn zeta. simpl Populate.answers.
    pose proof (execute_loop_step s rest i total executed failed h) as Hstep.
    destruct (peek (Populate.executes h) s) as [| e | e] eqn:Hpeek.
    + destruct Hstep as (h1 & E & F1 & F2 & F3 & F4 & F5 & F6 & F7 & F8 & F9).
      rewrite E. cbn [Populate.is_executed].
      specialize (IH (i + 1) total (executed + 1) failed h1 Hfailed).
      cbn zeta in IH. rewrite F1 in IH.
      destruct IH as (I1 & I2 & I3 & I4 & I5 & I6 & I7 & I8 & I9 & I10 & I11).
      repeat split.
      * rewrite I1.
        destruct (Populate.answers (advance (Populate.executes h)) rest)
          as [| r0 rs0]; reflexivity.
      * rewrite I2, F2, <- app_assoc. reflexivity.
      * rewrite I3. reflexivity.
      * rewrite I4. simpl. lia.
      * rewrite I5. exact F3.
      * rewrite I6. exact F4.
      * rewrite I7. exact F5.
      * rewrite I8. exact F6.
      * rewrite I9. exact F7.
      * rewrite I10. exact F8.
      * rewrite I11. exact F9.
    + destruct Hstep as (h1 & E & F1 & F2 & F3 & F4 & F5 & F6 & F7 & F8 & F9).
      rewrite E. cbn [Populate.is_executed].
      assert (Hf : 0 <= failed + 1) by lia.
      specialize (IH (i + 1) total executed (failed + 1) h1 Hf).
      cbn zeta in IH. rewrite F1 in IH.
      destruct IH as (I1 & I2 & I3 & I4 & I5 & I6 & I7 & I8 & I9 & I10 & I11).
      assert (Hz : (failed + 1 =? 0) = false) by (apply Z.eqb_neq; lia).
      repeat split.
      * rewrite I1, Hz.
        cbn [forallb Populate.is_executed]. rewrite andb_false_r.
        destruct (Populate.answers (advance (Populate.executes h)) rest)
          as [| r0 rs0]; [reflexivity |].
        change (last (Populate.PgError e :: r0 :: rs0) Populate.Executed)
          with (last (r0 :: rs0) Populate.Executed).
        destruct (last (r0 :: rs0) Populate.Executed); reflexivity.
      * rewrite I2, F2, <- app_assoc. reflexivity.
      * rewrite I3. reflexivity.
      * rewrite I4. simpl. lia.
      * rewrite I5. exact F3.
      * rewrite I6. exact F4.
      * rewrite I7. exact F5.
      * rewrite I8. exact F6.
      * rewrite I9. exact F7.
      * rewrite I10. exact F8.
      * rewrite I11. exact F9.
    + destruct Hstep as (E & h1 & E1 & F1 & F2 & F3 & F4 & F5 & F6 & F7 & F8 & F9).
      rewrite E, E1. cbn [last List.length firstn].
      repeat split; try assumption.
      * rewrite F1. reflexivity.
      * rewrite F1. simpl. lia.
Qed.

Lemma hbind_stat {A} path (k : Populate.entry -> Populate.H A) h :
  Populate.hbind (Populate.stat path) k h = k (Populate.disk h path) h.
Proof. reflexivity. Qed.

Lemma hbind_cursor_open {A} (k : unit -> Populate.H A) h :
  Populate.conn h = Populate.Open ->
  Populate.hbind Populate.cursor k h =
  k tt (Populate.set_open_cursors (Populate.open_cursors h + 1) h).
Proof.
  intros Hc. unfold Populate.hbind, Populate.cursor. rewrite Hc. reflexivity.
Qed.

Lemma last_other_error e : forall rs,
  last rs Populate.Executed = Populate.OtherError e ->
  forallb Populate.is_executed rs = false.
Proof.
  induction rs as [| r rs IH]; intros H; [discriminate H |].
  destruct rs as [| r' rs].
  - simpl in H. subst r. reflexivity.
  - change (last (r :: r' :: rs) Populate.Executed)
      with (last (r' :: rs) Populate.Executed) in H.
    change (forallb Populate.is_executed (r :: r' :: rs))
      with (Populate.is_executed r &&
            forallb Populate.is_executed (r' :: rs))%bool.
    rewrite (IH H). apply andb_false_r.
Qed.

Lemma answers_length : forall l t,
  (List.length (Populate.answers t l) <= List.length l)%nat.
Proof.
  induction l as [| s l IH]; intros t; simpl; [lia |].
  destruct (peek t s); simpl; [specialize (IH (advance t)); lia
                              | specialize (IH (advance t)); lia | lia].
Qed.

Lemma answers_complete : forall l t,
  Forall (fun r => Populate.is_other_error r = false) (Populate.answers t l) ->
  List.length (Populate.answers t l) = List.length l.
Proof.
  induction l as [| s l IH]; intros t H; simpl in *; [reflexivity |].
  destruct (peek t s); simpl in *.
  - inversion H; subst. rewrite IH; [reflexivity | assumption].
  - inversion H; subst. rewrite IH; [reflexivity | assumption].
  - inversion H as [| ? ? Hx]; subst. discriminate Hx.
Qed.

Lemma execute_sql_file_regular path content h :
  Populate.disk h path = Populate.Regular content ->
  Populate.conn h = Populate.Open ->
  let stmts :=
    Populate.split_statements (Populate.universal_newlines content) in
  let rs := Populate.answers (Populate.executes h) stmts in
  let r := Populate.execute_sql_file path h in
  fst r = Populate.Returned (forallb Populate.is_executed rs) /\
  Populate.executed_sql (snd r) =
    (Populate.executed_sql h ++ firstn (List.length rs) stmts)%list /\
  src (Populate.executes (snd r)) = src (Populate.executes h) /\
  pos (Populate.executes (snd r)) =
    (pos (Populate.executes h) + List.length rs)%nat /\
  Populate.disk (snd r) = Populate.disk h /\
  Populate.connects (snd r) = Populate.connects h /\
  Populate.fetches (snd r) = Populate.fetches h /\
  Populate.conn (snd r) = Populate.Open /\
  Populate.closes (snd r) = Populate.closes h /\
  Populate.open_cursors (snd r) = Populate.open_cursors h /\
  Populate.slept (snd r) = Populate.slept h.
Proof.
  intros Hdisk Hconn stmts rs r. subst r.
  unfold Populate.execute_sql_file.
  rewrite hbind_stat, Hdisk. rewrite !hbind_print.
  rewrite hbind_cursor_open by exact Hconn.
  fold stmts.
  match goal with
  | |- context [Populate.finally _ _ ?hx] => set (h0 := hx)
  end.
  pose proof (execute_loop_spec stmts 1 (Z.of_nat (List.length stmts)) 0 0 h0
                (Z.le_refl 0)) as Hloop.
  cbn zeta in Hloop.
  change (Populate.executes h0) with (Populate.executes h) in Hloop.
  fold rs in Hloop.
  unfold Populate.finally, Populate.try_except.
  destruct (Populate.execute_loop stmts 1 (Z.of_nat (List.length stmts)) 0 0 h0)
    as [r1 h1] eqn:E.
  cbn [fst snd] in Hloop.
  destruct Hloop as (I1 & I2 & I3 & I4 & I5 & I6 & I7 & I8 & I9 & I10 & I11).
  assert (Hres :
    (r1 = Populate.Returned (forallb Populate.is_executed rs)) \/
    (exists e, r1 = Populate.Failed (Populate.Exception e) /\
               forallb Populate.is_executed rs = false)).
  { destruct (last rs Populate.Executed) as [| e | e] eqn:Hlast.
    - left. exact I1.
    - left. exact I1.
    - right. exists e. split; [exact I1 |].
      apply (last_other_error e). exact Hlast. }
  destruct Hres as [-> | (e & -> & Hall)].
  - cbn. rewrite I2, I3, I4, I5, I6, I7, I8, I9, I10, I11. subst h0. cbn.
    rewrite Hconn. repeat split; try reflexivity. lia.
  - cbn. rewrite I2, I3, I4, I5, I6, I7, I8, I9, I10, I11, Hall. subst h0. cbn.
    rewrite Hconn. repeat split; try reflexivity. lia.
Qed.

(** X11. With an open connection and a file that can be read,
    [execute_sql_file] sends the statements of the file in their order.
    It goes on after a [psycopg2.Error] and stops at any other exception.
    It returns, and returns [True] exactly when every statement sent was
    executed without an exception: an error that counts as a duplicate
    gets a warning instead of an error message, and makes the function
    return [False] all the same.  The cursor is closed in every case and
    the connection stays open. *)
Theorem execute_sql_file_outcome :
  forall path content h,
    Populate.disk h path = Populate.Regular content ->
    Populate.conn h = Populate.Open ->
    let stmts :=
      Populate.split_statements (Populate.universal_newlines content) in
    let rs := Populate.answers (Populate.executes h) stmts in
    let r := Populate.result_of (Populate.execute_sql_file path) h in
    let h' := Populate.host_after (Populate.execute_sql_file path) h in
    r = Populate.Returned (forallb Populate.is_executed rs) /\
    Populate.executed_sql h' =
      (Populate.executed_sql h ++ firstn (List.length rs) stmts)%list /\
    (List.length rs <= List.length stmts)%nat /\
    (Forall (fun a => Populate.is_other_error a = false) rs ->
     List.length rs = List.length stmts) /\
    Populate.open_cursors h' = Populate.open_cursors h /\
    Populate.conn h' = Populate.Open.
Proof.
  intros path content h Hdisk Hconn stmts rs r h'.
  pose proof (execute_sql_file_regular path content h Hdisk Hconn) as Hspec.
  cbn zeta in Hspec.
  destruct Hspec as (I1 & I2 & _ & _ & _ & _ & _ & I8 & _ & I10 & _).
  subst r h' rs stmts. unfold Populate.result_of, Populate.host_after.
  repeat split; try assumption.
  - apply answers_length.
  - apply answers_complete.
Qed.

Lemma execute_sql_file_outcome_witness :
  Populate.disk
    (LoaderDemo.connected
       (LoaderDemo.machine LoaderDemo.two_inserts 0 LoaderDemo.populated))
    "data.sql" = Populate.Regular LoaderDemo.two_inserts /\
  Populate.conn
    (LoaderDemo.connected
       (LoaderDemo.machine LoaderDemo.two_inserts 0 LoaderDemo.populated)) =
    Populate.Open /\
  Populate.result_of (Populate.execute_sql_file "data.sql")
    (LoaderDemo.connected
       (LoaderDemo.machine LoaderDemo.two_inserts 0 LoaderDemo.populated)) =
  Populate.Returned
    (forallb Populate.is_executed
       (Populate.answers
          (Populate.executes
             (LoaderDemo.connected
                (LoaderDemo.machine LoaderDemo.two_inserts 0
                                    LoaderDemo.populated)))
          (Populate.split_statements
             (Populate.universal_newlines LoaderDemo.two_inserts)))).
Proof.
  assert (Hdisk : Populate.disk
            (LoaderDemo.connected
               (LoaderDemo.machine LoaderDemo.two_inserts 0 LoaderDemo.populated))
            "data.sql" = Populate.Regular LoaderDemo.two_inserts)
    by reflexivity.
  assert (Hconn : Populate.conn
            (LoaderDemo.connected
               (LoaderDemo.machine LoaderDemo.two_inserts 0 LoaderDemo.populated)) =
            Populate.Open) by reflexivity.
  split; [exact Hdisk |]. split; [exact Hconn |].
  exact (proj1 (execute_sql_file_outcome _ _ _ Hdisk Hconn)).
Defined.

(** X12. A file in which no line ends with a semicolon, a statement
    without its final semicolon for one, is taken for loaded: with an
    open connection [execute_sql_file] returns [True] and has sent
    nothing to the database. *)
Theorem file_without_semicolon_loads_nothing :
  forall path content h,
    Populate.disk h path = Populate.Regular content ->
    Populate.conn h = Populate.Open ->
    Forall (fun line => Populate.ends_statement line = false)
           (PyStr.split PyStr.newline (Populate.universal_newlines content)) ->
    Populate.split_statements (Populate.universal_newlines content) = [] /\
    Populate.result_of (Populate.execute_sql_file path) h =
      Populate.Returned true /\
    Populate.executed_sql
      (Populate.host_after (Populate.execute_sql_file path) h) =
      Populate.executed_sql h.
Proof.
  intros path content h Hdisk Hconn Hlines.
  assert (Hnone :
    Populate.split_statements (Populate.universal_newlines content) = []).
  { unfold Populate.split_statements.
    rewrite (split_loop_no_semicolon _ _ Hlines). reflexivity. }
  pose proof (execute_sql_file_regular path content h Hdisk Hconn) as Hspec.
  cbn zeta in Hspec. rewrite Hnone in Hspec.
  destruct Hspec as (I1 & I2 & _).
  cbn in I1, I2. rewrite app_nil_r in I2.
  unfold Populate.result_of, Populate.host_after.
  split; [exact Hnone |]. split; assumption.
Qed.

Lemma file_without_semicolon_loads_nothing_witness :
  Populate.disk
    (LoaderDemo.connected (LoaderDemo.machine "SELECT 1" 0
                                              LoaderDemo.obliging))
    "data.sql" = Populate.Regular "SELECT 1" /\
  Populate.conn
    (LoaderDemo.connected (LoaderDemo.machine "SELECT 1" 0
                                              LoaderDemo.obliging)) =
    Populate.Open /\
  Forall (fun line => Populate.ends_statement line = false)
         (PyStr.split PyStr.newline
            (Populate.universal_newlines "SELECT 1")) /\
  Populate.result_of (Populate.execute_sql_file "data.sql")
    (LoaderDemo.connected (LoaderDemo.machine "SELECT 1" 0
                                              LoaderDemo.obliging)) =
    Populate.Returned true.
Proof.
  assert (Hdisk : Populate.disk
            (LoaderDemo.connected (LoaderDemo.machine "SELECT 1" 0
                                                      LoaderDemo.obliging))
            "data.sql" = Populate.Regular "SELECT 1") by reflexivity.
  assert (Hconn : Populate.conn
            (LoaderDemo.connected (LoaderDemo.machine "SELECT 1" 0
                                                      LoaderDemo.obliging)) =
            Populate.Open) by reflexivity.
  assert (Hlines : Forall (fun line => Populate.ends_statement line = false)
            (PyStr.split PyStr.newline
               (Populate.universal_newlines "SELECT 1"))).
  { vm_compute. constructor; [reflexivity | constructor]. }
  split; [exact Hdisk |]. split; [exact Hconn |]. split; [exact Hlines |].
  exact (proj1 (proj2 (file_without_semicolon_loads_nothing _ _ _
                         Hdisk Hconn Hlines))).
Defined.

(** ** [get_table_counts] and [close] *)

Lemma hbind_fetch {A} (k : Z + string -> Populate.H A) h :
  Populate.hbind Populate.cursor_fetchone k h =
  k (peek (Populate.fetches h))
    (Populate.set_fetches (advance (Populate.fetches h)) h).
Proof. reflexivity. Qed.

Lemma counts_loop_spec : forall todo counts h r h',
  Populate.counts_loop todo counts h = (r, h') ->
  (exists k,
      (k <= List.length todo)%nat /\
      pos (Populate.executes h') = (pos (Populate.executes h) + k)%nat /\
      Populate.executed_sql h' =
        (Populate.executed_sql h ++
         firstn k (map (String.append "SELECT COUNT(*) FROM ") todo))%list) /\
  src (Populate.executes h') = src (Populate.executes h) /\
  Populate.disk h' = Populate.disk h /\
  Populate.connects h' = Populate.connects h /\
  Populate.conn h' = Populate.conn h /\
  Populate.closes h' = Populate.closes h /\
  Populate.open_cursors h' = Populate.open_cursors h /\
  Populate.slept h' = Populate.slept h /\
  Populate.err h' = Populate.err h /\
  (forall c, r <> Populate.Failed (Populate.SystemExit c)) /\
  (forall cs, r = Populate.Returned cs ->
              map fst cs = (map fst counts ++ todo)%list).
Proof.
  induction todo as [| t todo IH]; intros counts h r h' E.
  - cbn in E. inversion E; subst; clear E. split.
    + exists 0%nat. cbn. rewrite Nat.add_0_r, app_nil_r.
      repeat split; try reflexivity; lia.
    + repeat split; try reflexivity; [discriminate |].
      intros cs Hcs. inversion Hcs; subst. rewrite app_nil_r. reflexivity.
  - cbn [Populate.counts_loop] in E. rewrite hbind_execute in E.
    destruct (peek (Populate.executes h) ("SELECT COUNT(*) FROM " ++ t))
      as [| e | e].
    + rewrite hbind_fetch in E.
      destruct (peek (Populate.fetches
                  (Populate.set_executed_sql
                     (Populate.executed_sql h ++ ["SELECT COUNT(*) FROM " ++ t])
                     (Populate.set_executes (advance (Populate.executes h)) h))))
        as [n | e].
      * apply IH in E.
        destruct E as ((k & Hk & Hpos & Hsql) & I1 & I2 & I3 & I4 & I5 & I6 &
                       I7 & I8 & I9 & I10).
        split.
        -- exists (S k). cbn in Hpos, Hsql |- *.
           rewrite Hpos, Hsql, <- app_assoc.
           repeat split; try reflexivity; lia.
        -- repeat split; try assumption.
           intros cs Hcs. rewrite (I10 cs Hcs), map_app, <- app_assoc.
           reflexivity.
      * inversion E; subst; clear E. split.
        -- exists 1%nat. cbn. repeat split; try reflexivity; lia.
        -- repeat split; try reflexivity; try discriminate.
    + inversion E; subst; clear E. split.
      * exists 1%nat. cbn. repeat split; try reflexivity; lia.
      * repeat split; try reflexivity; try discriminate.
    + inversion E; subst; clear E. split.
      * exists 1%nat. cbn. repeat split; try reflexivity; lia.
      * repeat split; try reflexivity; try discriminate.
Qed.

Lemma get_table_counts_open h :
  Populate.conn h = Populate.Open ->
  let r := Populate.get_table_counts h in
  (exists counts,
      fst r = Populate.Returned counts /\
      (counts = [] \/
       exists a b c,
         counts = [("Authors", a); ("Articles", b); ("Comments", c)])) /\
  (exists k,
      (k <= 3)%nat /\
      pos (Populate.executes (snd r)) = (pos (Populate.executes h) + k)%nat /\
      Populate.executed_sql (snd r) =
        (Populate.executed_sql h ++
         firstn k (map (String.append "SELECT COUNT(*) FROM ")
                       Populate.tables))%list) /\
  src (Populate.executes (snd r)) = src (Populate.executes h) /\
  Populate.disk (snd r) = Populate.disk h /\
  Populate.connects (snd r) = Populate.connects h /\
  Populate.conn (snd r) = Populate.Open /\
  Populate.closes (snd r) = Populate.closes h /\
  Populate.open_cursors (snd r) = Populate.open_cursors h /\
  Populate.slept (snd r) = Populate.slept h.
Proof.
  intros Hconn r. subst r. unfold Populate.get_table_counts.
  rewrite hbind_cursor_open by exact Hconn.
  unfold Populate.finally, Populate.try_except.
  destruct (Populate.counts_loop Populate.tables []
              (Populate.set_open_cursors (Populate.open_cursors h + 1) h))
    as [r1 h1] eqn:E.
  apply counts_loop_spec in E.
  destruct E as ((k & Hk & Hpos & Hsql) & I1 & I2 & I3 & I4 & I5 & I6 & I7 &
                 I8 & I9 & I10).
  cbn [Populate.executes Populate.executed_sql Populate.disk Populate.connects
         Populate.conn Populate.closes Populate.open_cursors Populate.slept
         Populate.err Populate.set_open_cursors]
    in Hpos, Hsql, I1, I2, I3, I4, I5, I6, I7, I8.
  change (List.length Populate.tables) with 3%nat in Hk.
  assert (Hframe : forall hx,
            Populate.executes hx = Populate.executes h1 ->
            Populate.executed_sql hx = Populate.executed_sql h1 ->
            Populate.disk hx = Populate.disk h1 ->
            Populate.connects hx = Populate.connects h1 ->
            Populate.conn hx = Populate.conn h1 ->
            Populate.closes hx = Populate.closes h1 ->
            Populate.open_cursors hx = Populate.open_cursors h1 - 1 ->
            Populate.slept hx = Populate.slept h1 ->
            (exists k0,
               (k0 <= 3)%nat /\
               pos (Populate.executes hx) =
                 (pos (Populate.executes h) + k0)%nat /\
               Populate.executed_sql hx =
                 (Populate.executed_sql h ++
                  firstn k0 (map (String.append "SELECT COUNT(*) FROM ")
                                 Populate.tables))%list) /\
            src (Populate.executes hx) = src (Populate.executes h) /\
            Populate.disk hx = Populate.disk h /\
            Populate.connects hx = Populate.connects h /\
            Populate.conn hx = Populate.Open /\
            Populate.closes hx = Populate.closes h /\
            Populate.open_cursors hx = Populate.open_cursors h /\
            Populate.slept hx = Populate.slept h).
  { intros hx F1 F2 F3 F4 F5 F6 F7 F8. split.
    - exists k. rewrite F1, F2, Hpos, Hsql.
      repeat split; try reflexivity; exact Hk.
    - rewrite F1, F3, F4, F5, F6, F7, F8, I1, I2, I3, I4, I5, I6, I7, Hconn.
      repeat split; try reflexivity. lia. }
  destruct r1 as [counts | [e | c]]; cbn [fst snd].
  - split; [| apply Hframe; reflexivity].
    exists counts. split; [reflexivity |]. right.
    specialize (I10 counts eq_refl). cbn in I10.
    destruct counts as [| [t1 a] [| [t2 b] [| [t3 c] [| x rest]]]];
      try discriminate I10.
    cbn in I10. inversion I10; subst. exists a, b, c. reflexivity.
  - split; [| apply Hframe; reflexivity].
    exists []. split; [reflexivity | left; reflexivity].
  - exfalso. exact (I9 c eq_refl).
Qed.



(** ** [main], the direct-connection method *)

Lemma hbind_inv {A B} (m : Populate.H A) (k : A -> Populate.H B) h r h' :
  Populate.hbind m k h = (r, h') ->
  (exists a h1, m h = (Populate.Returned a, h1) /\ k a h1 = (r, h')) \/
  (exists e, m h = (Populate.Failed e, h') /\ r = Populate.Failed e).
Proof.
  unfold Populate.hbind. destruct (m h) as [[a | e] h1]; intros E.
  - left. exists a, h1. split; [reflexivity | exact E].
  - right. inversion E; subst. exists e. split; reflexivity.
Qed.

Lemma answers_ext : forall l t t',
  src t = src t' -> pos t = pos t' ->
  Populate.answers t l = Populate.answers t' l.
Proof.
  induction l as [| s l IH]; intros t t' Hsrc Hpos; [reflexivity |].
  simpl. unfold peek. rewrite Hsrc, Hpos.
  assert (IH' : Populate.answers (advance t) l = Populate.answers (advance t') l).
  { apply IH; simpl; [exact Hsrc | rewrite Hpos; reflexivity]. }
  rewrite IH'. reflexivity.
Qed.

Lemma print_initial_spec : forall counts h,
  exists h',
    Populate.print_initial counts h = (Populate.Returned tt, h') /\
    Populate.disk h' = Populate.disk h /\
    Populate.executes h' = Populate.executes h /\
    Populate.conn h' = Populate.conn h /\
    Populate.closes h' = Populate.closes h /\
    Populate.open_cursors h' = Populate.open_cursors h.
Proof.
  induction counts as [| [table count] rest IH]; intros h.
  - exists h. repeat split; reflexivity.
  - cbn [Populate.print_initial]. rewrite hbind_print.
    match goal with
    | |- context [Populate.print_initial rest ?hx] =>
        destruct (IH hx) as (h' & E & I1 & I2 & I3 & I4 & I5)
    end.
    exists h'. split; [exact E |]. rewrite I1, I2, I3, I4, I5.
    repeat split; reflexivity.
Qed.

Lemma print_final_spec initial_counts : forall counts h,
  exists h',
    Populate.print_final initial_counts counts h = (Populate.Returned tt, h') /\
    Populate.disk h' = Populate.disk h /\
    Populate.executes h' = Populate.executes h /\
    Populate.conn h' = Populate.conn h /\
    Populate.closes h' = Populate.closes h /\
    Populate.open_cursors h' = Populate.open_cursors h.
Proof.
  induction counts as [| [table count] rest IH]; intros h.
  - exists h. repeat split; reflexivity.
  - cbn [Populate.print_final]. cbv zeta. rewrite hbind_print.
    match goal with
    | |- context [Populate.print_final initial_counts rest ?hx] =>
        destruct (IH hx) as (h' & E & I1 & I2 & I3 & I4 & I5)
    end.
    exists h'. split; [exact E |]. rewrite I1, I2, I3, I4, I5.
    repeat split; reflexivity.
Qed.

(** With an open connection [execute_sql_file] returns, whatever is at
    the path. *)
Lemma execute_sql_file_open path h :
  Populate.conn h = Populate.Open ->
  exists b h',
    Populate.execute_sql_file path h = (Populate.Returned b, h') /\
    Populate.disk h' = Populate.disk h /\
    src (Populate.executes h') = src (Populate.executes h) /\
    Populate.conn h' = Populate.Open /\
    Populate.closes h' = Populate.closes h /\
    Populate.open_cursors h' = Populate.open_cursors h /\
    (b = true ->
     exists content,
       Populate.disk h path = Populate.Regular content /\
       forallb Populate.is_executed
         (Populate.answers (Populate.executes h)
            (Populate.split_statements
               (Populate.universal_newlines content))) = true).
Proof.
  intros Hconn.
  destruct (Populate.disk h path) as [| content | size e] eqn:Hdisk.
  - exists false. eexists. split.
    + unfold Populate.execute_sql_file. rewrite hbind_stat, Hdisk.
      rewrite hbind_print. reflexivity.
    + cbn. repeat split; try reflexivity; try assumption. discriminate.
  - pose proof (execute_sql_file_regular path content h Hdisk Hconn) as Hspec.
    cbn zeta in Hspec.
    destruct (Populate.execute_sql_file path h) as [r h'].
    cbn [fst snd] in Hspec.
    destruct Hspec as (I1 & I2 & I3 & I4 & I5 & I6 & I7 & I8 & I9 & I10 & I11).
    subst r. eexists. exists h'. split; [reflexivity |].
    repeat split; try assumption.
    intros Hb. exists content. split; [reflexivity | exact Hb].
  - exists false. eexists. split.
    + unfold Populate.execute_sql_file. rewrite hbind_stat, Hdisk.
      rewrite !hbind_print. reflexivity.
    + cbn. repeat split; try reflexivity; try assumption. discriminate.
Qed.

Lemma hbind_run {A B} (m : Populate.H A) (k : A -> Populate.H B) h a h1 :
  m h = (Populate.Returned a, h1) -> Populate.hbind m k h = k a h1.
Proof. intros E. unfold Populate.hbind. rewrite E. reflexivity. Qed.

Lemma close_spec h :
  exists h',
    Populate.close h = (Populate.Returned tt, h') /\
    Populate.conn h' <> Populate.Open /\
    Populate.open_cursors h' = Populate.open_cursors h /\
    Populate.closes h' =
      match Populate.conn h with
      | Populate.NoConnection => Populate.closes h
      | _ => S (Populate.closes h)
      end.
Proof.
  unfold Populate.close. destruct (Populate.conn h) eqn:Hc.
  - exists h. rewrite Hc. repeat split; try reflexivity. discriminate.
  - eexists. split; [reflexivity |]. cbn. repeat split. discriminate.
  - eexists. split; [reflexivity |]. cbn. repeat split. discriminate.
Qed.

Lemma main_direct_spec self sql_file h r h' :
  Populate.main_direct self sql_file h = (r, h') ->
  let connected :=
    Populate.verdict (Populate.attempts (Populate.connects h) 5) in
  (r = Populate.Returned tt \/
   r = Populate.Failed (Populate.SystemExit 1)) /\
  Populate.conn h' <> Populate.Open /\
  Populate.open_cursors h' = Populate.open_cursors h /\
  Populate.closes h' =
    match connected with
    | Populate.Returned true => S (Populate.closes h)
    | _ => Populate.closes h
    end /\
  (r = Populate.Returned tt ->
   connected = Populate.Returned true /\
   exists content k,
     Populate.disk h sql_file = Populate.Regular content /\
     (k <= 3)%nat /\
     forallb Populate.is_executed
       (Populate.answers
          (mkTape (src (Populate.executes h)) (pos (Populate.executes h) + k))
          (Populate.split_statements
             (Populate.universal_newlines content))) = true).
Proof.
  intros E connected. unfold Populate.main_direct in E.
  apply hbind_inv in E.
  destruct E as [(u & h0 & Einit & E) | (e & Einit & _)];
    [| discriminate Einit].
  unfold Populate.init in Einit. inversion Einit; subst u h0; clear Einit.
  set (h0 := Populate.set_conn Populate.NoConnection h) in E.
  unfold Populate.finally in E.
  match type of E with
  | context [Populate.try_except ?b _ h0] => set (body := b) in E
  end.
  assert (Hbody : forall rb hb,
    body h0 = (rb, hb) ->
    (rb = Populate.Returned tt \/
     rb = Populate.Failed (Populate.SystemExit 1) \/
     exists e, rb = Populate.Failed (Populate.Exception e)) /\
    Populate.conn hb =
      match connected with
      | Populate.Returned true => Populate.Open
      | _ => Populate.NoConnection
      end /\
    Populate.open_cursors hb = Populate.open_cursors h /\
    Populate.closes hb = Populate.closes h /\
    (rb = Populate.Returned tt ->
     connected = Populate.Returned true /\
     exists content k,
       Populate.disk h sql_file = Populate.Regular content /\
       (k <= 3)%nat /\
       forallb Populate.is_executed
         (Populate.answers
            (mkTape (src (Populate.executes h)) (pos (Populate.executes h) + k))
            (Populate.split_statements
               (Populate.universal_newlines content))) = true)).
  { intros rb hb Eb. subst body.
    destruct (Populate.connect self 5 2 h0) as [rc hc] eqn:Ec.
    assert (Hdelay : 0 <= 2) by lia.
    pose proof (connect_loop_spec self 5 2 Hdelay 5%nat 1 h0 eq_refl) as Hc.
    cbn zeta in Hc. unfold Populate.connect in Ec.
    change (Z.to_nat 5) with 5%nat in Ec. rewrite Ec in Hc.
    cbn [fst snd] in Hc.
    change (Populate.connects h0) with (Populate.connects h) in Hc.
    fold connected in Hc.
    destruct Hc as (C1 & _ & _ & _ & C5 & _ & C7 & _ & C9 & C10 & C11).
    change (Populate.conn h0) with Populate.NoConnection in C5.
    change (Populate.executes h0) with (Populate.executes h) in C7.
    change (Populate.closes h0) with (Populate.closes h) in C9.
    change (Populate.open_cursors h0) with (Populate.open_cursors h) in C10.
    change (Populate.disk h0) with (Populate.disk h) in C11.
    unfold Populate.hbind at 1 in Eb.
    change (Populate.connect self 5 2 h0)
      with (Populate.connect_loop self 5 1 5 2 h0) in Eb.
    rewrite Ec in Eb. rewrite <- C1.
    destruct rc as [[|] | e].
    - (* connected *)
      cbn [negb] in Eb. rewrite hbind_print in Eb.
      match type of Eb with
      | Populate.hbind Populate.get_table_counts _ ?hx = _ => set (h1 := hx) in Eb
      end.
      assert (O1 : Populate.conn h1 = Populate.Open) by exact C5.
      pose proof (get_table_counts_open h1 O1) as G. cbn zeta in G.
      destruct (Populate.get_table_counts h1) as [rg hg] eqn:Eg.
      cbn [fst snd] in G.
      destruct G as ((counts & -> & _) & (k & Hk & Gpos & _) & Gsrc & Gdisk &
                     _ & Gconn & Gcloses & Gcur & _).
      rewrite (hbind_run _ _ _ _ _ Eg) in Eb.
      destruct (print_initial_spec counts hg)
        as (hp & Ep & P1 & P2 & P3 & P4 & P5).
      rewrite (hbind_run _ _ _ _ _ Ep) in Eb.
      rewrite hbind_print in Eb.
      match type of Eb with
      | Populate.hbind (Populate.execute_sql_file _) _ ?hx = _ =>
          set (h2 := hx) in Eb
      end.
      assert (O2 : Populate.conn h2 = Populate.Open).
      { subst h2. cbn. rewrite P3. exact Gconn. }
      destruct (execute_sql_file_open sql_file h2 O2)
        as (b & he & Ee & X1 & X2 & X3 & X4 & X5 & X6).
      rewrite (hbind_run _ _ _ _ _ Ee) in Eb.
      assert (Hcur : Populate.open_cursors he = Populate.open_cursors h).
      { rewrite X5. subst h2. cbn. rewrite P5, Gcur. subst h1. cbn. exact C10. }
      assert (Hcl : Populate.closes he = Populate.closes h).
      { rewrite X4. subst h2. cbn. rewrite P4, Gcloses. subst h1. cbn. exact C9. }
      destruct b; cbn [negb] in Eb.
      + rewrite hbind_print in Eb.
        match type of Eb with
        | Populate.hbind Populate.get_table_counts _ ?hx = _ =>
            set (h3 := hx) in Eb
        end.
        assert (O3 : Populate.conn h3 = Populate.Open) by exact X3.
        pose proof (get_table_counts_open h3 O3) as G'. cbn zeta in G'.
        destruct (Populate.get_table_counts h3) as [rg' hg'] eqn:Eg'.
        cbn [fst snd] in G'.
        destruct G' as ((counts' & -> & _) & _ & _ & _ & _ & Gconn' & Gcloses' &
                        Gcur' & _).
        rewrite (hbind_run _ _ _ _ _ Eg') in Eb.
        destruct (print_final_spec counts counts' hg')
          as (hq & Eq & Q1 & Q2 & Q3 & Q4 & Q5).
        rewrite (hbind_run _ _ _ _ _ Eq) in Eb.
        unfold Populate.print_err in Eb. inversion Eb; subst rb hb; clear Eb.
        cbn. rewrite Q3, Q4, Q5, Gconn', Gcloses', Gcur'. subst h3. cbn.
        split; [left; reflexivity |].
        split; [reflexivity |]. split; [exact Hcur |]. split; [exact Hcl |].
        intros _. split; [reflexivity |].
        destruct (X6 eq_refl) as (content & Hdisk & Hall).
        exists content, k. split.
        { rewrite <- Hdisk. subst h2. cbn. rewrite P1, Gdisk. subst h1. cbn.
          rewrite C11. reflexivity. }
        split; [exact Hk |].
        rewrite <- Hall. f_equal. apply answers_ext.
        * subst h2. cbn. rewrite P2, Gsrc. subst h1. cbn. rewrite C7. reflexivity.
        * subst h2. cbn. rewrite P2, Gpos. subst h1. cbn. rewrite C7. reflexivity.
      + rewrite hbind_print in Eb. unfold Populate.sys_exit, Populate.hfail in Eb.
        inversion Eb; subst rb hb; clear Eb. cbn. rewrite X3, Hcur, Hcl.
        split; [right; left; reflexivity |].
        repeat split; try reflexivity; discriminate.
    - (* every attempt failed *)
      cbn [negb] in Eb. unfold Populate.sys_exit, Populate.hfail in Eb.
      inversion Eb; subst rb hb; clear Eb.
      split; [right; left; reflexivity |].
      repeat split; try assumption; discriminate.
    - (* psycopg2.connect raised something else *)
      inversion Eb; subst rb hb; clear Eb.
      assert (He : exists t, e = Populate.Exception t).
      { unfold connected, Populate.verdict in C1.
        destruct (last (Populate.attempts (Populate.connects h) 5)
                       (Populate.OperationalError "")); inversion C1.
        eexists. reflexivity. }
      destruct He as [t ->].
      split; [right; right; exists t; reflexivity |].
      repeat split; try assumption; discriminate. }
  destruct (Populate.try_except body
              (fun e : string =>
               Populate.hbind
                 (Populate.print_err ("❌ Unexpected error: " ++ e))
                 (fun _ : unit => Populate.sys_exit 1)) h0)
    as [r1 h1] eqn:E1.
  unfold Populate.try_except in E1.
  destruct (body h0) as [rb hb] eqn:Eb.
  destruct (Hbody rb hb eq_refl) as (B1 & B2 & B3 & B4 & B5).
  clear Hbody.
  assert (H1 : (r1 = Populate.Returned tt /\ rb = Populate.Returned tt \/
                r1 = Populate.Failed (Populate.SystemExit 1)) /\
               Populate.conn h1 = Populate.conn hb /\
               Populate.open_cursors h1 = Populate.open_cursors hb /\
               Populate.closes h1 = Populate.closes hb).
  { destruct B1 as [-> | [-> | (e & ->)]].
    - inversion E1; subst. repeat split; try reflexivity. left. split; reflexivity.
    - inversion E1; subst. repeat split; try reflexivity. right. reflexivity.
    - rewrite hbind_print in E1.
      unfold Populate.sys_exit, Populate.hfail in E1.
      inversion E1; subst. repeat split; try reflexivity. right. reflexivity. }
  destruct H1 as (R1 & F1 & F2 & F3).
  destruct (close_spec h1) as (hy & Ey & Y1 & Y2 & Y3).
  rewrite Ey in E. inversion E; subst r h'; clear E.
  rewrite Y2, Y3, F1, F2, F3, B2, B3, B4.
  split; [destruct R1 as [[-> _] | ->]; [left | right]; reflexivity |].
  split; [exact Y1 |]. split; [reflexivity |]. split.
  - destruct connected as [[|] | e]; reflexivity.
  - intros Hr. destruct R1 as [[_ Hrb] | ->]; [| discriminate Hr].
    exact (B5 Hrb).
Qed.

(** X14. The direct-connection method of [main] ends in one of two
    ways, it returns or it exits with status 1; no exception leaves it.
    It returns only if an attempt to connect succeeded within 5, the
    file could be read and every statement of the file was executed
    without an exception (the statements are sent after the at most
    three counting queries).  In every case the connection is not left
    open, it is closed exactly when one was made, and no cursor is left
    open. *)
Theorem main_direct_outcome :
  forall self sql_file h,
    let r := Populate.result_of (Populate.main_direct self sql_file) h in
    let h' := Populate.host_after (Populate.main_direct self sql_file) h in
    let connected :=
      Populate.verdict (Populate.attempts (Populate.connects h) 5) in
    (r = Populate.Returned tt \/
     r = Populate.Failed (Populate.SystemExit 1)) /\
    Populate.conn h' <> Populate.Open /\
    Populate.open_cursors h' = Populate.open_cursors h /\
    Populate.closes h' =
      match connected with
      | Populate.Returned true => S (Populate.closes h)
      | _ => Populate.closes h
      end /\
    (r = Populate.Returned tt ->
     connected = Populate.Returned true /\
     exists content k,
       Populate.disk h sql_file = Populate.Regular content /\
       (k <= 3)%nat /\
       forallb Populate.is_executed
         (Populate.answers
            (mkTape (src (Populate.executes h))
                    (pos (Populate.executes h) + k))
            (Populate.split_statements
               (Populate.universal_newlines content))) = true).
Proof.
  intros self sql_file h r h' connected.
  subst r h'. unfold Populate.result_of, Populate.host_after.
  destruct (Populate.main_direct self sql_file h) as [r h'] eqn:E.
  exact (main_direct_spec self sql_file h r h' E).
Qed.
